(** * Claudelet: session lifecycle and process multiplexing

  A shallow embedding of the server routes of claudelet
  ([server/src/routes/chat.ts], [terminal.ts], [sessions.ts],
  [repositories.ts]) together with the properties its specification
  states about them.

  Conventions of the embedding.
  - A JavaScript value that came out of [JSON.parse] is a [JS.json];
    [undefined] is [None] in an [option json].
  - A JavaScript [Map] is a [gmap]; [process.env] is a [gmap string string].
  - Handlers are state transformers over an explicit record of the module
    level variables, the sockets, the spawned processes and the database
    rows they touch.
  - Strings are byte strings. *)

From Stdlib Require Import ZArith Ascii.
From stdpp Require Import gmap strings list fin_maps pretty sorting.

Local Open Scope Z_scope.

(* ===================================================================== *)
(** * Part I: definitions                                                 *)
(* ===================================================================== *)

(** ** JavaScript values and the fragments of the language the routes use *)
Module JS.

(** Values produced by [JSON.parse].  An object is the list of its own
    properties in enumeration order, each key once.  A number is held by a
    decimal that denotes it, [mantissa * 10 ^ exponent]: the text of a
    number is fixed by the shortest decimal that denotes it, which is the
    one to hold a number of the program by.  The integer [n] is [JNum n 0],
    and [0.25] is [JNum 25 (-2)]. *)
Unset Elimination Schemes.
Inductive json : Type :=
| JNull
| JBool (b : bool)
| JNum (mantissa exponent : Z)
| JStr (s : string)
| JArr (xs : list json)
| JObj (kvs : list (string * json)).
Set Elimination Schemes.

(** A possibly [undefined] value. *)
Abbreviation value := (option json).

(** Outcome of evaluating an expression or statement that may throw. *)
Inductive completion (A : Type) : Type :=
| Normal (a : A)
| Throw.
Arguments Normal {A} a.
Arguments Throw {A}.

(** [ToBoolean]. *)
Definition truthy (v : value) : bool :=
  match v with
  | None => false
  | Some JNull => false
  | Some (JBool b) => b
  | Some (JNum mantissa _) => negb (mantissa =? 0)
  | Some (JStr s) => negb (String.eqb s "")
  | Some (JArr _) => true
  | Some (JObj _) => true
  end.

(** [a || b]. *)
Definition or_else (a b : value) : value := if truthy a then a else b.

(** Own property lookup. *)
Fixpoint assoc (k : string) (kvs : list (string * json)) : value :=
  match kvs with
  | [] => None
  | (k', v) :: rest => if String.eqb k k' then Some v else assoc k rest
  end.

(** [v.k] for a value that is neither [null] nor [undefined], and for the
    property names the routes read (none of them is inherited from a
    prototype, so a primitive or an array has none of them). *)
Definition get (k : string) (v : json) : value :=
  match v with
  | JObj kvs => assoc k kvs
  | _ => None
  end.

(** [v.k]: a [TypeError] on [null] and [undefined]. *)
Definition prop (k : string) (v : value) : completion value :=
  match v with
  | None | Some JNull => Throw
  | Some o => Normal (get k o)
  end.

(** [v?.k]. *)
Definition prop_opt (k : string) (v : value) : value :=
  match v with
  | None | Some JNull => None
  | Some o => get k o
  end.

(** [v === "s"]. *)
Definition is_str (s : string) (v : value) : bool :=
  match v with
  | Some (JStr s') => String.eqb s' s
  | _ => false
  end.

(** ** Strings *)

(** [s.split(c)] for a one character separator. *)
Fixpoint split (c : Ascii.ascii) (s : string) : list string :=
  match s with
  | EmptyString => [""]
  | String a s' =>
      if Ascii.eqb a c then "" :: split c s'
      else match split c s' with
           | [] => [String a ""]
           | seg :: segs => String a seg :: segs
           end
  end.

(** [hay.includes(needle)]. *)
Fixpoint includes (needle hay : string) : bool :=
  String.prefix needle hay
  || match hay with
     | EmptyString => false
     | String _ hay' => includes needle hay'
     end.

(** [s] without the prefix [pre], if it starts with it. *)
Fixpoint strip_prefix (pre s : string) : option string :=
  match pre, s with
  | EmptyString, _ => Some s
  | String a pre', String b s' => if Ascii.eqb a b then strip_prefix pre' s' else None
  | String _ _, EmptyString => None
  end.

(** The white space and line terminators of the ASCII range. *)
Definition is_space (c : Ascii.ascii) : bool :=
  let n := Ascii.N_of_ascii c in
  ((9 <=? n) && (n <=? 13) || (n =? 32))%N.

(** [!s.trim()], for strings whose white space is ASCII. *)
Fixpoint blank (s : string) : bool :=
  match s with
  | EmptyString => true
  | String c s' => is_space c && blank s'
  end.

(** ** [JSON.stringify(v, null, 2)] *)

Definition hex_digit (n : N) : Ascii.ascii :=
  match n with
  | 0 => "0" | 1 => "1" | 2 => "2" | 3 => "3" | 4 => "4" | 5 => "5"
  | 6 => "6" | 7 => "7" | 8 => "8" | 9 => "9" | 10 => "a" | 11 => "b"
  | 12 => "c" | 13 => "d" | 14 => "e" | _ => "f"
  end%N%char.

Definition dq : string := String (Ascii.ascii_of_N 34) "".
Definition nl : string := String (Ascii.ascii_of_N 10) "".

(** One character of [QuoteJSONString]. *)
Definition quote_char (c : Ascii.ascii) : string :=
  let n := Ascii.N_of_ascii c in
  if (n =? 8)%N then "\b"
  else if (n =? 9)%N then "\t"
  else if (n =? 10)%N then "\n"
  else if (n =? 12)%N then "\f"
  else if (n =? 13)%N then "\r"
  else if (n =? 34)%N then "\" +:+ dq
  else if (n =? 92)%N then "\\"
  else if (n <? 32)%N then
    "\u00" +:+ String (hex_digit (n / 16)) (String (hex_digit (n mod 16)) "")
  else String c "".

Fixpoint quote_body (s : string) : string :=
  match s with
  | EmptyString => ""
  | String c s' => quote_char c +:+ quote_body s'
  end.

Definition quote (s : string) : string := dq +:+ quote_body s +:+ dq.

(** Leading zeros off a list of digits. *)
Fixpoint drop_zeros (digits : list Ascii.ascii) : list Ascii.ascii :=
  match digits with
  | d :: rest => if Ascii.eqb d "0" then drop_zeros rest else digits
  | [] => []
  end.

(** [Number::toString] in radix 10, for the number [mantissa * 10 ^
    exponent].  With [s] the digits of the mantissa without its trailing
    zeros, [k] their number and [n] the position of the decimal point
    (the number is [0.s * 10 ^ n]): the digits followed by zeros when
    [k <= n <= 21], the digits with a point inside when [0 < n <= 21],
    [0.] and zeros before the digits when [-6 < n <= 0], and the exponent
    form otherwise. *)
Definition Number_toString (mantissa exponent : Z) : string :=
  if mantissa =? 0 then "0"
  else
    let all := String.list_ascii_of_string (pretty (Z.abs mantissa)) in
    let s := reverse (drop_zeros (reverse all)) in
    let k := Z.of_nat (length s) in
    let n := Z.of_nat (length all) + exponent in
    let zero : Ascii.ascii := "0"%char in
    let point : Ascii.ascii := "."%char in
    let body : list Ascii.ascii :=
      if (k <=? n) && (n <=? 21) then s ++ replicate (Z.to_nat (n - k)) zero
      else if (0 <? n) && (n <=? 21) then
        take (Z.to_nat n) s ++ point :: drop (Z.to_nat n) s
      else if (-6 <? n) && (n <=? 0) then
        zero :: point :: replicate (Z.to_nat (- n)) zero ++ s
      else
        let e := String.list_ascii_of_string
                   ("e" +:+ (if 0 <=? n - 1 then "+" else "-") +:+ pretty (Z.abs (n - 1))) in
        match s with
        | [] => []
        | [d] => d :: e
        | d :: rest => d :: point :: rest ++ e
        end in
    (if mantissa <? 0 then "-" else "") +:+ String.string_of_list_ascii body.

(** [SerializeJSONProperty] with gap ["  "]; [ind] is the current
    indentation. *)
Fixpoint serialize (ind : string) (v : json) : string :=
  let ind' := ind +:+ "  " in
  let wrap (l r : string) (parts : list string) : string :=
    match parts with
    | [] => l +:+ r
    | _ => l +:+ nl +:+ ind' +:+ String.concat ("," +:+ nl +:+ ind') parts
             +:+ nl +:+ ind +:+ r
    end in
  match v with
  | JNull => "null"
  | JBool true => "true"
  | JBool false => "false"
  | JNum mantissa exponent => Number_toString mantissa exponent
  | JStr s => quote s
  | JArr xs => wrap "[" "]" (map (serialize ind') xs)
  | JObj kvs =>
      wrap "{" "}"
           (map (fun kv => quote (fst kv) +:+ ": " +:+ serialize ind' (snd kv)) kvs)
  end.

(** [JSON.stringify(v, null, 2)]: [undefined] for [undefined]. *)
Definition JSON_stringify2 (v : value) : option string :=
  serialize "" <$> v.

(** [typeof v === "string" ? v : JSON.stringify(v, null, 2)]. *)
Definition text_of (v : value) : option string :=
  match v with
  | Some (JStr s) => Some s
  | _ => JSON_stringify2 v
  end.

End JS.

(** ** Node's [path] module (POSIX flavour) *)
Module Path.

(** [s.split("/")]. *)
Definition split (s : string) : list string := JS.split "/" s.

(** One segment of [normalizeString]; [res] holds the segments kept so
    far, the last one first. *)
Definition push_segment (allowAboveRoot : bool) (res : list string) (seg : string)
  : list string :=
  if String.eqb seg "" || String.eqb seg "." then res
  else if String.eqb seg ".." then
    match res with
    | top :: rest =>
        if String.eqb top ".."
        then (if allowAboveRoot then ".." :: res else res)
        else rest
    | [] => if allowAboveRoot then [".."] else []
    end
  else seg :: res.

Definition normalizeString (path : string) (allowAboveRoot : bool) : string :=
  String.concat "/" (rev (fold_left (push_segment allowAboveRoot) (split path) [])).

Fixpoint ends_with_slash (s : string) : bool :=
  match s with
  | EmptyString => false
  | String c EmptyString => Ascii.eqb c "/"
  | String _ s' => ends_with_slash s'
  end.

Definition starts_with_slash (s : string) : bool :=
  match s with
  | String c _ => Ascii.eqb c "/"
  | EmptyString => false
  end.

(** [path.normalize]. *)
Definition normalize (path : string) : string :=
  if String.eqb path "" then "."
  else
    let isAbsolute := starts_with_slash path in
    let trailingSeparator := ends_with_slash path in
    let path := normalizeString path (negb isAbsolute) in
    if String.eqb path "" then
      if isAbsolute then "/" else if trailingSeparator then "./" else "."
    else
      let path := if trailingSeparator then path +:+ "/" else path in
      if isAbsolute then "/" +:+ path else path.

(** [path.join(...args)]. *)
Definition join (args : list string) : string :=
  match List.filter (fun arg => negb (String.eqb arg "")) args with
  | [] => "."
  | parts => normalize (String.concat "/" parts)
  end.

(** The backwards loop of [path.dirname] over the characters after the
    first, last one first: what is left of them in front of the separator
    that ends the directory part, if there is one. *)
Fixpoint dirname_scan (rev_tail : list Ascii.ascii) (matchedSlash : bool)
  : option (list Ascii.ascii) :=
  match rev_tail with
  | [] => None
  | c :: rest =>
      if Ascii.eqb c "/" then
        if matchedSlash then dirname_scan rest true else Some rest
      else dirname_scan rest false
  end.

(** [path.dirname]. *)
Definition dirname (path : string) : string :=
  match path with
  | EmptyString => "."
  | String c0 tail =>
      let hasRoot := Ascii.eqb c0 "/" in
      match dirname_scan (rev (String.list_ascii_of_string tail)) true with
      | None => if hasRoot then "/" else "."
      | Some [] => if hasRoot then "//" else String c0 ""
      | Some rest => String c0 (String.string_of_list_ascii (rev rest))
      end
  end.

(** A path segment that [normalize] keeps as it is: not empty, not ["."],
    not [".."] and without a separator. *)
Definition plain_segment (s : string) : bool :=
  negb (String.eqb s "") && negb (String.eqb s ".") && negb (String.eqb s "..")
  && match split s with [_] => true | _ => false end.

End Path.

(** ** The [ws] server side socket *)
Module WS.

Inductive readyState : Set := CONNECTING | OPEN | CLOSING | CLOSED.

#[global] Instance readyState_eq_dec : EqDecision readyState.
Proof. solve_decision. Defined.

(** What the routes can observe of a socket: its state, the frames handed
    to [send] while it was open, and the arguments of [close]. *)
Record socket (F : Type) : Type := Socket {
  readyState_of : readyState;
  sent : list F;
  closed_with : option (Z * string);
}.
Arguments Socket {F}.
Arguments readyState_of {F}.
Arguments sent {F}.
Arguments closed_with {F}.

Definition fresh {F} : socket F := Socket OPEN [] None.

Definition is_open {F} (s : socket F) : bool :=
  bool_decide (readyState_of s = OPEN).

(** [socket.send(frame)]: the frame is dropped unless the socket is open
    (an accepted socket is never [CONNECTING]). *)
Definition send {F} (s : socket F) (f : F) : socket F :=
  if is_open s then Socket (readyState_of s) (sent s ++ [f]) (closed_with s) else s.

(** [socket.close(code, reason)]. *)
Definition close {F} (s : socket F) (code : Z) (reason : string) : socket F :=
  if is_open s then Socket CLOSING (sent s) (Some (code, reason)) else s.

(** The peer or the network ends the connection. *)
Definition terminate {F} (s : socket F) : socket F :=
  Socket CLOSED (sent s) (closed_with s).

End WS.

(** ** The part of [fs] the routes use *)
Module Fs.

(** Directories and files that exist, and the paths at which creating a
    directory or a file fails (permissions, something in the way). *)
Record t : Type := Make {
  dirs : gset string;
  files : gmap string string;
  unwritable : gset string;
}.

Definition existsSync (p : string) (fs : t) : bool :=
  bool_decide (p ∈ dirs fs) || bool_decide (is_Some (files fs !! p)).

(** The proper ancestors of a path: [/a] and [/a/b] for [/a/b/c]. *)
Fixpoint ancestors_from (pre : string) (segs : list string) : list string :=
  match segs with
  | [] | [_] => []
  | seg :: rest =>
      let here := pre +:+ seg in
      (if String.eqb seg "" then [] else [here]) ++ ancestors_from (here +:+ "/") rest
  end.

Definition ancestors (p : string) : list string := ancestors_from "" (Path.split p).

(** [fs.mkdirSync(p, { recursive: true })]. *)
Definition mkdirSync (p : string) (fs : t) : JS.completion t :=
  if bool_decide (p ∈ unwritable fs) then JS.Throw
  else JS.Normal (Make (dirs fs ∪ {[p]} ∪ list_to_set (ancestors p)) (files fs)
                       (unwritable fs)).

(** [fs.writeFileSync(p, data)]. *)
Definition writeFileSync (p data : string) (fs : t) : JS.completion t :=
  if bool_decide (p ∈ unwritable fs) then JS.Throw
  else JS.Normal (Make (dirs fs) (<[p := data]> (files fs)) (unwritable fs)).

(** Whether [q] is [p] or lies below it. *)
Definition within (p q : string) : bool :=
  String.eqb q p || String.prefix (p +:+ "/") q.

(** [fs.rmSync(p, { recursive: true, force: true })]. *)
Definition rmSync (p : string) (fs : t) : t :=
  Make (filter (fun q => within p q = false) (dirs fs))
       (filter (fun kv => within p (fst kv) = false) (files fs))
       (unwritable fs).

End Fs.

(** ** [routes/chat.ts]: the assistant channel *)
Module Chat.
Import JS.

Inductive message_type : Set :=
| T_user | T_assistant | T_tool_use | T_tool_result
| T_error | T_status | T_system | T_login_required.

Inductive status_type : Set := S_connected | S_thinking | S_idle | S_error.

(** [interface ChatMessage].  The fields filled from a parsed record hold
    whatever that record held: the [as string] casts of the source check
    nothing. *)
Record ChatMessage : Type := {
  type : message_type;
  content : value;
  tool : value;
  toolId : value;
  params : value;
  result : option string;
  isError : value;
  status : option status_type;
  timestamp : option Z;
  loginUrl : option string;
}.

Definition text_message (t : message_type) (c : value) (ts : option Z) : ChatMessage :=
  {| type := t; content := c; tool := None; toolId := None; params := None;
     result := None; isError := None; status := None; timestamp := ts;
     loginUrl := None |}.

Definition status_message (st : status_type) (ts : option Z) : ChatMessage :=
  {| type := T_status; content := None; tool := None; toolId := None;
     params := None; result := None; isError := None; status := Some st;
     timestamp := ts; loginUrl := None |}.

Definition tool_use_message (name id input : value) (ts : option Z) : ChatMessage :=
  {| type := T_tool_use; content := None; tool := name; toolId := id;
     params := input; result := None; isError := None; status := None;
     timestamp := ts; loginUrl := None |}.

Definition tool_result_message (id : value) (text : option string) (err : value)
           (ts : option Z) : ChatMessage :=
  {| type := T_tool_result; content := None; tool := None; toolId := id;
     params := None; result := text; isError := err; status := None;
     timestamp := ts; loginUrl := None |}.

(** Frames written to an assistant channel socket. *)
Inductive frame : Type :=
| Message (m : ChatMessage)
| Pong.

Abbreviation WebSocket := (WS.socket frame).

(** [sendMessage]. *)
Definition sendMessage (socket : WebSocket) (message : ChatMessage) : WebSocket :=
  if bool_decide (WS.readyState_of socket = WS.OPEN)
  then WS.send socket (Message message)
  else socket.

(** *** [processClaudeEvent] *)

(** The body of [for (const block of content)]; reading [block.type]
    throws on a [null] element, which ends the loop. *)
Fixpoint send_blocks (now : Z) (socket : WebSocket) (content : list json)
  : WebSocket * completion unit :=
  match content with
  | [] => (socket, Normal tt)
  | block :: rest =>
      match prop "type" (Some block) with
      | Throw => (socket, Throw)
      | Normal ty =>
          let socket :=
            if is_str "text" ty then
              sendMessage socket (text_message T_assistant (get "text" block) (Some now))
            else if is_str "tool_use" ty then
              sendMessage socket
                (tool_use_message (get "name" block) (get "id" block)
                                  (get "input" block) (Some now))
            else socket in
          send_blocks now socket rest
      end
  end.

(** [message?.content || event.content]. *)
Definition event_content (ev : json) : value :=
  let message := get "message" ev in
  or_else (prop_opt "content" message) (get "content" ev).

Definition processClaudeEvent (now : Z) (socket : WebSocket) (event : value)
  : WebSocket * completion unit :=
  match event with
  | None | Some JNull => (socket, Throw)
  | Some ev =>
      let eventType := get "type" ev in
      if is_str "assistant" eventType || is_str "message" eventType then
        let content := event_content ev in
        match content with
        | Some (JArr blocks) => send_blocks now socket blocks
        | Some (JStr _) =>
            (sendMessage socket (text_message T_assistant content (Some now)), Normal tt)
        | _ => (socket, Normal tt)
        end
      else if is_str "content_block_start" eventType
              || is_str "content_block" eventType then
        let block := get "content_block" ev in
        if is_str "text" (prop_opt "type" block) then
          (sendMessage socket
             (text_message T_assistant (prop_opt "text" block) (Some now)), Normal tt)
        else if is_str "tool_use" (prop_opt "type" block) then
          (sendMessage socket
             (tool_use_message (prop_opt "name" block) (prop_opt "id" block)
                               (prop_opt "input" block) (Some now)), Normal tt)
        else (socket, Normal tt)
      else if is_str "tool_use" eventType then
        let tool_use := get "tool_use" ev in
        (sendMessage socket
           (tool_use_message
              (or_else (get "name" ev) (prop_opt "name" tool_use))
              (or_else (get "id" ev) (prop_opt "id" tool_use))
              (or_else (get "input" ev) (prop_opt "input" tool_use))
              (Some now)), Normal tt)
      else if is_str "tool_result" eventType then
        let result := or_else (get "content" ev) (get "result" ev) in
        let resultText := text_of result in
        (sendMessage socket
           (tool_result_message
              (or_else (get "tool_use_id" ev) (get "id" ev))
              resultText
              (or_else (get "is_error" ev) (Some (JBool false)))
              (Some now)), Normal tt)
      else if is_str "error" eventType then
        (sendMessage socket
           (text_message T_error
              (or_else (or_else (get "message" ev) (get "error" ev))
                       (Some (JStr "Unknown error")))
              (Some now)), Normal tt)
      else if is_str "result" eventType then
        (socket, Normal tt)
      else
        (socket, Normal tt)
  end.


(** *** The module state *)

(** A child started by [spawn]: what it was started with, the variables
    its handlers close over, the signals sent to it and whether its
    [close] event was delivered. *)
Record ChildProcess : Type := {
  cp_sessionId : string;
  cp_socket : nat;
  cp_file : string;
  cp_args : list json;
  cp_cwd : string;
  cp_env : gmap string string;
  cp_signals : list string;
  cp_closed : bool;
  cp_buffer : string;
  cp_currentToolId : value;
}.

(** [activeProcesses] maps a session id to the handle of a child; a handle
    is the position of the child in [children], which lists every child
    spawned so far. *)
Record state : Type := {
  activeProcesses : gmap string nat;
  children : list ChildProcess;
  sockets : gmap nat WebSocket;
  fs : Fs.t;
  process_env : gmap string string;
  Date_now : Z;
}.

Definition set_activeProcesses (st : state) (m : gmap string nat) : state :=
  {| activeProcesses := m; children := children st; sockets := sockets st;
     fs := fs st; process_env := process_env st; Date_now := Date_now st |}.

Definition set_children (st : state) (cs : list ChildProcess) : state :=
  {| activeProcesses := activeProcesses st; children := cs; sockets := sockets st;
     fs := fs st; process_env := process_env st; Date_now := Date_now st |}.

Definition set_sockets (st : state) (ss : gmap nat WebSocket) : state :=
  {| activeProcesses := activeProcesses st; children := children st; sockets := ss;
     fs := fs st; process_env := process_env st; Date_now := Date_now st |}.

Definition set_fs (st : state) (f : Fs.t) : state :=
  {| activeProcesses := activeProcesses st; children := children st;
     sockets := sockets st; fs := f; process_env := process_env st;
     Date_now := Date_now st |}.

(** What the handlers of one connection close over. *)
Record connection : Type := {
  socket : nat;
  sessionId : string;
  workspace_path : string;
  user_id : string;
}.

(** [sendMessage(socket, message)] on the socket with handle [sock]. *)
Definition send_to (sock : nat) (message : ChatMessage) (st : state) : state :=
  set_sockets st (alter (fun s => sendMessage s message) sock (sockets st)).

Definition update_child (h : nat) (f : ChildProcess -> ChildProcess) (st : state)
  : state :=
  set_children st (alter f h (children st)).

(** [child.kill(signal)]. *)
Definition kill (signal : string) (cp : ChildProcess) : ChildProcess :=
  {| cp_sessionId := cp_sessionId cp; cp_socket := cp_socket cp;
     cp_file := cp_file cp; cp_args := cp_args cp; cp_cwd := cp_cwd cp;
     cp_env := cp_env cp; cp_signals := cp_signals cp ++ [signal];
     cp_closed := cp_closed cp; cp_buffer := cp_buffer cp;
     cp_currentToolId := cp_currentToolId cp |}.

Definition set_closed (cp : ChildProcess) : ChildProcess :=
  {| cp_sessionId := cp_sessionId cp; cp_socket := cp_socket cp;
     cp_file := cp_file cp; cp_args := cp_args cp; cp_cwd := cp_cwd cp;
     cp_env := cp_env cp; cp_signals := cp_signals cp;
     cp_closed := true; cp_buffer := cp_buffer cp;
     cp_currentToolId := cp_currentToolId cp |}.

Definition set_buffer (buffer : string) (tool : value) (cp : ChildProcess)
  : ChildProcess :=
  {| cp_sessionId := cp_sessionId cp; cp_socket := cp_socket cp;
     cp_file := cp_file cp; cp_args := cp_args cp; cp_cwd := cp_cwd cp;
     cp_env := cp_env cp; cp_signals := cp_signals cp;
     cp_closed := cp_closed cp; cp_buffer := buffer;
     cp_currentToolId := tool |}.

(** *** Helpers of the route *)

Definition getUserClaudeConfigDir (env : gmap string string) (userId : string)
  : string :=
  let userHome :=
    match env !! "HOME" with
    | Some h => if String.eqb h "" then "/tmp" else h
    | None => "/tmp"
    end in
  Path.join [userHome; ".claudelet-users"; userId].

Definition ensureUserConfigDir (userId : string) (st : state)
  : state * completion string :=
  let configDir := getUserClaudeConfigDir (process_env st) userId in
  if Fs.existsSync configDir (fs st) then (st, Normal configDir)
  else match Fs.mkdirSync configDir (fs st) with
       | Throw => (st, Throw)
       | Normal fs' => (set_fs st fs', Normal configDir)
       end.

(** [abortCurrentProcess]. *)
Definition abortCurrentProcess (sessionId : string) (st : state) : state :=
  match activeProcesses st !! sessionId with
  | Some process =>
      let st := update_child process (kill "SIGTERM") st in
      set_activeProcesses st (delete sessionId (activeProcesses st))
  | None => st
  end.

(** The [env] option of [spawn] in [handleUserMessage]. *)
Definition spawn_env (env : gmap string string) (userClaudeConfig : string)
  : gmap string string :=
  let claudeEnv := delete "ANTHROPIC_API_KEY" env in
  <["FORCE_COLOR" := "0"]>
    (<["NO_COLOR" := "1"]>
       (<["CLAUDE_CODE_REMOTE" := "1"]>
          (<["CLAUDE_CONFIG_DIR" := userClaudeConfig]>
             (<["HOME" := userClaudeConfig]>
                (<["PATH" := default "undefined" (env !! "PATH") +:+ ":/usr/local/bin"]>
                   claudeEnv))))).

Definition spawn_args (content : json) : list json :=
  [JStr "--print"; JStr "--verbose"; JStr "--output-format"; JStr "stream-json";
   JStr "--dangerously-skip-permissions"; JStr "-p"; content].

(** [handleUserMessage]: echo, announce [thinking], spawn the assistant
    and register it.  [content] is the [content] property of the frame as
    it was received. *)
Definition handleUserMessage (c : connection) (content : json) (st : state)
  : state * completion unit :=
  let st := send_to (socket c) (text_message T_user (Some content) (Some (Date_now st))) st in
  let st := send_to (socket c) (status_message S_thinking None) st in
  match ensureUserConfigDir (user_id c) st with
  | (st, Throw) => (st, Throw)
  | (st, Normal userClaudeConfig) =>
      let claudeProcess :=
        {| cp_sessionId := sessionId c; cp_socket := socket c;
           cp_file := "/usr/local/bin/claude"; cp_args := spawn_args content;
           cp_cwd := workspace_path c;
           cp_env := spawn_env (process_env st) userClaudeConfig;
           cp_signals := []; cp_closed := false; cp_buffer := "";
           cp_currentToolId := Some JNull |} in
      let handle := length (children st) in
      let st := set_children st (children st ++ [claudeProcess]) in
      (set_activeProcesses st (<[sessionId c := handle]> (activeProcesses st)), Normal tt)
  end.

(** *** Event handlers *)

(** The socket with handle [sock]; a handle without a socket reads as a
    closed one. *)
Definition socket_at (sock : nat) (st : state) : WebSocket :=
  default (WS.Socket WS.CLOSED [] None) (sockets st !! sock).

Definition put_socket (sock : nat) (s : WebSocket) (st : state) : state :=
  set_sockets st (alter (fun _ => s) sock (sockets st)).

Definition newline : Ascii.ascii := Ascii.ascii_of_N 10.

Section Handlers.

  (** [JSON.parse]: [None] when it throws. *)
Variable JSON_parse : string -> option json.

  (** The body of [for (const line of lines)] in the [stdout] handler;
      the accumulator is the socket and [currentToolId]. *)
Definition process_line (now : Z) (acc : WebSocket * value) (line : string)
    : WebSocket * value :=
    if blank line then acc
    else
      match JSON_parse line with
      | None => acc
      | Some event =>
          match processClaudeEvent now (fst acc) (Some event) with
          | (socket, Throw) => (socket, snd acc)
          | (socket, Normal _) =>
              let eventType := get "type" event in
              if is_str "tool_use" eventType then
                (socket, or_else (prop_opt "id" (get "tool_use" event)) (get "id" event))
              else if is_str "tool_result" eventType then (socket, Some JNull)
              else (socket, snd acc)
          end
      end.

  (** [claudeProcess.stdout.on("data", ...)]. *)
Definition on_stdout (h : nat) (dataStr : string) (st : state) : state :=
    match children st !! h with
    | None => st
    | Some cp =>
        let lines := JS.split newline (cp_buffer cp +:+ dataStr) in
        let buffer := List.last lines "" in
        let lines := List.removelast lines in
        let '(socket, currentToolId) :=
          fold_left (process_line (Date_now st)) lines
                    (socket_at (cp_socket cp) st, cp_currentToolId cp) in
        update_child h (set_buffer buffer currentToolId)
                     (put_socket (cp_socket cp) socket st)
    end.

  (** [claudeProcess.stderr.on("data", ...)]. *)
Definition on_stderr (h : nat) (errorText : string) (st : state) : state :=
    match children st !! h with
    | None => st
    | Some cp =>
        if negb (includes "Debug" errorText) && negb (includes "Info" errorText)
        then send_to (cp_socket cp)
                     (text_message T_error (Some (JStr errorText)) (Some (Date_now st))) st
        else st
    end.

  (** [claudeProcess.on("close", ...)]; the exit code is only logged. *)
Definition on_close (h : nat) (code : option Z) (st : state) : state :=
    match children st !! h with
    | None => st
    | Some cp =>
        let st := update_child h set_closed st in
        let st := set_activeProcesses st (delete (cp_sessionId cp) (activeProcesses st)) in
        let st :=
          if negb (blank (cp_buffer cp)) then
            match JSON_parse (cp_buffer cp) with
            | Some event =>
                put_socket (cp_socket cp)
                  (fst (processClaudeEvent (Date_now st) (socket_at (cp_socket cp) st)
                                           (Some event))) st
            | None => st
            end
          else st in
        send_to (cp_socket cp) (status_message S_idle None) st
    end.

  (** [claudeProcess.on("error", ...)]. *)
Definition on_error (h : nat) (message : string) (st : state) : state :=
    match children st !! h with
    | None => st
    | Some cp =>
        let st := set_activeProcesses st (delete (cp_sessionId cp) (activeProcesses st)) in
        let st :=
          send_to (cp_socket cp)
            (text_message T_error (Some (JStr ("Failed to start Claude: " +:+ message)))
                          (Some (Date_now st))) st in
        send_to (cp_socket cp) (status_message S_error None) st
    end.

  (** [message.content?.slice(0, 100)], evaluated for the log line: only
      strings and arrays have a [slice] to call. *)
Definition content_slice (content : value) : completion unit :=
    match content with
    | None | Some JNull | Some (JStr _) | Some (JArr _) => Normal tt
    | _ => Throw
    end.

  (** The [try] block of [socket.on("message", ...)], after [JSON.parse]. *)
Definition dispatch (c : connection) (message : json) (st : state)
    : state * completion unit :=
    match prop "type" (Some message) with
    | Throw => (st, Throw)
    | Normal messageType =>
        let content := get "content" message in
        match content_slice content with
        | Throw => (st, Throw)
        | Normal _ =>
            if is_str "user" messageType && truthy content then
              match content with
              | Some content => handleUserMessage c content st
              | None => (st, Normal tt)
              end
            else if is_str "ping" messageType then
              (put_socket (socket c) (WS.send (socket_at (socket c) st) Pong) st, Normal tt)
            else if is_str "abort" messageType then
              (abortCurrentProcess (sessionId c) st, Normal tt)
            else (st, Normal tt)
        end
    end.

  (** [socket.on("message", ...)]. *)
Definition on_message (c : connection) (rawStr : string) (st : state) : state :=
    let invalid :=
      send_to (socket c) (text_message T_error (Some (JStr "Invalid message format")) None) in
    match JSON_parse rawStr with
    | None => invalid st
    | Some message =>
        match dispatch c message st with
        | (st, Throw) => invalid st
        | (st, Normal _) => st
        end
    end.

  (** [socket.on("close", ...)]; the socket is closed when it runs. *)
Definition on_socket_close (c : connection) (st : state) : state :=
    let st := put_socket (socket c) (WS.terminate (socket_at (socket c) st)) st in
    abortCurrentProcess (sessionId c) st.

  (** What can happen to the module once a connection is set up. *)
Inductive event : Type :=
  | SocketMessage (c : connection) (rawStr : string)
  | SocketClose (c : connection)
  | ChildStdout (h : nat) (dataStr : string)
  | ChildStderr (h : nat) (errorText : string)
  | ChildClose (h : nat) (code : option Z)
  | ChildError (h : nat) (message : string)
  | ClockAdvance (t : Z).

Definition step (st : state) (e : event) : state :=
    match e with
    | SocketMessage c rawStr => on_message c rawStr st
    | SocketClose c => on_socket_close c st
    | ChildStdout h dataStr => on_stdout h dataStr st
    | ChildStderr h errorText => on_stderr h errorText st
    | ChildClose h code => on_close h code st
    | ChildError h message => on_error h message st
    | ClockAdvance t =>
        {| activeProcesses := activeProcesses st; children := children st;
           sockets := sockets st; fs := fs st; process_env := process_env st;
           Date_now := t |}
    end.

Definition run (st : state) (es : list event) : state := fold_left step es st.

End Handlers.

(** [socket'] is [socket] with the frames [extra] sent after those it had
    sent, in the same state. *)
Definition sends (socket socket' : WebSocket) (extra : list frame) : Prop :=
  socket' = WS.Socket (WS.readyState_of socket) (WS.sent socket ++ extra)
                      (WS.closed_with socket).

(** The kinds of event the normalizer produces. *)
Definition normalized_type (t : message_type) : bool :=
  match t with
  | T_assistant | T_tool_use | T_tool_result | T_error => true
  | _ => false
  end.

(** What the normalizer may add to a socket: frames of its four kinds, and
    none at all unless the socket is open. *)
Definition normalizer_output (socket : WebSocket) (extra : list frame) : Prop :=
  Forall (fun f => exists m, f = Message m /\ normalized_type (type m) = true) extra
  /\ (WS.is_open socket = false -> extra = []).

(** The children of a session whose [close] event has not been delivered:
    the assistant invocations in flight for it. *)
Definition in_flight (sid : string) (st : state) : list ChildProcess :=
  List.filter (fun cp => String.eqb (cp_sessionId cp) sid && negb (cp_closed cp))
              (children st).

End Chat.

(** ** [db/index.ts]: users, auth sessions and terminal sessions *)
Module Db.

Inductive session_status : Set := created | running | stopped | error.

#[global] Instance session_status_eq_dec : EqDecision session_status.
Proof. solve_decision. Defined.

Record User : Type := {
  u_id : string;
  email : string;
  name : option string;
}.

Record AuthSession : Type := {
  a_user_id : string;
  token : string;
  expires_at : Z;
}.

Record TerminalSession : Type := {
  id : string;
  user_id : string;
  container_id : option string;
  workspace_path : string;
  project_name : option string;
  status : session_status;
  created_at : Z;
  last_activity_at : Z;
}.

(** The tables, each keyed by its unique column: [users.id],
    [auth_sessions.token], [terminal_sessions.id]. *)
Record t : Type := {
  users : gmap string User;
  auth_sessions : gmap string AuthSession;
  terminal_sessions : gmap string TerminalSession;
}.

Definition set_terminal_sessions (db : t) (m : gmap string TerminalSession) : t :=
  {| users := users db; auth_sessions := auth_sessions db; terminal_sessions := m |}.

(** [getAuthSessionByToken], reduced to the user it joins; [unixepoch] is
    the clock of the [WHERE] clause. *)
Definition getAuthSessionByToken (tok : string) (unixepoch : Z) (db : t) : option User :=
  match auth_sessions db !! tok with
  | Some s => if expires_at s >? unixepoch then users db !! a_user_id s else None
  | None => None
  end.

Definition getTerminalSession (sid : string) (db : t) : option TerminalSession :=
  terminal_sessions db !! sid.

(** [ORDER BY last_activity_at DESC]. *)
Definition more_recent (a b : TerminalSession) : Prop :=
  last_activity_at b <= last_activity_at a.

#[global] Instance more_recent_dec a b : Decision (more_recent a b).
Proof. unfold more_recent. apply _. Defined.

Definition getUserTerminalSessions (userId : string) (db : t) : list TerminalSession :=
  merge_sort more_recent
    (filter (fun s => user_id s = userId) ((map_to_list (terminal_sessions db)).*2)).

(** The argument of [createTerminalSession]. *)
Record NewTerminalSession : Type := {
  n_id : string;
  n_user_id : string;
  n_container_id : option string;
  n_workspace_path : string;
  n_project_name : option string;
}.

(** [createTerminalSession]: the insert fails on a taken primary key; the
    columns left out take their defaults. *)
Definition createTerminalSession (s : NewTerminalSession) (unixepoch : Z) (db : t)
  : JS.completion (t * TerminalSession) :=
  match terminal_sessions db !! n_id s with
  | Some _ => JS.Throw
  | None =>
      let row :=
        {| id := n_id s; user_id := n_user_id s; container_id := n_container_id s;
           workspace_path := n_workspace_path s; project_name := n_project_name s;
           status := created; created_at := unixepoch;
           last_activity_at := unixepoch |} in
      JS.Normal (set_terminal_sessions db (<[n_id s := row]> (terminal_sessions db)), row)
  end.

(** The fields [updateTerminalSession] lets through. *)
Record updates : Type := {
  upd_container_id : option (option string);
  upd_status : option session_status;
  upd_last_activity_at : option Z;
  upd_project_name : option (option string);
}.

Definition no_updates : updates :=
  {| upd_container_id := None; upd_status := None; upd_last_activity_at := None;
     upd_project_name := None |}.

Definition apply_updates (u : updates) (s : TerminalSession) : TerminalSession :=
  {| id := id s; user_id := user_id s;
     container_id := default (container_id s) (upd_container_id u);
     workspace_path := workspace_path s;
     project_name := default (project_name s) (upd_project_name u);
     status := default (status s) (upd_status u);
     created_at := created_at s;
     last_activity_at := default (last_activity_at s) (upd_last_activity_at u) |}.

(** [updateTerminalSession]: [UPDATE ... WHERE id = ?]. *)
Definition updateTerminalSession (sid : string) (u : updates) (db : t) : t :=
  set_terminal_sessions db (alter (apply_updates u) sid (terminal_sessions db)).

Definition deleteTerminalSession (sid : string) (db : t) : t :=
  set_terminal_sessions db (delete sid (terminal_sessions db)).

End Db.

(** ** [routes/terminal.ts]: the PTY channel *)
Module Terminal.
Import JS.

(** Frames written to a PTY channel socket. *)
Inductive frame : Type :=
| Error (message : string)
| Connected (sessionId : string) (cols rows : Z)
| Output (data : string)
| Exit (exitCode : Z)
| Pong.

Abbreviation WebSocket := (WS.socket frame).

(** A pseudo terminal started by [pty.spawn]: its spawn options, the
    calls made on it, and its listeners.  A data listener is the socket of
    the [outputHandler] that was registered; an exit listener is the
    session id and socket of the [exitHandler]. *)
Record IPty : Type := {
  file : string;
  cols : Z;
  rows : Z;
  cwd : string;
  env : gmap string string;
  write_calls : list json;
  resize_calls : list (json * json);
  kill_calls : nat;
  onData : list nat;
  onExit : list (string * nat);
}.

(** [activePtys] maps a session id to the handle of a pseudo terminal; a
    handle is the position in [ptys], which lists every one spawned so
    far.  A socket handle is a position in [sockets]. *)
Record state : Type := {
  activePtys : gmap string nat;
  ptys : list IPty;
  sockets : list WebSocket;
  db : Db.t;
  process_env : gmap string string;
  claudeConfigPath : string;
  Date_now : Z;
}.

Definition set_activePtys (st : state) (m : gmap string nat) : state :=
  {| activePtys := m; ptys := ptys st; sockets := sockets st; db := db st;
     process_env := process_env st; claudeConfigPath := claudeConfigPath st;
     Date_now := Date_now st |}.

Definition set_ptys (st : state) (l : list IPty) : state :=
  {| activePtys := activePtys st; ptys := l; sockets := sockets st; db := db st;
     process_env := process_env st; claudeConfigPath := claudeConfigPath st;
     Date_now := Date_now st |}.

Definition set_sockets (st : state) (l : list WebSocket) : state :=
  {| activePtys := activePtys st; ptys := ptys st; sockets := l; db := db st;
     process_env := process_env st; claudeConfigPath := claudeConfigPath st;
     Date_now := Date_now st |}.

Definition set_db (st : state) (d : Db.t) : state :=
  {| activePtys := activePtys st; ptys := ptys st; sockets := sockets st; db := d;
     process_env := process_env st; claudeConfigPath := claudeConfigPath st;
     Date_now := Date_now st |}.

Definition unixepoch (st : state) : Z := Date_now st / 1000.

Definition on_socket (sock : nat) (f : WebSocket -> WebSocket) (st : state) : state :=
  set_sockets st (alter f sock (sockets st)).

Definition on_pty (h : nat) (f : IPty -> IPty) (st : state) : state :=
  set_ptys st (alter f h (ptys st)).

Definition socket_open (sock : nat) (st : state) : bool :=
  match sockets st !! sock with
  | Some s => WS.is_open s
  | None => false
  end.

Definition add_write (data : json) (p : IPty) : IPty :=
  {| file := file p; cols := cols p; rows := rows p; cwd := cwd p; env := env p;
     write_calls := write_calls p ++ [data]; resize_calls := resize_calls p;
     kill_calls := kill_calls p; onData := onData p; onExit := onExit p |}.

Definition add_resize (c r : json) (p : IPty) : IPty :=
  {| file := file p; cols := cols p; rows := rows p; cwd := cwd p; env := env p;
     write_calls := write_calls p; resize_calls := resize_calls p ++ [(c, r)];
     kill_calls := kill_calls p; onData := onData p; onExit := onExit p |}.

Definition add_kill (p : IPty) : IPty :=
  {| file := file p; cols := cols p; rows := rows p; cwd := cwd p; env := env p;
     write_calls := write_calls p; resize_calls := resize_calls p;
     kill_calls := S (kill_calls p); onData := onData p; onExit := onExit p |}.

Definition add_listeners (sid : string) (sock : nat) (p : IPty) : IPty :=
  {| file := file p; cols := cols p; rows := rows p; cwd := cwd p; env := env p;
     write_calls := write_calls p; resize_calls := resize_calls p;
     kill_calls := kill_calls p; onData := onData p ++ [sock];
     onExit := onExit p ++ [(sid, sock)] |}.

(** What the handlers of one connection close over. *)
Record connection : Type := {
  socket : nat;
  sessionId : string;
  ptyProcess : nat;
}.

(** [validateToken]. *)
Definition validateToken (tok : string) (st : state) : option Db.User :=
  Db.getAuthSessionByToken tok (unixepoch st) (db st).

(** The [env] option of [pty.spawn]. *)
Definition spawn_env (st : state) (session : Db.TerminalSession) (user : Db.User)
  : gmap string string :=
  <["USER" := default "" (head (JS.split "@" (Db.email user)))]>
    (<["CLAUDE_CODE_REMOTE" := "1"]>
       (<["CLAUDE_CONFIG_DIR" := Path.join [claudeConfigPath st; Db.u_id user]]>
          (<["HOME" := Db.workspace_path session]>
             (<["COLORTERM" := "truecolor"]>
                (<["TERM" := "xterm-256color"]> (process_env st)))))).

Definition shell (st : state) : string :=
  match process_env st !! "SHELL" with
  | Some sh => if String.eqb sh "" then "/bin/bash" else sh
  | None => "/bin/bash"
  end.

Definition status_update (s : Db.session_status) : Db.updates :=
  {| Db.upd_container_id := None; Db.upd_status := Some s;
     Db.upd_last_activity_at := None; Db.upd_project_name := None |}.

Definition activity_update (t : Z) : Db.updates :=
  {| Db.upd_container_id := None; Db.upd_status := None;
     Db.upd_last_activity_at := Some t; Db.upd_project_name := None |}.

(** [outputHandler] of the connection with socket [sock]. *)
Definition outputHandler (sock : nat) (data : string) (st : state) : state :=
  if socket_open sock st then on_socket sock (fun s => WS.send s (Output data)) st
  else st.

(** [exitHandler] of the connection of session [sid] with socket [sock]. *)
Definition exitHandler (sid : string) (sock : nat) (exitCode : Z) (st : state) : state :=
  let st := set_activePtys st (delete sid (activePtys st)) in
  let st := set_db st (Db.updateTerminalSession sid (status_update Db.stopped) (db st)) in
  if socket_open sock st then
    let st := on_socket sock (fun s => WS.send s (Exit exitCode)) st in
    on_socket sock (fun s => WS.close s 1000 "Process exited") st
  else st.

(** The WebSocket route handler for a new connection.  The accepted socket
    gets the next socket handle; [spawn_ok] tells whether [pty.spawn]
    succeeds should it be called.  Returns the connection whose handlers
    are now registered, if any. *)
Definition on_connection (sid : string) (tok : option string) (spawn_ok : bool)
           (st : state) : state * option connection :=
  let sock := length (sockets st) in
  let st := set_sockets st (sockets st ++ [WS.fresh]) in
  let reject (message : string) (code : Z) :=
    let st := on_socket sock (fun s => WS.send s (Error message)) st in
    (on_socket sock (fun s => WS.close s code message) st, None) in
  let user :=
    match tok with
    | Some tk => if String.eqb tk "" then None else validateToken tk st
    | None => None
    end in
  match user with
  | None => reject "Unauthorized" 4001
  | Some user =>
      match Db.getTerminalSession sid (db st) with
      | None => reject "Session not found" 4004
      | Some session =>
          if negb (String.eqb (Db.user_id session) (Db.u_id user))
          then reject "Session not found" 4004
          else
            let attach (h : nat) (st : state) :=
              let st := on_socket sock (fun s => WS.send s (Connected sid 80 24)) st in
              let st := on_pty h (add_listeners sid sock) st in
              (st, Some {| socket := sock; sessionId := sid; ptyProcess := h |}) in
            match activePtys st !! sid with
            | Some h => attach h st
            | None =>
                if spawn_ok then
                  let h := length (ptys st) in
                  let p :=
                    {| file := shell st; cols := 80; rows := 24;
                       cwd := Db.workspace_path session;
                       env := spawn_env st session user;
                       write_calls := []; resize_calls := []; kill_calls := 0;
                       onData := []; onExit := [] |} in
                  let st := set_ptys st (ptys st ++ [p]) in
                  let st := set_activePtys st (<[sid := h]> (activePtys st)) in
                  let st :=
                    set_db st (Db.updateTerminalSession sid (status_update Db.running)
                                                        (db st)) in
                  attach h st
                else
                  let st :=
                    on_socket sock (fun s => WS.send s (Error "Failed to setup terminal")) st in
                  (on_socket sock (fun s => WS.close s 4500 "Internal error") st, None)
            end
      end
  end.

Section Handlers.

  (** [JSON.parse]: [None] when it throws. *)
Variable JSON_parse : string -> option json.

  (** [socket.on("message", ...)]: a frame that does not parse, or parses
      to [null], is logged and dropped. *)
Definition on_message (c : connection) (rawData : string) (st : state) : state :=
    match JSON_parse rawData with
    | None => st
    | Some message =>
        match prop "type" (Some message) with
        | Throw => st
        | Normal messageType =>
            if is_str "input" messageType then
              if truthy (get "data" message) then
                match get "data" message with
                | Some data =>
                    let st := on_pty (ptyProcess c) (add_write data) st in
                    set_db st (Db.updateTerminalSession (sessionId c)
                                 (activity_update (Date_now st / 1000)) (db st))
                | None => st
                end
              else st
            else if is_str "resize" messageType then
              if truthy (get "cols" message) && truthy (get "rows" message) then
                match get "cols" message, get "rows" message with
                | Some c', Some r' => on_pty (ptyProcess c) (add_resize c' r') st
                | _, _ => st
                end
              else st
            else if is_str "ping" messageType then
              on_socket (socket c) (fun s => WS.send s Pong) st
            else st
        end
    end.

  (** [socket.on("close", ...)]: the handler only writes a log line; the
      socket is closed when it runs. *)
Definition on_socket_close (c : connection) (st : state) : state :=
    on_socket (socket c) WS.terminate st.

  (** The pseudo terminal [h] produces [data]: its data listeners run in
      the order they were registered. *)
Definition on_pty_data (h : nat) (data : string) (st : state) : state :=
    match ptys st !! h with
    | None => st
    | Some p => fold_left (fun st sock => outputHandler sock data st) (onData p) st
    end.

  (** The pseudo terminal [h] exits: its exit listeners run in the order
      they were registered. *)
Definition on_pty_exit (h : nat) (exitCode : Z) (st : state) : state :=
    match ptys st !! h with
    | None => st
    | Some p =>
        fold_left (fun st l => exitHandler (fst l) (snd l) exitCode st) (onExit p) st
    end.

  (** [POST /:sessionId/kill] for the authenticated user [userId]. *)
Inductive kill_response : Set := KillNotFound | KillSuccess.

Definition kill_route (sid userId : string) (st : state) : state * kill_response :=
    match Db.getTerminalSession sid (db st) with
    | None => (st, KillNotFound)
    | Some session =>
        if negb (String.eqb (Db.user_id session) userId) then (st, KillNotFound)
        else
          match activePtys st !! sid with
          | Some h =>
              let st := on_pty h add_kill st in
              let st := set_activePtys st (delete sid (activePtys st)) in
              (set_db st (Db.updateTerminalSession sid (status_update Db.stopped) (db st)),
               KillSuccess)
          | None => (st, KillSuccess)
          end
    end.

  (** [GET /:sessionId/status] for the authenticated user [userId]. *)
Inductive status_response : Set :=
  | StatusNotFound
  | Status (sessionId : string) (status : Db.session_status) (hasActivePty : bool).

Definition status_route (sid userId : string) (st : state) : state * status_response :=
    match Db.getTerminalSession sid (db st) with
    | None => (st, StatusNotFound)
    | Some session =>
        if negb (String.eqb (Db.user_id session) userId) then (st, StatusNotFound)
        else
          let isRunning := bool_decide (is_Some (activePtys st !! sid)) in
          (st, Status sid (if isRunning then Db.running else Db.status session) isRunning)
    end.

  (** The server restarts: the module level map starts empty, no process
      and no socket survives, the database does. *)
Definition restart (st : state) : state :=
    {| activePtys := ∅; ptys := []; sockets := []; db := db st;
       process_env := process_env st; claudeConfigPath := claudeConfigPath st;
       Date_now := Date_now st |}.

End Handlers.

(** The handles held by the module refer to something: a registered handle
    is a spawned pseudo terminal, and a data listener is an accepted
    socket. *)
Definition well_formed (st : state) : Prop :=
  (forall sid h, activePtys st !! sid = Some h -> is_Some (ptys st !! h))
  /\ (forall h p, ptys st !! h = Some p ->
                  Forall (fun sock => (sock < length (sockets st))%nat) (onData p)).

(** Everything that can happen to the PTY channel: a new connection, a
    frame or the end of an established connection, output or exit of a
    pseudo terminal, and the two REST routes. *)
Inductive event : Type :=
| Connect (sid : string) (tok : option string) (spawn_ok : bool)
| SocketMessage (c : connection) (rawData : string)
| SocketClose (c : connection)
| PtyData (h : nat) (data : string)
| PtyExit (h : nat) (exitCode : Z)
| KillRequest (sid userId : string)
| StatusRequest (sid userId : string).

Definition step (JSON_parse : string -> option json) (st : state) (e : event) : state :=
  match e with
  | Connect sid tok spawn_ok => fst (on_connection sid tok spawn_ok st)
  | SocketMessage c rawData => on_message JSON_parse c rawData st
  | SocketClose c => on_socket_close c st
  | PtyData h data => on_pty_data h data st
  | PtyExit h exitCode => on_pty_exit h exitCode st
  | KillRequest sid userId => fst (kill_route sid userId st)
  | StatusRequest sid userId => fst (status_route sid userId st)
  end.

Definition run (JSON_parse : string -> option json) (st : state) (es : list event)
  : state :=
  fold_left (step JSON_parse) es st.

(** The output chunks [chunks] of the pseudo terminal [h], one after the
    other. *)
Definition on_pty_output (h : nat) (chunks : list string) (st : state) : state :=
  fold_left (fun st data => on_pty_data h data st) chunks st.

(** The variables [pty.spawn] sets over the environment of the server. *)
Definition spawn_overrides : list string :=
  ["TERM"; "COLORTERM"; "HOME"; "CLAUDE_CONFIG_DIR"; "CLAUDE_CODE_REMOTE"; "USER"].

End Terminal.

(** ** [routes/sessions.ts]: creating a session *)
Module Sessions.

(** The fields of [config] the route reads. *)
Record config : Type := {
  maxSessionsPerUser : Z;
  workspaceBasePath : string;
  claudeConfigPath : string;
}.

(** [maxSessionsPerUser: z.coerce.number().default(5)]. *)
Definition default_maxSessionsPerUser : Z := 5.

Record state : Type := {
  db : Db.t;
  fs : Fs.t;
  unixepoch : Z;
}.

Inductive response : Type :=
| Reply (code : Z) (error : string)
| Session (session : Db.TerminalSession).

Definition settings_json : string :=
  JS.serialize "" (JS.JObj [("theme", JS.JStr "dark")]).

(** The file system calls of the [try] block of [POST /]: the file
    system as the calls left it, and whether one of them threw. *)
Definition create_files (cfg : config) (userId workspacePath : string) (fs : Fs.t)
  : Fs.t * JS.completion unit :=
  match Fs.mkdirSync workspacePath fs with
  | JS.Throw => (fs, JS.Throw)
  | JS.Normal fs =>
      let userClaudeConfig := Path.join [claudeConfigPath cfg; userId] in
      if Fs.existsSync userClaudeConfig fs then (fs, JS.Normal tt)
      else
        match Fs.mkdirSync userClaudeConfig fs with
        | JS.Throw => (fs, JS.Throw)
        | JS.Normal fs =>
            match Fs.writeFileSync (Path.join [userClaudeConfig; "settings.json"])
                                   settings_json fs with
            | JS.Throw => (fs, JS.Throw)
            | JS.Normal fs => (fs, JS.Normal tt)
            end
        end
  end.

(** [POST /] for the authenticated [user]; [sessionId] is the identifier
    [nanoid()] returns should it be called.  A directory made before a
    later step throws stays in place. *)
Definition create_route (cfg : config) (user : Db.User) (projectName : option string)
           (sessionId : string) (st : state) : state * response :=
  let existingSessions := Db.getUserTerminalSessions (Db.u_id user) (db st) in
  if Z.of_nat (length existingSessions) >=? maxSessionsPerUser cfg then
    (st, Reply 400 ("Maximum " +:+ pretty (maxSessionsPerUser cfg) +:+ " sessions allowed"))
  else
    let workspacePath := Path.join [workspaceBasePath cfg; Db.u_id user; sessionId] in
    let failed (fs : Fs.t) :=
      ({| db := db st; fs := fs; unixepoch := unixepoch st |},
       Reply 500 "Failed to create session") in
    match create_files cfg (Db.u_id user) workspacePath (fs st) with
    | (fs, JS.Throw) => failed fs
    | (fs, JS.Normal _) =>
        let row :=
          {| Db.n_id := sessionId; Db.n_user_id := Db.u_id user;
             Db.n_container_id := None; Db.n_workspace_path := workspacePath;
             Db.n_project_name :=
               match projectName with
               | Some n => if String.eqb n "" then None else Some n
               | None => None
               end |} in
        match Db.createTerminalSession row (unixepoch st) (db st) with
        | JS.Throw => failed fs
        | JS.Normal (db', session) =>
            ({| db := db'; fs := fs; unixepoch := unixepoch st |}, Session session)
        end
    end.

(** The answers of the routes on one session. *)
Inductive item_response : Type :=
| ItemReply (code : Z) (error : string)
| Item (session : option Db.TerminalSession)
| Success.

(** [GET /]. *)
Definition list_route (userId : string) (st : state) : list Db.TerminalSession :=
  Db.getUserTerminalSessions userId (db st).

(** [GET /:id]. *)
Definition get_route (sid userId : string) (st : state) : item_response :=
  match Db.getTerminalSession sid (db st) with
  | None => ItemReply 404 "Session not found"
  | Some session =>
      if negb (String.eqb (Db.user_id session) userId)
      then ItemReply 404 "Session not found"
      else Item (Some session)
  end.

(** [PATCH /:id]; [projectName] is the property of the body: absent, [null]
    or a string. *)
Definition patch_route (sid userId : string) (projectName : option (option string))
           (st : state) : state * item_response :=
  match Db.getTerminalSession sid (db st) with
  | None => (st, ItemReply 404 "Session not found")
  | Some session =>
      if negb (String.eqb (Db.user_id session) userId)
      then (st, ItemReply 404 "Session not found")
      else
        let st :=
          match projectName with
          | Some n =>
              {| db := Db.updateTerminalSession sid
                         {| Db.upd_container_id := None; Db.upd_status := None;
                            Db.upd_last_activity_at := None;
                            Db.upd_project_name := Some n |} (db st);
                 fs := fs st; unixepoch := unixepoch st |}
          | None => st
          end in
        (st, Item (Db.getTerminalSession sid (db st)))
  end.

(** [DELETE /:id]: the workspace directory goes first, then the row. *)
Definition delete_route (sid userId : string) (st : state) : state * item_response :=
  match Db.getTerminalSession sid (db st) with
  | None => (st, ItemReply 404 "Session not found")
  | Some session =>
      if negb (String.eqb (Db.user_id session) userId)
      then (st, ItemReply 404 "Session not found")
      else
        let fs' :=
          if Fs.existsSync (Db.workspace_path session) (fs st)
          then Fs.rmSync (Db.workspace_path session) (fs st)
          else fs st in
        ({| db := Db.deleteTerminalSession sid (db st); fs := fs';
            unixepoch := unixepoch st |}, Success)
  end.

End Sessions.

(** ** [routes/repositories.ts]: creating a workspace for a branch *)
Module Repositories.

Record Repository : Type := {
  r_id : string;
  r_user_id : string;
  local_path : string;
}.

Record Workspace : Type := {
  w_id : string;
  repository_id : string;
  branch : string;
  directory_path : string;
}.

(** What [git] and the file system hold: the worktrees registered with
    each clone as pairs of clone path and worktree path, and the command
    lines that fail. *)
Record world : Type := {
  fs : Fs.t;
  worktrees : gset (string * string);
  git_fails : gset (list string);
}.

Record state : Type := {
  repositories : gmap string Repository;
  workspaces : list Workspace;
  disk : world;
  workspaceBasePath : string;
}.

Definition getRepository (rid : string) (st : state) : option Repository :=
  repositories st !! rid.

(** Modelled from the spec: [getWorkspaceByBranch] and [createWorkspace]
    of [db/index.ts], whose revision with the workspaces table is not
    part of the sources.  The table is the list of its rows, a row is
    found by its (repository id, branch) pair, and an insert fails on a
    taken workspace id. *)
Definition getWorkspaceByBranch (rid br : string) (st : state) : option Workspace :=
  List.find (fun w => String.eqb (repository_id w) rid && String.eqb (branch w) br)
            (workspaces st).

Definition createWorkspace (w : Workspace) (st : state) : JS.completion state :=
  if existsb (fun w' => String.eqb (w_id w') (w_id w)) (workspaces st) then JS.Throw
  else JS.Normal {| repositories := repositories st;
                    workspaces := workspaces st ++ [w];
                    disk := disk st;
                    workspaceBasePath := workspaceBasePath st |}.

Definition set_disk (st : state) (w : world) : state :=
  {| repositories := repositories st; workspaces := workspaces st; disk := w;
     workspaceBasePath := workspaceBasePath st |}.

Definition set_fs (w : world) (f : Fs.t) : world :=
  {| fs := f; worktrees := worktrees w; git_fails := git_fails w |}.

(** What a [git] command line that succeeds does to the disk, for the
    command lines of this file. *)
Definition git_effect (args : list string) (cwd : string) (w : world) : world :=
  let add (worktreePath : string) :=
    {| fs := match Fs.mkdirSync worktreePath (fs w) with
             | JS.Normal f => f
             | JS.Throw => fs w
             end;
       worktrees := worktrees w ∪ {[(cwd, worktreePath)]};
       git_fails := git_fails w |} in
  match args with
  | ["worktree"; "add"; worktreePath; _] => add worktreePath
  | ["worktree"; "add"; "-b"; _; worktreePath] => add worktreePath
  | ["worktree"; "add"; worktreePath; "-b"; _; _] => add worktreePath
  | ["worktree"; "remove"; worktreePath; "--force"] =>
      {| fs := Fs.rmSync worktreePath (fs w);
         worktrees := worktrees w ∖ {[(cwd, worktreePath)]};
         git_fails := git_fails w |}
  | _ => w
  end.

(** [execGit]: rejects when the command exits with a code other than 0. *)
Definition execGit (args : list string) (cwd : string) (w : world) : JS.completion world :=
  match args with
  | ["worktree"; "remove"; worktreePath; "--force"] =>
      if bool_decide (args ∈ git_fails w) || bool_decide ((cwd, worktreePath) ∉ worktrees w)
      then JS.Throw else JS.Normal (git_effect args cwd w)
  | _ =>
      if bool_decide (args ∈ git_fails w) then JS.Throw
      else JS.Normal (git_effect args cwd w)
  end.

(** [createWorktree]: the local branch, then the remote one, then a new
    branch. *)
Definition createWorktree (repoPath worktreePath br : string) (w : world)
  : JS.completion world :=
  let fallback (w : world) :=
    match execGit ["worktree"; "add"; worktreePath; "-b"; br; "origin/" +:+ br]
                  repoPath w with
    | JS.Normal w => JS.Normal w
    | JS.Throw => execGit ["worktree"; "add"; "-b"; br; worktreePath] repoPath w
    end in
  match execGit ["rev-parse"; "--verify"; br] repoPath w with
  | JS.Throw => fallback w
  | JS.Normal w1 =>
      match execGit ["worktree"; "add"; worktreePath; br] repoPath w1 with
      | JS.Normal w2 => JS.Normal w2
      | JS.Throw => fallback w1
      end
  end.

(** [removeWorktree]: a failure is swallowed. *)
Definition removeWorktree (repoPath worktreePath : string) (w : world) : world :=
  match execGit ["worktree"; "remove"; worktreePath; "--force"] repoPath w with
  | JS.Normal w => w
  | JS.Throw => w
  end.

Inductive response : Type :=
| Reply (code : Z) (error : string) (workspace : option Workspace)
| Created (workspace : Workspace).

(** The [catch] block of [POST /:id/workspaces]. *)
Definition clean_up (repoPath worktreePath : string) (w : world) : world :=
  let w := removeWorktree repoPath worktreePath w in
  if Fs.existsSync worktreePath (fs w) then set_fs w (Fs.rmSync worktreePath (fs w))
  else w.

(** [POST /:id/workspaces] for the authenticated user [userId];
    [workspaceId] is the identifier [nanoid()] returns should it be
    called, [br] the [branch] of the request body if it has one. *)
Definition create_workspace_route (rid : string) (br : option string)
           (userId workspaceId : string) (st : state) : state * response :=
  match br with
  | None => (st, Reply 400 "branch is required" None)
  | Some br =>
      if String.eqb br "" then (st, Reply 400 "branch is required" None)
      else
        match getRepository rid st with
        | None => (st, Reply 404 "Repository not found" None)
        | Some repo =>
            if negb (String.eqb (r_user_id repo) userId)
            then (st, Reply 404 "Repository not found" None)
            else
              match getWorkspaceByBranch rid br st with
              | Some existing =>
                  (st, Reply 409 "Workspace already exists for this branch" (Some existing))
              | None =>
                  let worktreePath :=
                    Path.join [workspaceBasePath st; userId; "workspaces"; workspaceId] in
                  let failed (w : world) :=
                    (set_disk st (clean_up (local_path repo) worktreePath w),
                     Reply 500 "Failed to create workspace" None) in
                  match Fs.mkdirSync (Path.dirname worktreePath) (fs (disk st)) with
                  | JS.Throw => failed (disk st)
                  | JS.Normal f =>
                      let w := set_fs (disk st) f in
                      match createWorktree (local_path repo) worktreePath br w with
                      | JS.Throw => failed w
                      | JS.Normal w =>
                          let workspace :=
                            {| w_id := workspaceId; repository_id := rid; branch := br;
                               directory_path := worktreePath |} in
                          match createWorkspace workspace (set_disk st w) with
                          | JS.Throw => failed w
                          | JS.Normal st => (st, Created workspace)
                          end
                      end
                  end
              end
        end
  end.

(** At most one workspace for each (repository id, branch) pair. *)
Definition one_workspace_per_branch (st : state) : Prop :=
  NoDup (List.map (fun w => (repository_id w, branch w)) (workspaces st)).

(** The disk after a [git worktree add] that succeeded. *)
Definition with_worktree (cwd worktreePath : string) (w : world) : world :=
  {| fs := match Fs.mkdirSync worktreePath (fs w) with
           | JS.Normal f => f
           | JS.Throw => fs w
           end;
     worktrees := worktrees w ∪ {[(cwd, worktreePath)]};
     git_fails := git_fails w |}.

(** The four command lines of [createWorktree], and the one of
    [removeWorktree]. *)
Definition verify_branch (br : string) : list string := ["rev-parse"; "--verify"; br].
Definition add_local (worktreePath br : string) : list string :=
  ["worktree"; "add"; worktreePath; br].
Definition add_remote (worktreePath br : string) : list string :=
  ["worktree"; "add"; worktreePath; "-b"; br; "origin/" +:+ br].
Definition add_new (worktreePath br : string) : list string :=
  ["worktree"; "add"; "-b"; br; worktreePath].
Definition remove_forced (worktreePath : string) : list string :=
  ["worktree"; "remove"; worktreePath; "--force"].

(** The path of the worktree the route makes for a new workspace. *)
Definition worktree_path (userId workspaceId : string) (st : state) : string :=
  Path.join [workspaceBasePath st; userId; "workspaces"; workspaceId].

(** *** [listBranches] *)

Record Branch : Type := {
  name : string;
  isRemote : bool;
  current : bool;
}.

(** The body of the loop over the lines of the output: the branch to push,
    if any.  [name.replace("origin/", "")] on a name that starts with
    ["origin/"] drops that prefix. *)
Definition branch_of_line (line : string) : option Branch :=
  if String.eqb line "" then None
  else
    let parts := JS.split "|" line in
    let name := default "" (head parts) in
    let current :=
      match parts with
      | _ :: head :: _ => String.eqb head "*"
      | _ => false
      end in
    if JS.includes "HEAD" name then None
    else
      match JS.strip_prefix "origin/" name with
      | Some short => Some {| name := short; isRemote := true; current := false |}
      | None => Some {| name := name; isRemote := false; current := current |}
      end.

(** The second loop: the first branch of each name is kept; [seen] is the
    [Set] of the names met so far. *)
Fixpoint dedupe (seen : gset string) (branches : list Branch) : list Branch :=
  match branches with
  | [] => []
  | b :: rest =>
      if bool_decide (name b ∈ seen) then dedupe seen rest
      else b :: dedupe ({[name b]} ∪ seen) rest
  end.

(** [s.trim()], for strings whose white space is ASCII. *)
Fixpoint trim_start (s : string) : string :=
  match s with
  | String c s' => if JS.is_space c then trim_start s' else s
  | EmptyString => EmptyString
  end.

Definition trim (s : string) : string :=
  String.rev (trim_start (String.rev (trim_start s))).

(** [listBranches], from the output of [git branch -a]. *)
Definition listBranches (stdout : string) : list Branch :=
  dedupe ∅ (omap branch_of_line (JS.split Chat.newline (trim stdout))).

(** *** [extractRepoName] *)

(** [s] without a trailing [".git"], if it ends with it. *)
Fixpoint strip_git (s : string) : option string :=
  match s with
  | EmptyString => None
  | String a s' =>
      if String.eqb s ".git" then Some EmptyString
      else String a <$> strip_git s'
  end.

(** [gitUrl.match(/\/([^/]+?)(\.git)?$/)?.[1] || "unknown"].  The pattern
    can only match at the last separator, and only if something follows it;
    the lazy group then takes what follows up to a final [".git"], or all
    of it when nothing would be left. *)
Definition extractRepoName (gitUrl : string) : string :=
  match Path.split gitUrl with
  | [] | [_] => "unknown"
  | segs =>
      let tail := List.last segs "" in
      if String.eqb tail "" then "unknown"
      else
        match strip_git tail with
        | Some stem => if String.eqb stem "" then tail else stem
        | None => tail
        end
  end.

End Repositories.

(** ** [routes/chat.ts]: the login route *)
Module Login.
Import JS.

(** What the promise of the route resolves with. *)
Inductive reply : Type :=
| LoginUrl (loginUrl message : string)
| Success (message : string)
| Failure (error output : string).

(** A PTY started by the route, with the variables its handlers and its
    timer close over: the output so far, the [resolved] flag, and what the
    promise of the request is settled with, if it is. *)
Record LoginPty : Type := {
  lp_userId : string;
  lp_cwd : string;
  lp_env : gmap string string;
  output : string;
  resolved : bool;
  settled : option reply;
  lp_kills : nat;
}.

(** [pendingLogins] maps a user id to the handle of a PTY; a handle is the
    position of the PTY in [logins], which lists every PTY started so
    far. *)
Record state : Type := {
  chat : Chat.state;
  pendingLogins : gmap string nat;
  logins : list LoginPty;
}.

Definition set_chat (st : state) (c : Chat.state) : state :=
  {| chat := c; pendingLogins := pendingLogins st; logins := logins st |}.

Definition set_pendingLogins (st : state) (m : gmap string nat) : state :=
  {| chat := chat st; pendingLogins := m; logins := logins st |}.

Definition set_logins (st : state) (l : list LoginPty) : state :=
  {| chat := chat st; pendingLogins := pendingLogins st; logins := l |}.

Definition update_login (h : nat) (f : LoginPty -> LoginPty) (st : state) : state :=
  set_logins st (alter f h (logins st)).

(** [loginPty.kill()]. *)
Definition kill (lp : LoginPty) : LoginPty :=
  {| lp_userId := lp_userId lp; lp_cwd := lp_cwd lp; lp_env := lp_env lp;
     output := output lp; resolved := resolved lp; settled := settled lp;
     lp_kills := S (lp_kills lp) |}.

Definition set_output (lp : LoginPty) (o : string) : LoginPty :=
  {| lp_userId := lp_userId lp; lp_cwd := lp_cwd lp; lp_env := lp_env lp;
     output := o; resolved := resolved lp; settled := settled lp;
     lp_kills := lp_kills lp |}.

Definition set_resolved (lp : LoginPty) : LoginPty :=
  {| lp_userId := lp_userId lp; lp_cwd := lp_cwd lp; lp_env := lp_env lp;
     output := output lp; resolved := true; settled := settled lp;
     lp_kills := lp_kills lp |}.

(** [resolve(r)]: a promise keeps the first value it is resolved with. *)
Definition resolve (r : reply) (lp : LoginPty) : LoginPty :=
  match settled lp with
  | Some _ => lp
  | None =>
      {| lp_userId := lp_userId lp; lp_cwd := lp_cwd lp; lp_env := lp_env lp;
         output := output lp; resolved := resolved lp; settled := Some r;
         lp_kills := lp_kills lp |}
  end.

(** The environment of the PTY: the variables of the server that have a
    value, without the API key, and the user's directory as home. *)
Definition loginEnv (env : gmap string string) (configDir : string)
  : gmap string string :=
  <["CLAUDE_CONFIG_DIR" := configDir]>
    (<["HOME" := configDir]>
       (filter (fun kv => fst kv <> "ANTHROPIC_API_KEY" /\ snd kv <> "") env)).

Definition oauth_prefix : string := "https://claude.ai/oauth/authorize".

(** The characters that end the URL: white space, [ESC] and [BEL]; for
    output whose white space is ASCII. *)
Definition url_stop (c : Ascii.ascii) : bool :=
  let n := Ascii.N_of_ascii c in
  (is_space c || (n =? 27) || (n =? 7))%N.

Fixpoint url_tail (s : string) : string :=
  match s with
  | String c s' => if url_stop c then EmptyString else String c (url_tail s')
  | EmptyString => EmptyString
  end.

(** [output.match(/https:\/\/claude\.ai\/oauth\/authorize[^\s\x1b\x07]*/)]:
    the first place with the prefix, and all that follows up to a
    character that ends the URL. *)
Fixpoint urlMatch (s : string) : option string :=
  match strip_prefix oauth_prefix s with
  | Some rest => Some (oauth_prefix +:+ url_tail rest)
  | None =>
      match s with
      | String _ s' => urlMatch s'
      | EmptyString => None
      end
  end.

(** [s.slice(-n)]. *)
Definition slice_last (n : nat) (s : string) : string :=
  String.substring (String.length s - n) n s.

(** [POST /login] for the authenticated user [userId], up to the promise
    it returns: the handle of the PTY it started, unless
    [ensureUserConfigDir] threw. *)
Definition login_route (userId : string) (st : state) : state * completion nat :=
  match Chat.ensureUserConfigDir userId (chat st) with
  | (c, Throw) => (set_chat st c, Throw)
  | (c, Normal configDir) =>
      let st := set_chat st c in
      let st :=
        match pendingLogins st !! userId with
        | Some existingLogin =>
            let st := update_login existingLogin kill st in
            set_pendingLogins st (delete userId (pendingLogins st))
        | None => st
        end in
      let loginPty :=
        {| lp_userId := userId; lp_cwd := configDir;
           lp_env := loginEnv (Chat.process_env (chat st)) configDir;
           output := EmptyString; resolved := false; settled := None;
           lp_kills := 0 |} in
      let h := length (logins st) in
      let st := set_logins st (logins st ++ [loginPty]) in
      (set_pendingLogins st (<[userId := h]> (pendingLogins st)), Normal h)
  end.

(** [loginPty.onData]. *)
Definition on_data (h : nat) (data : string) (st : state) : state :=
  update_login h
    (fun lp =>
       let lp := set_output lp (output lp +:+ data) in
       match urlMatch (output lp) with
       | Some url =>
           if resolved lp then lp
           else resolve (LoginUrl url "Open this URL to authenticate with Claude")
                        (set_resolved lp)
       | None => lp
       end) st.

(** [loginPty.onExit]. *)
Definition on_exit (h : nat) (exitCode : Z) (st : state) : state :=
  match logins st !! h with
  | None => st
  | Some lp =>
      let st := set_pendingLogins st (delete (lp_userId lp) (pendingLogins st)) in
      update_login h
        (fun lp =>
           if resolved lp then lp
           else if (exitCode =? 0)%Z then resolve (Success "Login successful") lp
           else match urlMatch (output lp) with
                | Some url => resolve (LoginUrl url "Open this URL to authenticate") lp
                | None =>
                    resolve (Failure "Login failed or timed out"
                                     (slice_last 500 (output lp))) lp
                end) st
  end.

(** The callback of [setTimeout]. *)
Definition on_timeout (h : nat) (st : state) : state :=
  update_login h
    (fun lp =>
       if resolved lp then lp
       else
         let lp := set_resolved lp in
         match urlMatch (output lp) with
         | Some url => resolve (LoginUrl url "Open this URL to authenticate") lp
         | None =>
             resolve (Failure "Login timed out" (slice_last 500 (output lp))) (kill lp)
         end) st.

Inductive event : Type :=
| Request (userId : string)
| PtyData (h : nat) (data : string)
| PtyExit (h : nat) (exitCode : Z)
| Timeout (h : nat).

Definition step (st : state) (e : event) : state :=
  match e with
  | Request userId => fst (login_route userId st)
  | PtyData h data => on_data h data st
  | PtyExit h exitCode => on_exit h exitCode st
  | Timeout h => on_timeout h st
  end.

Definition run (st : state) (es : list event) : state := fold_left step es st.

(** [lp'] is a later state of the PTY [lp]: started for the same user with
    the same options, the promise still settled with what it was settled
    with, the flag still set if it was. *)
Definition later (lp lp' : LoginPty) : Prop :=
  lp_userId lp' = lp_userId lp
  /\ lp_cwd lp' = lp_cwd lp
  /\ lp_env lp' = lp_env lp
  /\ (forall r, settled lp = Some r -> settled lp' = Some r)
  /\ (resolved lp = true -> resolved lp' = true)
  /\ (lp_kills lp <= lp_kills lp')%nat.

End Login.

(** ** [routes/chat.ts]: a new connection of the assistant channel *)
Module ChatRoute.
Import JS.

Record state : Type := {
  chat : Chat.state;
  db : Db.t;
  unixepoch : Z;
}.

Definition set_chat (st : state) (c : Chat.state) : state :=
  {| chat := c; db := db st; unixepoch := unixepoch st |}.

Definition set_db (st : state) (d : Db.t) : state :=
  {| chat := chat st; db := d; unixepoch := unixepoch st |}.

Definition error_message (content : string) : Chat.ChatMessage :=
  Chat.text_message Chat.T_error (Some (JStr content)) None.

(** The route handler, up to the registration of the handlers.  The
    accepted socket gets the handle [sock]; the connection returned is what
    the handlers close over, if they are registered. *)
Definition on_connection (sock : nat) (sid : string) (tok : option string) (st : state)
  : state * option Chat.connection :=
  let st := set_chat st (Chat.set_sockets (chat st)
                           (<[sock := WS.fresh]> (Chat.sockets (chat st)))) in
  let reject (message : string) (code : Z) :=
    let c := Chat.send_to sock (error_message message) (chat st) in
    let c := Chat.put_socket sock (WS.close (Chat.socket_at sock c) code message) c in
    (set_chat st c, None) in
  let user :=
    match tok with
    | Some tk =>
        if String.eqb tk "" then None
        else Db.getAuthSessionByToken tk (unixepoch st) (db st)
    | None => None
    end in
  match user with
  | None => reject "Unauthorized" 4001
  | Some user =>
      match Db.getTerminalSession sid (db st) with
      | None => reject "Session not found" 4004
      | Some session =>
          if negb (String.eqb (Db.user_id session) (Db.u_id user))
          then reject "Session not found" 4004
          else
            let now := Chat.Date_now (chat st) in
            let c :=
              Chat.send_to sock (Chat.status_message Chat.S_connected (Some now))
                           (chat st) in
            let c :=
              Chat.send_to sock
                (Chat.text_message Chat.T_system
                   (Some (JStr "Connected to Claudelet. Send a message to start chatting with Claude."))
                   (Some now)) c in
            let st := set_chat st c in
            let st :=
              set_db st (Db.updateTerminalSession sid (Terminal.status_update Db.running)
                                                  (db st)) in
            (st, Some {| Chat.socket := sock; Chat.sessionId := sid;
                         Chat.workspace_path := Db.workspace_path session;
                         Chat.user_id := Db.u_id user |})
      end
  end.

End ChatRoute.

(** ** Example data *)
Module Examples.

Definition message : JS.json :=
JS.JObj
  [("type", JS.JStr "message");
   ("message",
    JS.JObj
      [("content",
        JS.JArr
          [JS.JObj [("type", JS.JStr "text"); ("text", JS.JStr "Reading the file")];
           JS.JObj [("type", JS.JStr "thinking")];
           JS.JObj [("type", JS.JStr "tool_use"); ("id", JS.JStr "toolu_1");
                    ("name", JS.JStr "Read");
                    ("input", JS.JObj [("path", JS.JStr "a.txt")])]])])].


Definition tool_use : JS.json :=
JS.JObj [("type", JS.JStr "tool_use"); ("name", JS.JStr "Bash");
         ("id", JS.JStr "toolu_2"); ("input", JS.JObj [("command", JS.JStr "ls")])].


Definition result : JS.json :=
JS.JObj [("type", JS.JStr "result"); ("result", JS.JStr "Hello")].




(** A chat session with one open socket and nothing running. *)
Definition chat_init : Chat.state :=
  {| Chat.activeProcesses := ∅; Chat.children := [];
     Chat.sockets := {[ 0%nat := WS.fresh ]};
     Chat.fs := Fs.Make ∅ ∅ ∅;
     Chat.process_env :=
       {[ "HOME" := "/home/claudelet"; "PATH" := "/usr/bin";
          "ANTHROPIC_API_KEY" := "sk-ant-global" ]};
     Chat.Date_now := 1000 |}.

Definition chat_conn : Chat.connection :=
  {| Chat.socket := 0%nat; Chat.sessionId := "s1"; Chat.workspace_path := "/data/w/s1";
     Chat.user_id := "u1" |}.

Definition user_frame (content : string) : JS.json :=
  JS.JObj [("type", JS.JStr "user"); ("content", JS.JStr content)].

(** A parser that knows two frames. *)
Definition parse_two (raw : string) : option JS.json :=
  if String.eqb raw "first" then Some (user_frame "fix the bug")
  else if String.eqb raw "second" then Some (user_frame "and add a test")
  else None.

(** A server with one user, one valid token and one session of that user,
    nothing running. *)
Definition term_db : Db.t :=
  {| Db.users := {[ "u1" := {| Db.u_id := "u1"; Db.email := "ada@example.org";
                                Db.name := None |} ]};
     Db.auth_sessions := {[ "tok" := {| Db.a_user_id := "u1"; Db.token := "tok";
                                         Db.expires_at := 5000 |} ]};
     Db.terminal_sessions :=
       {[ "s1" := {| Db.id := "s1"; Db.user_id := "u1"; Db.container_id := None;
                     Db.workspace_path := "/data/w/u1/s1"; Db.project_name := None;
                     Db.status := Db.created; Db.created_at := 1;
                     Db.last_activity_at := 1 |} ]} |}.

Definition term_init : Terminal.state :=
  {| Terminal.activePtys := ∅; Terminal.ptys := []; Terminal.sockets := [];
     Terminal.db := term_db;
     Terminal.process_env := {[ "SHELL" := "/bin/zsh" ]};
     Terminal.claudeConfigPath := "/data/claude-config";
     Terminal.Date_now := 2000000 |}.

(** The same server once a first client has connected to the session. *)
Definition term_running : Terminal.state :=
  fst (Terminal.on_connection "s1" (Some "tok") true term_init).

(** A parser that knows three PTY frames. *)
Definition parse_input (raw : string) : option JS.json :=
  if String.eqb raw "empty" then
    Some (JS.JObj [("type", JS.JStr "input"); ("data", JS.JStr "")])
  else if String.eqb raw "absent" then Some (JS.JObj [("type", JS.JStr "input")])
  else if String.eqb raw "ls" then
    Some (JS.JObj [("type", JS.JStr "input"); ("data", JS.JStr "ls")])
  else None.

(** The session route on the same database, with the default quota. *)
Definition sessions_cfg : Sessions.config :=
  {| Sessions.maxSessionsPerUser := Sessions.default_maxSessionsPerUser;
     Sessions.workspaceBasePath := "/data/workspaces";
     Sessions.claudeConfigPath := "/data/claude-config" |}.

Definition sessions_init : Sessions.state :=
  {| Sessions.db := term_db; Sessions.fs := Fs.Make ∅ ∅ ∅; Sessions.unixepoch := 2000 |}.

Definition ada : Db.User :=
  {| Db.u_id := "u1"; Db.email := "ada@example.org"; Db.name := None |}.

(** A clone of one repository of [u1] with a workspace on [main]. *)
Definition repo_init : Repositories.state :=
  {| Repositories.repositories :=
       {[ "r1" := {| Repositories.r_id := "r1"; Repositories.r_user_id := "u1";
                     Repositories.local_path := "/data/workspaces/u1/repos/r1" |} ]};
     Repositories.workspaces :=
       [{| Repositories.w_id := "w1"; Repositories.repository_id := "r1";
           Repositories.branch := "main";
           Repositories.directory_path := "/data/workspaces/u1/workspaces/w1" |}];
     Repositories.disk :=
       {| Repositories.fs :=
            Fs.Make {[ "/data/workspaces/u1/repos/r1";
                       "/data/workspaces/u1/workspaces/w1" ]} ∅ ∅;
          Repositories.worktrees :=
            {[ ("/data/workspaces/u1/repos/r1", "/data/workspaces/u1/workspaces/w1") ]};
          Repositories.git_fails := ∅ |};
     Repositories.workspaceBasePath := "/data/workspaces" |}.

(** The chat session once a first message has started the assistant. *)
Definition chat_running : Chat.state :=
  fst (Chat.handleUserMessage chat_conn (JS.JStr "fix the bug") chat_init).




(** No login under way, and the state after a first login request of
    [u1]. *)
Definition login_init : Login.state :=
  {| Login.chat := chat_init; Login.pendingLogins := ∅; Login.logins := [] |}.

Definition login_pending : Login.state := fst (Login.login_route "u1" login_init).

(** The PTY server once a second client has attached to the session. *)
Definition term_reattached : Terminal.state :=
  fst (Terminal.on_connection "s1" (Some "tok") true term_running).

(** A parser that also knows the [abort] frame. *)
Definition parse_three (raw : string) : option JS.json :=
  if String.eqb raw "abort" then Some (JS.JObj [("type", JS.JStr "abort")])
  else parse_two raw.



(** Five sessions of [u1], all of them stopped. *)
Definition stopped_row (sid : string) : Db.TerminalSession :=
  {| Db.id := sid; Db.user_id := "u1"; Db.container_id := None;
     Db.workspace_path := "/data/w/u1/" +:+ sid; Db.project_name := None;
     Db.status := Db.stopped; Db.created_at := 1; Db.last_activity_at := 1 |}.

Definition sessions_stopped : Sessions.state :=
  {| Sessions.db :=
       {| Db.users := Db.users term_db; Db.auth_sessions := Db.auth_sessions term_db;
          Db.terminal_sessions :=
            {[ "a1" := stopped_row "a1"; "a2" := stopped_row "a2";
               "a3" := stopped_row "a3"; "a4" := stopped_row "a4";
               "a5" := stopped_row "a5" ]} |};
     Sessions.fs := Fs.Make ∅ ∅ ∅; Sessions.unixepoch := 2000 |}.

End Examples.

(* ===================================================================== *)
(** * Part II: properties                                                 *)
(* ===================================================================== *)

(** ** Event normalization *)
Section Normalizer.
Import JS Chat.

Variable now : Z.


Lemma sendMessage_not_open (socket : WebSocket) (m : ChatMessage) :
    WS.readyState_of socket <> WS.OPEN -> sendMessage socket m = socket.
Proof.
    intros Hclosed. unfold sendMessage. by rewrite bool_decide_eq_false_2.
Qed.

Lemma is_str_eq (s : string) (v : value) : is_str s v = true <-> v = Some (JStr s).
Proof.
    unfold is_str. destruct v as [[]|]; try (split; [done | congruence]).
    rewrite String.eqb_eq. split; [by intros -> | congruence].
Qed.



  (** A [null] element ends the loop: the blocks after it are not sent and
      the caller's [catch] takes over. *)
Lemma send_blocks_null (socket : WebSocket) (rest : list json) :
    send_blocks now socket (JNull :: rest) = (socket, Throw).
Proof. reflexivity. Qed.







End Normalizer.


(** ** Paths *)
Section Paths.
Import JS.

Lemma split_nonempty (c : Ascii.ascii) (s : string) : split c s <> [].
Proof.
  destruct s as [|a s]; [done|]. simpl.
  destruct (Ascii.eqb a c); [done|]. by destruct (split c s).
Qed.

Lemma split_app_sep (c : Ascii.ascii) (a b : string) :
  split c (a +:+ String c b) = split c a ++ split c b.
Proof.
  induction a as [|x a IH]; simpl.
  - by rewrite Ascii.eqb_refl.
  - destruct (Ascii.eqb x c); [by rewrite IH|].
    rewrite IH. pose proof (split_nonempty c a) as Hne.
    by destruct (split c a).
Qed.

(** A string that splits into one piece has no separator in it. *)
Lemma split_singleton (c : Ascii.ascii) (s t : string) :
  split c s = [t] -> t = s /\ (s <> "" -> Path.ends_with_slash s = false \/ c <> "/"%char).
Proof.
  revert t. induction s as [|a s IH]; intros t; simpl.
  - intros [= <-]. done.
  - destruct (Ascii.eqb a c) eqn:Hac.
    { intros [= _ Hs]. by apply split_nonempty in Hs. }
    destruct (split c s) as [|seg segs] eqn:Hsplit; [by apply split_nonempty in Hsplit|].
    intros [= <- ->]. destruct (IH seg eq_refl) as [-> Hend]. split; [done|].
    intros _. destruct (Ascii.eqb_spec c "/") as [->|Hc]; [left | by right].
    destruct s as [|b s]; [done|].
    destruct Hend as [Hend|Hend]; done.
Qed.

Lemma append_assoc (a b c : string) : (a +:+ b) +:+ c = a +:+ b +:+ c.
Proof.
  induction a as [|x a IH]; [done|].
  change (String x ((a +:+ b) +:+ c) = String x (a +:+ b +:+ c)). by f_equal.
Qed.

Lemma append_inj_l (a b c : string) : a +:+ b = a +:+ c -> b = c.
Proof. apply (inj (String.append a)). Qed.

Lemma append_nonempty_r (a b : string) : b <> "" -> a +:+ b <> "".
Proof. destruct a as [|x a]; [done|]. intros _. change (String x (a +:+ b) <> ""). done. Qed.

Lemma ends_with_slash_app (a b : string) :
  b <> "" -> Path.ends_with_slash (a +:+ b) = Path.ends_with_slash b.
Proof.
  intros Hb. induction a as [|x a IH]; [done|].
  change (String x a +:+ b) with (String x (a +:+ b)).
  cbn [Path.ends_with_slash]. rewrite IH.
  pose proof (append_nonempty_r a b Hb). by destruct (a +:+ b).
Qed.

Lemma starts_with_slash_app (a b : string) :
  a <> "" -> Path.starts_with_slash (a +:+ b) = Path.starts_with_slash a.
Proof. by destruct a. Qed.

Lemma concat_snoc (sep : string) (l : list string) (a : string) :
  l <> [] -> String.concat sep (l ++ [a]) = String.concat sep l +:+ sep +:+ a.
Proof.
  induction l as [|x l IH]; [done|]. intros _.
  destruct l as [|y l]; [done|].
  change (String.concat sep ((x :: y :: l) ++ [a]))
    with (x +:+ sep +:+ String.concat sep ((y :: l) ++ [a])).
  rewrite IH by done.
  change (String.concat sep (x :: y :: l)) with (x +:+ sep +:+ String.concat sep (y :: l)).
  by rewrite !append_assoc.
Qed.

Lemma plain_segment_spec (s : string) :
  Path.plain_segment s = true ->
  s <> "" /\ Path.split s = [s] /\ Path.ends_with_slash s = false
  /\ forall allow res, Path.push_segment allow res s = s :: res.
Proof.
  unfold Path.plain_segment. rewrite !andb_true_iff, !negb_true_iff.
  intros [[[He Hd] Hdd] Hs].
  assert (s <> "") as Hne by (intros ->; done).
  unfold Path.split in *.
  destruct (split "/" s) as [|t [|]] eqn:Hsplit; try done.
  destruct (split_singleton _ _ _ Hsplit) as [-> Hend].
  repeat split; [done| |].
  - destruct (Hend Hne); done.
  - intros allow res. unfold Path.push_segment. by rewrite He, Hd, Hdd.
Qed.

(** Joining a non-empty base, a plain directory name and a plain last
    segment gives a path that ends in a separator and that last segment,
    after a prefix that only depends on the first two. *)
Lemma join_plain_last (base dir : string) :
  base <> "" -> Path.plain_segment dir = true ->
  exists pre, forall seg,
      Path.plain_segment seg = true ->
      Path.join [base; dir; seg] = pre +:+ "/" +:+ seg.
Proof.
  intros Hbase Hdir.
  destruct (plain_segment_spec dir Hdir) as (Hdne & Hdsplit & _ & Hdpush).
  set (stack := fold_left (Path.push_segment (negb (Path.starts_with_slash base)))
                          (Path.split base) []).
  exists ((if Path.starts_with_slash base then "/" else "")
            +:+ String.concat "/" (rev stack ++ [dir])).
  intros seg Hseg.
  destruct (plain_segment_spec seg Hseg) as (Hsne & Hssplit & Hsend & Hspush).
  unfold Path.join. cbn [List.filter].
  assert (forall x, x <> "" -> negb (String.eqb x "") = true) as Hnb.
  { intros x Hx. apply negb_true_iff. by apply String.eqb_neq. }
  rewrite !Hnb by done.
  change (String.concat "/" [base; dir; seg])
    with (base +:+ "/" +:+ dir +:+ "/" +:+ seg).
  set (joined := base +:+ "/" +:+ dir +:+ "/" +:+ seg).
  assert (joined <> "") as Hjne.
  { unfold joined. by repeat apply append_nonempty_r. }
  assert (Path.starts_with_slash joined = Path.starts_with_slash base) as Hstart
      by (by apply starts_with_slash_app).
  assert (Path.ends_with_slash joined = false) as Hend.
  { unfold joined.
    rewrite <- !append_assoc. by rewrite ends_with_slash_app. }
  assert (Path.split joined = Path.split base ++ [dir; seg]) as Hsplit.
  { unfold joined, Path.split in *.
    change (base +:+ "/" +:+ dir +:+ "/" +:+ seg)
      with (base +:+ String "/" (dir +:+ String "/" seg)).
    by rewrite !split_app_sep, Hdsplit, Hssplit. }
  unfold Path.normalize.
  rewrite (proj2 (String.eqb_neq _ _) Hjne), Hstart, Hend.
  unfold Path.normalizeString. rewrite Hsplit, fold_left_app.
  cbn [fold_left]. fold stack. rewrite Hdpush, Hspush.
  cbn [rev]. rewrite <- app_assoc. cbn [app].
  replace (rev stack ++ [dir; seg]) with ((rev stack ++ [dir]) ++ [seg])
    by (by rewrite <- app_assoc).
  rewrite concat_snoc by (by destruct (rev stack)).
  set (kept := String.concat "/" (rev stack ++ [dir])).
  assert (String.eqb (kept +:+ "/" +:+ seg) "" = false) as ->.
  { apply String.eqb_neq. by apply append_nonempty_r. }
  destruct (Path.starts_with_slash base); [|done].
  by rewrite !append_assoc.
Qed.

End Paths.

(** ** The assistant channel: spawning and aborting *)
Section AssistantProcess.
Import JS Chat.

(** Reads a variable off an environment built by inserts over a delete. *)
Ltac env_lookup :=
  repeat (rewrite lookup_insert_ne by done);
  first [apply lookup_insert_eq | apply lookup_delete_eq].

Lemma ensureUserConfigDir_frame (userId : string) (st st' : state) (dir : string) :
  ensureUserConfigDir userId st = (st', Normal dir) ->
  dir = getUserClaudeConfigDir (process_env st) userId
  /\ process_env st' = process_env st /\ children st' = children st
  /\ activeProcesses st' = activeProcesses st /\ sockets st' = sockets st.
Proof.
  unfold ensureUserConfigDir.
  destruct (Fs.existsSync _ _); [by intros [= <- <-]|].
  destruct (Fs.mkdirSync _ _); [|done]. by intros [= <- <-].
Qed.

(** [handleUserMessage] never looks at [activeProcesses] before it spawns:
    whenever it returns, one more child runs and the entry of the session
    points at it, whatever the entry was. *)
Lemma handleUserMessage_spawns (c : connection) (content : json) (st st' : state) :
  handleUserMessage c content st = (st', Normal tt) ->
  children st'
  = children st
      ++ [{| cp_sessionId := sessionId c; cp_socket := socket c;
             cp_file := "/usr/local/bin/claude"; cp_args := spawn_args content;
             cp_cwd := workspace_path c;
             cp_env := spawn_env (process_env st)
                                 (getUserClaudeConfigDir (process_env st) (user_id c));
             cp_signals := []; cp_closed := false; cp_buffer := "";
             cp_currentToolId := Some JNull |}]
  /\ activeProcesses st' = <[sessionId c := length (children st)]> (activeProcesses st).
Proof.
  unfold handleUserMessage.
  destruct (ensureUserConfigDir _ _) as [st1 [dir|]] eqn:Hdir; [|done].
  apply ensureUserConfigDir_frame in Hdir as (-> & Henv & Hchildren & Hactive & _).
  cbn in Henv, Hchildren, Hactive.
  intros [= <-]. cbn. by rewrite Henv, Hchildren, Hactive.
Qed.

(** C8: the child that [handleUserMessage] spawns runs in the workspace of
    the session; its [HOME] and [CLAUDE_CONFIG_DIR] are the configuration
    directory of the requesting user, which differs from that of any other
    user (user ids are [nanoid] strings, hence plain path segments); it
    carries the remote execution marker [CLAUDE_CODE_REMOTE=1]; and it has
    no [ANTHROPIC_API_KEY], whatever the environment of the server holds. *)
Theorem spawn_environment_isolated
        (c : connection) (content : json) (st st' : state) (other : string) :
  handleUserMessage c content st = (st', Normal tt) ->
  Path.plain_segment (user_id c) = true ->
  Path.plain_segment other = true ->
  other <> user_id c ->
  exists child,
    children st' = children st ++ [child]
    /\ cp_cwd child = workspace_path c
    /\ cp_env child !! "HOME" = Some (getUserClaudeConfigDir (process_env st) (user_id c))
    /\ cp_env child !! "CLAUDE_CONFIG_DIR"
       = Some (getUserClaudeConfigDir (process_env st) (user_id c))
    /\ getUserClaudeConfigDir (process_env st) other
       <> getUserClaudeConfigDir (process_env st) (user_id c)
    /\ cp_env child !! "CLAUDE_CODE_REMOTE" = Some "1"
    /\ cp_env child !! "ANTHROPIC_API_KEY" = None.
Proof.
  intros Hrun Hplain Hother Hne.
  apply handleUserMessage_spawns in Hrun as [Hchildren _].
  eexists. split; [exact Hchildren|]. cbn [cp_cwd cp_env].
  split; [done|]. unfold spawn_env.
  split; [env_lookup|]. split; [env_lookup|].
  split; [|split; env_lookup].
  unfold getUserClaudeConfigDir.
  set (userHome := match process_env st !! "HOME" with
                   | Some h => if String.eqb h "" then "/tmp" else h
                   | None => "/tmp"
                   end).
  assert (userHome <> "") as Hhome.
  { unfold userHome. destruct (process_env st !! "HOME") as [h|]; [|done].
    destruct (String.eqb_spec h ""); done. }
  destruct (join_plain_last userHome ".claudelet-users" Hhome eq_refl) as [pre Hjoin].
  rewrite !Hjoin by done.
  intros Heq. apply append_inj_l in Heq. by apply append_inj_l in Heq.
Qed.

(** [abortCurrentProcess] signals the registered child and forgets it. *)
Lemma abortCurrentProcess_registered (sid : string) (st : state) (h : nat)
      (cp : ChildProcess) :
  activeProcesses st !! sid = Some h ->
  children st !! h = Some cp ->
  activeProcesses (abortCurrentProcess sid st) = delete sid (activeProcesses st)
  /\ children (abortCurrentProcess sid st) !! h = Some (kill "SIGTERM" cp).
Proof.
  intros Hreg Hchild. unfold abortCurrentProcess. rewrite Hreg. cbn.
  split; [done|]. by rewrite list_lookup_alter_eq, Hchild.
Qed.

End AssistantProcess.

Lemma spawn_environment_isolated_witness :
  exists child,
    Chat.children (fst (Chat.handleUserMessage Examples.chat_conn (JS.JStr "hello")
                                               Examples.chat_init)) = [child]
    /\ Chat.cp_env child !! "ANTHROPIC_API_KEY" = None
    /\ Chat.cp_env child !! "HOME" = Some "/home/claudelet/.claudelet-users/u1".
Proof.
  destruct (spawn_environment_isolated
              Examples.chat_conn (JS.JStr "hello") Examples.chat_init
              (fst (Chat.handleUserMessage Examples.chat_conn (JS.JStr "hello")
                                           Examples.chat_init))
              "u2" eq_refl eq_refl eq_refl)
    as (child & Hchildren & _ & Hhome & _ & _ & _ & Hkey).
  { discriminate. }
  exists child. split; [exact Hchildren|]. split; [exact Hkey|exact Hhome].
Defined.

(** C1 (the code departs from it): nothing in the message handler or in
    [handleUserMessage] consults [activeProcesses] before spawning.  Two
    [user] frames in a row on one session, the second arriving while the
    child of the first is still registered, leave two children in flight;
    the registry entry of the session is overwritten, so closing the socket
    afterwards signals the second child only, and the [close] event of the
    first child removes the entry while the second is still running. *)
Theorem second_user_message_spawns_second_process :
  let st1 := Chat.on_message Examples.parse_two Examples.chat_conn "first"
                             Examples.chat_init in
  let st2 := Chat.on_message Examples.parse_two Examples.chat_conn "second" st1 in
  Chat.activeProcesses st1 !! "s1" = Some 0%nat
  /\ length (Chat.in_flight "s1" st1) = 1%nat
  /\ length (Chat.in_flight "s1" st2) = 2%nat
  /\ Chat.activeProcesses st2 !! "s1" = Some 1%nat
  /\ map Chat.cp_signals (Chat.children (Chat.on_socket_close Examples.chat_conn st2))
     = [[]; ["SIGTERM"]]
  /\ Chat.activeProcesses (Chat.on_close Examples.parse_two 0 (Some 0) st2) !! "s1" = None
  /\ length (Chat.in_flight "s1" (Chat.on_close Examples.parse_two 0 (Some 0) st2)) = 1%nat.
Proof. vm_compute. repeat split. Qed.

(** ** Closing a socket *)

(** C7 (the code departs from it).  Closing the socket of a PTY connection
    leaves the registry, every pseudo terminal (none is killed) and the
    database as they were.  Closing the socket of an assistant connection
    sends [SIGTERM] to the child registered for the session and removes its
    entry; a child of the session that the registry does not name is left
    as it is.  Such a child is reached without any fault of the client:
    after a message, an abort and a second message, the [close] event of
    the first child removes the entry of the second, and closing the socket
    then leaves the second child in flight with no signal. *)
Theorem socket_close_misses_unregistered_invocation :
  (forall (tc : Terminal.connection) (ts : Terminal.state),
      Terminal.activePtys (Terminal.on_socket_close tc ts) = Terminal.activePtys ts
      /\ Terminal.ptys (Terminal.on_socket_close tc ts) = Terminal.ptys ts
      /\ Terminal.db (Terminal.on_socket_close tc ts) = Terminal.db ts)
  /\ (forall (cc : Chat.connection) (cs : Chat.state) (h : nat) (cp : Chat.ChildProcess),
         Chat.activeProcesses cs !! Chat.sessionId cc = Some h ->
         Chat.children cs !! h = Some cp ->
         Chat.activeProcesses (Chat.on_socket_close cc cs) !! Chat.sessionId cc = None
         /\ Chat.children (Chat.on_socket_close cc cs) !! h
            = Some (Chat.kill "SIGTERM" cp)
         /\ Chat.cp_signals (Chat.kill "SIGTERM" cp) = Chat.cp_signals cp ++ ["SIGTERM"])
  /\ (forall (cc : Chat.connection) (cs : Chat.state) (h : nat) (cp : Chat.ChildProcess),
         Chat.children cs !! h = Some cp ->
         Chat.activeProcesses cs !! Chat.sessionId cc <> Some h ->
         Chat.children (Chat.on_socket_close cc cs) !! h = Some cp)
  /\ (let st1 := Chat.on_message Examples.parse_three Examples.chat_conn "first"
                                 Examples.chat_init in
      let st2 := Chat.on_message Examples.parse_three Examples.chat_conn "abort" st1 in
      let st3 := Chat.on_message Examples.parse_three Examples.chat_conn "second" st2 in
      let st4 := Chat.on_close Examples.parse_three 0 None st3 in
      let st5 := Chat.on_socket_close Examples.chat_conn st4 in
      Chat.activeProcesses st1 !! "s1" = Some 0%nat
      /\ Chat.activeProcesses st2 !! "s1" = None
      /\ map Chat.cp_signals (Chat.children st2) = [["SIGTERM"]]
      /\ Chat.activeProcesses st3 !! "s1" = Some 1%nat
      /\ Chat.activeProcesses st4 !! "s1" = None
      /\ map Chat.cp_closed (Chat.children st4) = [true; false]
      /\ map Chat.cp_signals (Chat.children st5) = [["SIGTERM"]; []]
      /\ map Chat.cp_closed (Chat.children st5) = [true; false]
      /\ length (Chat.in_flight "s1" st5) = 1%nat).
Proof.
  split; [done|]. split; [|split].
  - intros cc cs h cp Hreg Hchild. unfold Chat.on_socket_close.
    set (cs' := Chat.put_socket _ _ cs).
    destruct (abortCurrentProcess_registered (Chat.sessionId cc) cs' h cp Hreg Hchild)
      as [Hactive Hkilled].
    rewrite Hactive, Hkilled. split; [apply lookup_delete_eq|done].
  - intros cc cs h cp Hchild Hreg. unfold Chat.on_socket_close, Chat.abortCurrentProcess.
    set (cs' := Chat.put_socket _ _ cs).
    change (Chat.activeProcesses cs') with (Chat.activeProcesses cs).
    destruct (Chat.activeProcesses cs !! Chat.sessionId cc) as [h'|] eqn:Hentry; [|done].
    cbn [Chat.children Chat.set_activeProcesses Chat.update_child Chat.set_children].
    rewrite list_lookup_alter_ne by congruence. done.
  - vm_compute. repeat split.
Qed.

(** ** The PTY channel *)
Section PtyChannel.
Import JS Terminal.

Lemma socket_open_spec (sock : nat) (st : state) (s : WebSocket) :
  sockets st !! sock = Some s -> socket_open sock st = WS.is_open s.
Proof. intros H. unfold socket_open. by rewrite H. Qed.

(** An [outputHandler] touches the socket it was registered for and
    nothing else. *)
Lemma outputHandler_other (sock sock' : nat) (data : string) (st : state) :
  sock <> sock' ->
  sockets (outputHandler sock data st) !! sock' = sockets st !! sock'
  /\ length (sockets (outputHandler sock data st)) = length (sockets st)
  /\ ptys (outputHandler sock data st) = ptys st.
Proof.
  intros Hne. unfold outputHandler, on_socket.
  destruct (socket_open sock st); [|done]. cbn.
  by rewrite list_lookup_alter_ne, length_alter.
Qed.

Lemma outputHandlers_other (listeners : list nat) (sock' : nat) (data : string) :
  forall st : state,
    Forall (fun sock => sock <> sock') listeners ->
    sockets (fold_left (fun st sock => outputHandler sock data st) listeners st) !! sock'
    = sockets st !! sock'.
Proof.
  induction listeners as [|sock listeners IH]; intros st Hall; [done|].
  apply Forall_cons in Hall as [Hne Hall]. cbn [fold_left].
  rewrite IH by done. by apply outputHandler_other.
Qed.

(** C4: a connection for a session whose pseudo terminal is registered
    attaches to that pseudo terminal.  The registry and the database are not
    touched and no pseudo terminal is spawned (whether or not a spawn would
    succeed); the new socket is greeted, its handlers are bound to the
    registered pseudo terminal, and the next output of that pseudo terminal
    reaches it. *)
Theorem reattach_does_not_respawn
        (sid tok : string) (spawn_ok : bool) (st : state)
        (user : Db.User) (session : Db.TerminalSession)
        (h : nat) (p : IPty) (data : string) :
  tok <> "" ->
  validateToken tok st = Some user ->
  Db.getTerminalSession sid (db st) = Some session ->
  Db.user_id session = Db.u_id user ->
  activePtys st !! sid = Some h ->
  ptys st !! h = Some p ->
  Forall (fun sock => (sock < length (sockets st))%nat) (onData p) ->
  let sock := length (sockets st) in
  let st' := fst (on_connection sid (Some tok) spawn_ok st) in
  snd (on_connection sid (Some tok) spawn_ok st)
  = Some {| socket := sock; sessionId := sid; ptyProcess := h |}
  /\ activePtys st' = activePtys st
  /\ length (ptys st') = length (ptys st)
  /\ db st' = db st
  /\ sockets st' !! sock = Some (WS.Socket WS.OPEN [Connected sid 80 24] None)
  /\ sockets (on_pty_data h data st') !! sock
     = Some (WS.Socket WS.OPEN [Connected sid 80 24; Output data] None).
Proof.
  intros Htok Huser Hsession Howner Hreg Hpty Hlisteners sock st'.
  assert (on_connection sid (Some tok) spawn_ok st
          = (on_pty h (add_listeners sid sock)
               (on_socket sock (fun s => WS.send s (Connected sid 80 24))
                  (set_sockets st (sockets st ++ [WS.fresh]))),
             Some {| socket := sock; sessionId := sid; ptyProcess := h |})) as Hconn.
  { unfold on_connection.
    rewrite (proj2 (String.eqb_neq tok "") Htok).
    change (validateToken tok (set_sockets st (sockets st ++ [WS.fresh])))
      with (validateToken tok st).
    rewrite Huser. cbn [db set_sockets]. rewrite Hsession, Howner, String.eqb_refl.
    cbn [negb activePtys set_sockets]. by rewrite Hreg. }
  subst st'. rewrite Hconn. cbn [fst snd].
  assert (alter (fun s : WebSocket => WS.send s (Connected sid 80 24)) sock
                (sockets st ++ [WS.fresh]) !! sock
          = Some (WS.Socket WS.OPEN [Connected sid 80 24] None)) as Hgreeted.
  { rewrite list_lookup_alter_eq. subst sock.
    by rewrite lookup_app_r, Nat.sub_diag by lia. }
  repeat split.
  - cbn. by rewrite length_alter.
  - exact Hgreeted.
  - unfold on_pty_data. cbn [ptys on_pty set_ptys on_socket set_sockets].
    rewrite list_lookup_alter_eq, Hpty. cbn [fmap option_fmap option_map add_listeners onData].
    rewrite fold_left_app. cbn [fold_left].
    set (st1 := fold_left _ (onData p) _).
    assert (sockets st1 !! sock = Some (WS.Socket WS.OPEN [Connected sid 80 24] None))
      as Hkept.
    { unfold st1. rewrite outputHandlers_other.
      - exact Hgreeted.
      - eapply Forall_impl; [exact Hlisteners|]. intros x Hx. subst sock. cbv beta in Hx. lia. }
    unfold outputHandler. rewrite (socket_open_spec _ _ _ Hkept).
    change (WS.is_open _) with true. cbn [on_socket sockets set_sockets].
    by rewrite list_lookup_alter_eq, Hkept.
Qed.

End PtyChannel.

Lemma reattach_does_not_respawn_witness :
  let st' := fst (Terminal.on_connection "s1" (Some "tok") false Examples.term_running) in
  length (Terminal.ptys st') = 1%nat
  /\ Terminal.sockets (Terminal.on_pty_data 0 "hi" st') !! 1%nat
     = Some (WS.Socket WS.OPEN [Terminal.Connected "s1" 80 24; Terminal.Output "hi"] None).
Proof.
  destruct (reattach_does_not_respawn
              "s1" "tok" false Examples.term_running _ _ 0%nat _ "hi"
              ltac:(discriminate) eq_refl eq_refl eq_refl eq_refl eq_refl
              ltac:(repeat constructor))
    as (_ & _ & Hptys & _ & _ & Houtput).
  split; [exact Hptys|exact Houtput].
Defined.

(** ** The PTY channel: exit, input and status *)
Section PtyEvents.
Import JS Terminal.

Lemma length_of_lookups {A : Type} (l l' : list A) (f : nat -> A -> A) :
  (forall i, l' !! i = f i <$> l !! i) -> length l' = length l.
Proof.
  intros Hlookup. apply Nat.le_antisymm; apply Nat.nlt_ge; intros Hlt.
  - apply (proj2 (lookup_lt_is_Some l' (length l))) in Hlt as [x Hx].
    rewrite Hlookup, lookup_ge_None_2 in Hx by lia. done.
  - apply (proj2 (lookup_lt_is_Some l (length l'))) in Hlt as [x Hx].
    pose proof (Hlookup (length l')) as Hnone.
    rewrite Hx, lookup_ge_None_2 in Hnone by lia. done.
Qed.

Lemma exitHandler_step (sid : string) (sock : nat) (exitCode : Z) (st : state) :
  let st' := exitHandler sid sock exitCode st in
  ptys st' = ptys st
  /\ activePtys st' = delete sid (activePtys st)
  /\ db st' = Db.updateTerminalSession sid (status_update Db.stopped) (db st)
  /\ (forall i,
         sockets st' !! i
         = (fun s => if WS.is_open s && bool_decide (i = sock)
                     then WS.Socket WS.CLOSING (WS.sent s ++ [Exit exitCode])
                                    (Some (1000, "Process exited"))
                     else s) <$> sockets st !! i).
Proof.
  cbv zeta. unfold exitHandler. set (st1 := set_db _ _).
  assert (sockets st1 = sockets st) as Hsockets by done.
  unfold socket_open. rewrite Hsockets.
  destruct (sockets st !! sock) as [s|] eqn:Hsock.
  - destruct (WS.is_open s) eqn:Hopen.
    + split; [done|]. split; [done|]. split; [done|]. intros i.
      cbn [on_socket sockets set_sockets]. rewrite Hsockets.
      destruct (decide (i = sock)) as [->|Hne].
      * rewrite !list_lookup_alter_eq, Hsock. cbn. rewrite Hopen.
        rewrite bool_decide_eq_true_2 by done. cbn.
        unfold WS.send, WS.close. rewrite Hopen. cbn.
        unfold WS.is_open in *. apply bool_decide_eq_true in Hopen.
        by rewrite Hopen, bool_decide_eq_true_2.
      * rewrite !list_lookup_alter_ne by done.
        destruct (sockets st !! i) as [s'|]; [|done]. cbn.
        by rewrite (bool_decide_eq_false_2 _ Hne), andb_false_r.
    + split; [done|]. split; [done|]. split; [done|]. intros i. rewrite Hsockets.
      destruct (sockets st !! i) as [s'|] eqn:Hi; [|done]. cbn.
      destruct (decide (i = sock)) as [->|Hne].
      * rewrite Hsock in Hi. injection Hi as <-. by rewrite Hopen.
      * by rewrite (bool_decide_eq_false_2 _ Hne), andb_false_r.
  - split; [done|]. split; [done|]. split; [done|]. intros i. rewrite Hsockets.
    destruct (sockets st !! i) as [s'|] eqn:Hi; [|done]. cbn.
    destruct (decide (i = sock)) as [->|Hne]; [congruence|].
    by rewrite (bool_decide_eq_false_2 _ Hne), andb_false_r.
Qed.

(** The exit listeners of a pseudo terminal, run in turn: every session
    they name is unregistered and stored as stopped, and every socket they
    name that is open is sent one [exit] frame and closed, however often it
    is named. *)
Lemma exitHandlers_spec (exitCode : Z) (l : list (string * nat)) (st : state) :
  let st' := fold_left (fun st l => exitHandler (fst l) (snd l) exitCode st) l st in
  ptys st' = ptys st
  /\ (forall sid,
         activePtys st' !! sid
         = if bool_decide (sid ∈ l.*1) then None else activePtys st !! sid)
  /\ (forall sid,
         Db.getTerminalSession sid (db st')
         = (if bool_decide (sid ∈ l.*1)
            then Db.apply_updates (status_update Db.stopped) else id)
             <$> Db.getTerminalSession sid (db st))
  /\ (forall i,
         sockets st' !! i
         = (fun s => if WS.is_open s && bool_decide (i ∈ l.*2)
                     then WS.Socket WS.CLOSING (WS.sent s ++ [Exit exitCode])
                                    (Some (1000, "Process exited"))
                     else s) <$> sockets st !! i).
Proof.
  revert st. induction l as [|[sid0 sock0] l IH]; intros st; cbv zeta.
  - cbn [fold_left fmap list_fmap]. split; [done|]. split; [done|]. split.
    + intros sid. rewrite bool_decide_eq_false_2 by apply not_elem_of_nil.
      by destruct (Db.getTerminalSession sid (db st)).
    + intros i. rewrite bool_decide_eq_false_2 by apply not_elem_of_nil.
      destruct (sockets st !! i) as [s|]; [|done]. cbn. by rewrite andb_false_r.
  - cbn [fold_left fst snd fmap list_fmap].
    destruct (exitHandler_step sid0 sock0 exitCode st) as (Hptys0 & Hreg0 & Hdb0 & Hsock0).
    destruct (IH (exitHandler sid0 sock0 exitCode st)) as (Hptys & Hreg & Hdb & Hsock).
    split; [by rewrite Hptys|]. split; [|split].
    + intros sid. rewrite Hreg, Hreg0.
      destruct (decide (sid = sid0)) as [->|Hne].
      * rewrite lookup_delete_eq, (bool_decide_eq_true_2 (sid0 ∈ sid0 :: l.*1)) by left.
        by destruct (bool_decide _).
      * rewrite lookup_delete_ne by done.
        repeat case_bool_decide; rewrite ?elem_of_cons in *; try done; tauto.
    + intros sid. rewrite Hdb, Hdb0. unfold Db.getTerminalSession, Db.updateTerminalSession.
      cbn [Db.terminal_sessions Db.set_terminal_sessions].
      destruct (decide (sid = sid0)) as [->|Hne].
      * rewrite lookup_alter_eq, (bool_decide_eq_true_2 (sid0 ∈ sid0 :: l.*1)) by left.
        destruct (Db.terminal_sessions (db st) !! sid0) as [session|]; [|done].
        cbn. by destruct (bool_decide _).
      * rewrite lookup_alter_ne by done.
        repeat case_bool_decide; rewrite ?elem_of_cons in *; try done; tauto.
    + intros i. rewrite Hsock, Hsock0.
      destruct (sockets st !! i) as [s|]; [|done]. cbn. f_equal.
      destruct (WS.is_open s) eqn:Hopen; cbn [andb].
      * destruct (decide (i = sock0)) as [->|Hne].
        -- rewrite (bool_decide_eq_true_2 (sock0 = sock0)) by done.
           rewrite (bool_decide_eq_true_2 (sock0 ∈ sock0 :: l.*2)) by left. done.
        -- rewrite (bool_decide_eq_false_2 _ Hne), Hopen. cbn [andb].
           repeat case_bool_decide; rewrite ?elem_of_cons in *; try done; tauto.
      * by rewrite Hopen.
Qed.

(** C6: when a pseudo terminal exits with any code, its exit handlers,
    one for each connection that attached to it, remove the registry entry
    of the session and store the status [stopped] in the session row; every
    attached socket that is open is sent exactly one [exit] frame carrying
    the code and is then closed with the normal closure code 1000, and an
    attached socket that is not open is left alone.  No other socket,
    session or registry entry is touched, and the pseudo terminals stay as
    they are.  This holds however many connections attached. *)
Theorem exit_unregisters_stops_and_notifies
        (h : nat) (p : IPty) (exitCode : Z) (st : state) :
  ptys st !! h = Some p ->
  let st' := on_pty_exit h exitCode st in
  (forall sid sock,
      (sid, sock) ∈ onExit p ->
      activePtys st' !! sid = None
      /\ (forall session,
             Db.getTerminalSession sid (db st) = Some session ->
             Db.getTerminalSession sid (db st')
             = Some {| Db.id := Db.id session; Db.user_id := Db.user_id session;
                       Db.container_id := Db.container_id session;
                       Db.workspace_path := Db.workspace_path session;
                       Db.project_name := Db.project_name session;
                       Db.status := Db.stopped;
                       Db.created_at := Db.created_at session;
                       Db.last_activity_at := Db.last_activity_at session |})
      /\ (forall s,
             sockets st !! sock = Some s ->
             sockets st' !! sock
             = Some (if WS.is_open s
                     then WS.Socket WS.CLOSING (WS.sent s ++ [Exit exitCode])
                                    (Some (1000, "Process exited"))
                     else s)))
  /\ (forall sock, sock ∉ (onExit p).*2 -> sockets st' !! sock = sockets st !! sock)
  /\ (forall sid,
         sid ∉ (onExit p).*1 ->
         activePtys st' !! sid = activePtys st !! sid
         /\ Db.getTerminalSession sid (db st') = Db.getTerminalSession sid (db st))
  /\ ptys st' = ptys st
  /\ length (sockets st') = length (sockets st).
Proof.
  intros Hpty st'. subst st'. unfold on_pty_exit. rewrite Hpty.
  destruct (exitHandlers_spec exitCode (onExit p) st) as (Hptys & Hreg & Hdb & Hsock).
  split; [|split; [|split; [|split]]].
  - intros sid sock Hin.
    assert (sid ∈ (onExit p).*1) as Hsid
      by (apply list_elem_of_fmap; by exists (sid, sock)).
    assert (sock ∈ (onExit p).*2) as Hsocket
      by (apply list_elem_of_fmap; by exists (sid, sock)).
    split; [by rewrite Hreg, bool_decide_eq_true_2|]. split.
    + intros session Hsession. by rewrite Hdb, bool_decide_eq_true_2, Hsession.
    + intros s Hs. rewrite Hsock, Hs. cbn.
      by rewrite (bool_decide_eq_true_2 _ Hsocket), andb_true_r.
  - intros sock Hout. rewrite Hsock, (bool_decide_eq_false_2 _ Hout).
    destruct (sockets st !! sock) as [s|]; [|done]. cbn. by rewrite andb_false_r.
  - intros sid Hout. rewrite Hreg, Hdb, (bool_decide_eq_false_2 _ Hout).
    split; [done|]. by destruct (Db.getTerminalSession sid (db st)).
  - exact Hptys.
  - exact (length_of_lookups _ _ _ Hsock).
Qed.

(** C10: an [input] frame whose [data] is absent or the empty string
    changes nothing: nothing is written to the pseudo terminal and the
    activity time stamp of the session stays as it is.  A frame with a
    non-empty string is forwarded: the string is the last thing written to
    the pseudo terminal of the connection, after what was written before,
    and the row of the session has the time of the frame, in seconds, as
    its last activity; no other pseudo terminal, row, column, registry
    entry or socket changes.  And whenever an [input] frame changes
    anything, its [data] was truthy. *)
Theorem input_without_data_is_ignored
        (JSON_parse : string -> option json) (c : connection) (rawData : string)
        (message : json) (st : state) :
  JSON_parse rawData = Some message ->
  get "type" message = Some (JStr "input") ->
  let st' := on_message JSON_parse c rawData st in
  (get "data" message = None \/ get "data" message = Some (JStr "") -> st' = st)
  /\ (forall data : string,
         get "data" message = Some (JStr data) -> data <> "" ->
         ptys st' = alter (add_write (JStr data)) (ptyProcess c) (ptys st)
         /\ db st' = Db.updateTerminalSession (sessionId c)
                       (activity_update (Date_now st / 1000)) (db st)
         /\ (forall p,
                ptys st !! ptyProcess c = Some p ->
                ptys st' !! ptyProcess c
                = Some {| file := file p; cols := cols p; rows := rows p; cwd := cwd p;
                          env := env p;
                          write_calls := write_calls p ++ [JStr data];
                          resize_calls := resize_calls p; kill_calls := kill_calls p;
                          onData := onData p; onExit := onExit p |})
         /\ (forall h, h <> ptyProcess c -> ptys st' !! h = ptys st !! h)
         /\ (forall session,
                Db.getTerminalSession (sessionId c) (db st) = Some session ->
                Db.getTerminalSession (sessionId c) (db st')
                = Some {| Db.id := Db.id session; Db.user_id := Db.user_id session;
                          Db.container_id := Db.container_id session;
                          Db.workspace_path := Db.workspace_path session;
                          Db.project_name := Db.project_name session;
                          Db.status := Db.status session;
                          Db.created_at := Db.created_at session;
                          Db.last_activity_at := Date_now st / 1000 |})
         /\ (forall sid, sid <> sessionId c ->
                         Db.getTerminalSession sid (db st')
                         = Db.getTerminalSession sid (db st))
         /\ activePtys st' = activePtys st
         /\ sockets st' = sockets st)
  /\ (st' <> st -> truthy (get "data" message) = true).
Proof.
  intros Hparse Htype st'. subst st'. unfold on_message. rewrite Hparse.
  assert (prop "type" (Some message) = Normal (Some (JStr "input"))) as ->
      by (destruct message; cbn in *; congruence).
  change (is_str "input" (Some (JStr "input"))) with true. cbv iota.
  split; [|split].
  - by intros [-> | ->].
  - intros data Hdata Hne. rewrite Hdata. cbn [truthy].
    rewrite (proj2 (String.eqb_neq data "") Hne). cbn [negb].
    cbn [ptys db set_db on_pty set_ptys activePtys sockets Date_now].
    split; [done|]. split; [done|]. split; [|split; [|split; [|split]]].
    + intros p Hp. by rewrite list_lookup_alter_eq, Hp.
    + intros h Hh. by rewrite list_lookup_alter_ne.
    + intros session Hsession.
      unfold Db.getTerminalSession, Db.updateTerminalSession in *.
      cbn [Db.terminal_sessions Db.set_terminal_sessions].
      by rewrite lookup_alter_eq, Hsession.
    + intros sid Hsid. unfold Db.getTerminalSession, Db.updateTerminalSession.
      cbn [Db.terminal_sessions Db.set_terminal_sessions]. by rewrite lookup_alter_ne.
    + done.
  - intros Hchanged. by destruct (truthy (get "data" message)).
Qed.

(** The status route writes nothing, and without a registry entry it
    passes the stored status on. *)
Lemma status_route_pure (sid userId : string) (st : state) :
  fst (status_route sid userId st) = st.
Proof.
  unfold status_route. destruct (Db.getTerminalSession sid (db st)); [|done].
  by destruct (negb _).
Qed.

(** C2, as the code has it: for a session of the requesting user without a
    registry entry, the status route reports the stored status as it is,
    with [hasActivePty] false, and leaves the row untouched; in particular a
    stored [running] is reported as [running]. *)
Theorem status_without_pty_is_the_stored_status
        (sid userId : string) (st : state) (session : Db.TerminalSession) :
  Db.getTerminalSession sid (db st) = Some session ->
  Db.user_id session = userId ->
  activePtys st !! sid = None ->
  status_route sid userId st = (st, Status sid (Db.status session) false).
Proof.
  intros Hsession Howner Hreg. unfold status_route.
  rewrite Hsession, Howner, String.eqb_refl, Hreg. cbn [negb].
  rewrite bool_decide_eq_false_2; [done|]. by intros [? ?].
Qed.

End PtyEvents.

(** C2, as stated, fails: after a restart the session of the first client
    is stored as [running] and has no registry entry, and the status route
    answers [running], not [stopped]. *)
Lemma stale_running_is_reported_running :
  ~ (forall (sid userId : string) (st : Terminal.state) (session : Db.TerminalSession),
        Db.getTerminalSession sid (Terminal.db st) = Some session ->
        Db.user_id session = userId ->
        Db.status session = Db.running ->
        Terminal.activePtys st !! sid = None ->
        snd (Terminal.status_route sid userId st) = Terminal.Status sid Db.stopped false).
Proof.
  intros Hclaim.
  specialize (Hclaim "s1" "u1" (Terminal.restart Examples.term_running) _
                     eq_refl eq_refl eq_refl eq_refl).
  vm_compute in Hclaim. discriminate.
Qed.

Lemma status_without_pty_is_the_stored_status_witness :
  Terminal.status_route "s1" "u1" (Terminal.restart Examples.term_running)
  = (Terminal.restart Examples.term_running, Terminal.Status "s1" Db.running false).
Proof.
  exact (status_without_pty_is_the_stored_status
           "s1" "u1" (Terminal.restart Examples.term_running) _ eq_refl eq_refl eq_refl).
Defined.

Lemma exit_unregisters_stops_and_notifies_witness :
  Terminal.activePtys (Terminal.on_pty_exit 0 0 Examples.term_reattached) !! "s1" = None
  /\ Terminal.sockets (Terminal.on_pty_exit 0 0 Examples.term_reattached) !! 0%nat
     = Some (WS.Socket WS.CLOSING [Terminal.Connected "s1" 80 24; Terminal.Exit 0]
                       (Some (1000, "Process exited")))
  /\ Terminal.sockets (Terminal.on_pty_exit 0 0 Examples.term_reattached) !! 1%nat
     = Some (WS.Socket WS.CLOSING [Terminal.Connected "s1" 80 24; Terminal.Exit 0]
                       (Some (1000, "Process exited")))
  /\ (Db.status <$> Db.getTerminalSession "s1"
                      (Terminal.db (Terminal.on_pty_exit 0 0 Examples.term_reattached)))
     = Some Db.stopped.
Proof.
  assert (exists p, Terminal.ptys Examples.term_reattached !! 0%nat = Some p
                    /\ Terminal.onExit p = [("s1", 0%nat); ("s1", 1%nat)])
    as (p & Hp & Hlisteners) by (eexists; split; vm_compute; reflexivity).
  destruct (exit_unregisters_stops_and_notifies 0%nat p 0 Examples.term_reattached Hp)
    as (Hattached & _).
  destruct (Hattached "s1" 0%nat) as (Hreg & Hrow & Hfirst).
  { rewrite Hlisteners. by left. }
  destruct (Hattached "s1" 1%nat) as (_ & _ & Hsecond).
  { rewrite Hlisteners. right. by left. }
  split; [exact Hreg|]. split; [exact (Hfirst _ eq_refl)|]. split; [exact (Hsecond _ eq_refl)|].
  by rewrite (Hrow _ eq_refl).
Defined.

Lemma input_without_data_is_ignored_witness :
  Terminal.on_message Examples.parse_input
    {| Terminal.socket := 0%nat; Terminal.sessionId := "s1"; Terminal.ptyProcess := 0%nat |}
    "empty" Examples.term_running
  = Examples.term_running
  /\ (Terminal.write_calls
        <$> Terminal.ptys
              (Terminal.on_message Examples.parse_input
                 {| Terminal.socket := 0%nat; Terminal.sessionId := "s1";
                    Terminal.ptyProcess := 0%nat |}
                 "ls" Examples.term_running) !! 0%nat)
     = Some [JS.JStr "ls"]
  /\ (Db.last_activity_at
        <$> Db.getTerminalSession "s1"
              (Terminal.db
                 (Terminal.on_message Examples.parse_input
                    {| Terminal.socket := 0%nat; Terminal.sessionId := "s1";
                       Terminal.ptyProcess := 0%nat |}
                    "ls" Examples.term_running)))
     = Some 2000.
Proof.
  destruct (input_without_data_is_ignored
              Examples.parse_input
              {| Terminal.socket := 0%nat; Terminal.sessionId := "s1";
                 Terminal.ptyProcess := 0%nat |}
              "empty" _ Examples.term_running eq_refl eq_refl)
    as (Hnoop & _ & _).
  destruct (input_without_data_is_ignored
              Examples.parse_input
              {| Terminal.socket := 0%nat; Terminal.sessionId := "s1";
                 Terminal.ptyProcess := 0%nat |}
              "ls" _ Examples.term_running eq_refl eq_refl)
    as (_ & Hforward & _).
  destruct (Hforward "ls" eq_refl ltac:(discriminate))
    as (_ & _ & Hwritten & _ & Hrow & _).
  split; [apply Hnoop; by right|]. split.
  - assert (exists p, Terminal.ptys Examples.term_running !! 0%nat = Some p
                      /\ Terminal.write_calls p = [])
      as (p & Hp & Hcalls) by (eexists; split; vm_compute; reflexivity).
    cbn [Terminal.ptyProcess] in Hwritten. rewrite (Hwritten p Hp). cbn. by rewrite Hcalls.
  - cbn [Terminal.sessionId] in Hrow. by rewrite (Hrow _ eq_refl).
Defined.


(** ** Session quota *)
Section Quota.
Import Sessions.

Lemma user_sessions_length (userId : string) (db : Db.t) :
  length (Db.getUserTerminalSessions userId db)
  = length (filter (fun s => Db.user_id s = userId)
                   ((map_to_list (Db.terminal_sessions db)).*2)).
Proof.
  unfold Db.getUserTerminalSessions. apply Permutation_length, merge_sort_Permutation.
Qed.

(** Inserting a row under a fresh id adds one session to its user. *)
Lemma user_sessions_insert (row : Db.TerminalSession) (db : Db.t) :
  Db.terminal_sessions db !! Db.id row = None ->
  length (Db.getUserTerminalSessions (Db.user_id row)
            (Db.set_terminal_sessions db (<[Db.id row := row]> (Db.terminal_sessions db))))
  = S (length (Db.getUserTerminalSessions (Db.user_id row) db)).
Proof.
  intros Hfresh. rewrite !user_sessions_length. cbn [Db.terminal_sessions Db.set_terminal_sessions].
  rewrite (Permutation_length
             (filter_Permutation _ _ _
                (fmap_Permutation snd _ _ (map_to_list_insert _ _ _ Hfresh)))).
  cbn [fmap list_fmap snd]. by rewrite filter_cons_True.
Qed.

(** C3, as the code has it: the route answers with the quota error
    exactly when the number of session rows of the user, stopped sessions
    included, has reached [maxSessionsPerUser], and then the state is as it
    was (no row, no directory).  Below the maximum the quota never stands
    in the way: when the directories can be made and the new id is free,
    the row is stored and the user has one session more. *)
Theorem quota_enforced
        (cfg : config) (user : Db.User) (projectName : option string)
        (sessionId : string) (st : state) :
  let count := length (Db.getUserTerminalSessions (Db.u_id user) (db st)) in
  let st' := fst (create_route cfg user projectName sessionId st) in
  let reply := snd (create_route cfg user projectName sessionId st) in
  (reply = Reply 400 ("Maximum " +:+ pretty (maxSessionsPerUser cfg) +:+ " sessions allowed")
   <-> maxSessionsPerUser cfg <= Z.of_nat count)
  /\ (maxSessionsPerUser cfg <= Z.of_nat count -> st' = st)
  /\ (Z.of_nat count < maxSessionsPerUser cfg ->
      snd (create_files cfg (Db.u_id user)
             (Path.join [workspaceBasePath cfg; Db.u_id user; sessionId]) (fs st))
      = JS.Normal tt ->
      Db.getTerminalSession sessionId (db st) = None ->
      exists session,
        reply = Session session
        /\ Db.getTerminalSession sessionId (db st') = Some session
        /\ Db.user_id session = Db.u_id user
        /\ length (Db.getUserTerminalSessions (Db.u_id user) (db st')) = S count).
Proof.
  intros count st' reply. subst st' reply. unfold create_route. fold count.
  destruct (Z.geb_spec (Z.of_nat count) (maxSessionsPerUser cfg)) as [Hfull|Hroom].
  - cbn [fst snd]. split; [split; [lia|done]|]. split; [done|lia].
  - split.
    { split; [|lia]. intros Hreply. exfalso.
      destruct (create_files _ _ _ _) as [fs' [[]|]]; [|done].
      destruct (Db.createTerminalSession _ _ _) as [[db' session]|]; done. }
    split; [lia|]. intros _ Hfiles Hfresh.
    destruct (create_files _ _ _ _) as [fs' [[]|]]; [|done].
    unfold Db.createTerminalSession, Db.getTerminalSession in *.
    cbn [Db.n_id]. rewrite Hfresh. cbn [fst snd db].
    eexists. split; [done|]. split; [apply lookup_insert_eq|]. split; [done|].
    set (row := {| Db.id := sessionId |}).
    apply (user_sessions_insert row (db st) Hfresh).
Qed.

End Quota.

Lemma quota_enforced_witness :
  exists session,
    snd (Sessions.create_route Examples.sessions_cfg Examples.ada None "s2"
                               Examples.sessions_init) = Sessions.Session session
    /\ Db.user_id session = "u1".
Proof.
  destruct (quota_enforced Examples.sessions_cfg Examples.ada None "s2"
                           Examples.sessions_init) as (_ & _ & Hcreate).
  destruct (Hcreate ltac:(vm_compute; reflexivity) eq_refl eq_refl)
    as (session & Hreply & _ & Howner & _).
  exists session. split; [exact Hreply|exact Howner].
Defined.

(** C3, as stated, fails: a user whose five sessions are all stopped has
    no live session, and is still turned down with the quota error.  The
    route counts rows, whatever their status. *)
Lemma stopped_sessions_count_towards_the_quota :
  ~ (forall (cfg : Sessions.config) (user : Db.User) (projectName : option string)
            (sessionId : string) (st : Sessions.state),
        Z.of_nat
          (length (List.filter
                     (fun s => negb (bool_decide (Db.status s = Db.stopped)))
                     (Db.getUserTerminalSessions (Db.u_id user) (Sessions.db st))))
        < Sessions.maxSessionsPerUser cfg ->
        forall error,
          snd (Sessions.create_route cfg user projectName sessionId st)
          <> Sessions.Reply 400 error).
Proof.
  intros Hclaim.
  apply (Hclaim Examples.sessions_cfg Examples.ada None "a6" Examples.sessions_stopped
                ltac:(vm_compute; reflexivity) "Maximum 5 sessions allowed").
  vm_compute. reflexivity.
Qed.

(** ** One workspace for each branch *)
Section Worktrees.
Import Repositories.

Lemma getWorkspaceByBranch_none (rid br : string) (st : state) :
  getWorkspaceByBranch rid br st = None ->
  (rid, br) ∉ List.map (fun w => (repository_id w, branch w)) (workspaces st).
Proof.
  unfold getWorkspaceByBranch. intros Hnone Hin.
  apply list_elem_of_In, in_map_iff in Hin as (w & Hpair & Hw).
  apply (find_none _ _ Hnone) in Hw. injection Hpair as Hrid Hbr.
  by rewrite Hrid, Hbr, !String.eqb_refl in Hw.
Qed.

(** Whatever the request and whatever [git] and the file system do, the
    route keeps the table free of a second workspace for a pair. *)
Lemma create_workspace_route_invariant
      (rid : string) (br : option string) (userId workspaceId : string) (st : state) :
  one_workspace_per_branch st ->
  one_workspace_per_branch (fst (create_workspace_route rid br userId workspaceId st)).
Proof.
  intros Hinv. unfold create_workspace_route.
  destruct br as [br|]; [|done].
  destruct (String.eqb br ""); [done|].
  destruct (getRepository rid st) as [repo|]; [|done].
  destruct (negb _); [done|].
  destruct (getWorkspaceByBranch rid br st) as [existing|] eqn:Hexisting; [done|].
  destruct (Fs.mkdirSync _ _) as [f|]; [|done].
  destruct (createWorktree _ _ _ _) as [w|]; [|done].
  unfold createWorkspace. cbn [workspaces set_disk].
  destruct (existsb _ _); [done|]. cbn [fst]. unfold one_workspace_per_branch in *.
  cbn [workspaces]. rewrite map_app. apply NoDup_app. split; [done|].
  split; [|apply NoDup_singleton].
  intros pair Hin Hnew. apply list_elem_of_singleton in Hnew. subst pair.
  by apply getWorkspaceByBranch_none in Hexisting.
Qed.

(** C9: a request for a (repository, branch) pair that already has a
    workspace is rejected and changes nothing: the file system, the
    worktrees registered with git and the table are as before.  The
    rejection is the conflict reply, carrying the existing workspace, once
    the request names a branch and a repository of the user.  With every
    request the table keeps at most one workspace for each pair. *)
Theorem duplicate_workspace_rejected
        (rid br userId workspaceId : string) (st : state) (existing : Workspace) :
  getWorkspaceByBranch rid br st = Some existing ->
  one_workspace_per_branch st ->
  let st' := fst (create_workspace_route rid (Some br) userId workspaceId st) in
  let reply := snd (create_workspace_route rid (Some br) userId workspaceId st) in
  st' = st
  /\ (exists code error workspace, reply = Reply code error workspace /\ 400 <= code)
  /\ (forall repo,
         br <> "" -> getRepository rid st = Some repo -> r_user_id repo = userId ->
         reply = Reply 409 "Workspace already exists for this branch" (Some existing))
  /\ one_workspace_per_branch st'
  /\ (forall rid' br' userId' workspaceId',
         one_workspace_per_branch
           (fst (create_workspace_route rid' br' userId' workspaceId' st))).
Proof.
  intros Hexisting Hinv st' reply. subst st' reply.
  assert (fst (create_workspace_route rid (Some br) userId workspaceId st) = st
          /\ (exists code error workspace,
                 snd (create_workspace_route rid (Some br) userId workspaceId st)
                 = Reply code error workspace /\ 400 <= code)) as [Hsame Hreply].
  { unfold create_workspace_route.
    destruct (String.eqb br ""); [split; [done|]; by eexists _, _, _|].
    destruct (getRepository rid st) as [repo|]; [|split; [done|]; by eexists _, _, _].
    destruct (negb _); [split; [done|]; by eexists _, _, _|].
    rewrite Hexisting. split; [done|]. by eexists _, _, _. }
  split; [exact Hsame|]. split; [exact Hreply|]. split.
  - intros repo Hbr Hrepo Howner. unfold create_workspace_route.
    rewrite (proj2 (String.eqb_neq br "") Hbr), Hrepo, Howner, String.eqb_refl.
    cbn [negb]. by rewrite Hexisting.
  - split; [by rewrite Hsame|].
    intros. by apply create_workspace_route_invariant.
Qed.

End Worktrees.

Lemma duplicate_workspace_rejected_witness :
  Repositories.create_workspace_route "r1" (Some "main") "u1" "w2" Examples.repo_init
  = (Examples.repo_init,
     Repositories.Reply 409 "Workspace already exists for this branch"
       (Some {| Repositories.w_id := "w1"; Repositories.repository_id := "r1";
                Repositories.branch := "main";
                Repositories.directory_path := "/data/workspaces/u1/workspaces/w1" |})).
Proof.
  destruct (duplicate_workspace_rejected "r1" "main" "u1" "w2" Examples.repo_init _
              eq_refl ltac:(repeat constructor; set_solver))
    as (Hsame & _ & Hreply & _).
  rewrite (surjective_pairing (Repositories.create_workspace_route _ _ _ _ _)).
  apply pair_equal_spec. split; [exact Hsame|].
  exact (Hreply _ ltac:(discriminate) eq_refl eq_refl).
Defined.


(** ** Handles stay valid *)
Section WellFormed.
Import JS Terminal.

Lemma well_formed_sockets (st : state) (l : list WebSocket) :
  (length (sockets st) <= length l)%nat ->
  well_formed st -> well_formed (set_sockets st l).
Proof.
  intros Hlen [Hreg Hlisten]. split; [exact Hreg|].
  intros h p Hp. eapply Forall_impl; [exact (Hlisten h p Hp)|].
  intros sock Hsock. cbn in *. lia.
Qed.

Lemma well_formed_on_socket (sock : nat) (f : WebSocket -> WebSocket) (st : state) :
  well_formed st -> well_formed (on_socket sock f st).
Proof. apply well_formed_sockets. by rewrite length_alter. Qed.

Lemma well_formed_db (st : state) (d : Db.t) :
  well_formed st -> well_formed (set_db st d).
Proof. by intros [Hreg Hlisten]. Qed.

Lemma well_formed_unregister (sid : string) (st : state) :
  well_formed st -> well_formed (set_activePtys st (delete sid (activePtys st))).
Proof.
  intros [Hreg Hlisten]. split; [|exact Hlisten].
  intros sid' h Hh. cbn in Hh. apply lookup_delete_Some in Hh as [_ Hh]. by eapply Hreg.
Qed.

(** Changing a pseudo terminal without touching its data listeners. *)
Lemma well_formed_on_pty (h : nat) (f : IPty -> IPty) (st : state) :
  (forall p, onData (f p) = onData p) ->
  well_formed st -> well_formed (on_pty h f st).
Proof.
  intros Hsame [Hreg Hlisten]. split.
  - intros sid h' Hh'. destruct (Hreg sid h' Hh') as [p Hp]. cbn.
    rewrite list_lookup_alter. case_decide as Heq; [|by eexists].
    subst h'. rewrite Hp. by eexists.
  - intros h' p. cbn. rewrite list_lookup_alter.
    case_decide as Heq; [|by apply Hlisten].
    subst h'. destruct (ptys st !! h) as [p0|] eqn:Hp0; [|done].
    intros [= <-]. rewrite Hsame. by eapply Hlisten.
Qed.

Lemma well_formed_exitHandler (sid : string) (sock : nat) (exitCode : Z) (st : state) :
  well_formed st -> well_formed (exitHandler sid sock exitCode st).
Proof.
  intros Hwf. unfold exitHandler.
  destruct (socket_open _ _);
    repeat first [apply well_formed_on_socket | apply well_formed_db];
    by apply well_formed_unregister.
Qed.

Lemma well_formed_outputHandler (sock : nat) (data : string) (st : state) :
  well_formed st -> well_formed (outputHandler sock data st).
Proof.
  intros Hwf. unfold outputHandler.
  destruct (socket_open _ _); [by apply well_formed_on_socket|done].
Qed.

(** Attaching the socket [sock] to the pseudo terminal [h]. *)
Lemma well_formed_attach (sid : string) (sock h : nat) (st : state) :
  (sock < length (sockets st))%nat ->
  well_formed st -> well_formed (on_pty h (add_listeners sid sock) st).
Proof.
  intros Hsock [Hreg Hlisten]. split.
  - intros sid' h' Hh'. destruct (Hreg sid' h' Hh') as [p Hp]. cbn.
    rewrite list_lookup_alter. case_decide as Heq; [|by eexists].
    subst h'. rewrite Hp. by eexists.
  - intros h' p. cbn. rewrite list_lookup_alter.
    case_decide as Heq; [|by apply Hlisten].
    subst h'. destruct (ptys st !! h) as [p0|] eqn:Hp0; [|done].
    intros [= <-]. cbn. apply Forall_app. split; [by eapply Hlisten|].
    by apply Forall_singleton.
Qed.

(** Every handler keeps the handles valid; so the premises of the
    re-attachment property about the registered pseudo terminal hold in
    every state the server reaches. *)
Lemma on_connection_well_formed (sid : string) (tok : option string) (spawn_ok : bool)
      (st : state) :
  well_formed st -> well_formed (fst (on_connection sid tok spawn_ok st)).
Proof.
  intros Hwf. unfold on_connection.
  set (st0 := set_sockets st (sockets st ++ [WS.fresh])).
  assert (well_formed st0) as Hwf0.
  { apply well_formed_sockets; [|done]. rewrite length_app. lia. }
  assert (length (sockets st) < length (sockets st0))%nat as Hfresh.
  { cbn. rewrite length_app. cbn. lia. }
  assert (forall message code,
             well_formed
               (on_socket (length (sockets st)) (fun s => WS.close s code message)
                  (on_socket (length (sockets st))
                             (fun s => WS.send s (Error message)) st0))) as Hreject.
  { intros. by do 2 apply well_formed_on_socket. }
  destruct (match tok with
            | Some tk => if String.eqb tk "" then None else validateToken tk st0
            | None => None
            end) as [user|]; [|apply Hreject].
  destruct (Db.getTerminalSession sid (db st0)) as [session|]; [|apply Hreject].
  destruct (negb _); [apply Hreject|].
  destruct (activePtys st0 !! sid) as [h|] eqn:Hreg.
  - cbn [fst]. apply well_formed_attach.
    + unfold on_socket. cbn [sockets set_sockets]. by rewrite length_alter.
    + by apply well_formed_on_socket.
  - destruct spawn_ok; [|by do 2 apply well_formed_on_socket].
    cbn [fst]. apply well_formed_attach.
    + unfold on_socket. cbn [sockets set_sockets set_db set_activePtys set_ptys].
      by rewrite length_alter.
    + apply well_formed_on_socket, well_formed_db.
      destruct Hwf0 as [Hreg0 Hlisten0]. split.
      * intros sid' h'. cbn. rewrite lookup_insert.
        case_decide as Heq.
        { intros [= <-]. rewrite lookup_app_r, Nat.sub_diag by lia. by eexists. }
        intros Hh'. destruct (Hreg0 sid' h' Hh') as [p Hp].
        exists p. by apply lookup_app_l_Some.
      * intros h' p. cbn. intros Hp.
        apply lookup_app_Some in Hp as [Hp|[_ Hp]]; [by eapply Hlisten0|].
        destruct (h' - length (ptys st))%nat; [|done].
        injection Hp as <-. by apply Forall_nil.
Qed.

Lemma on_message_well_formed (JSON_parse : string -> option json) (c : connection)
      (rawData : string) (st : state) :
  well_formed st -> well_formed (on_message JSON_parse c rawData st).
Proof.
  intros Hwf. unfold on_message.
  destruct (JSON_parse rawData) as [message|]; [|done].
  destruct (prop "type" (Some message)) as [messageType|]; [|done].
  destruct (is_str "input" messageType).
  { destruct (truthy _); [|done]. destruct (get "data" message); [|done].
    by apply well_formed_db, well_formed_on_pty. }
  destruct (is_str "resize" messageType).
  { destruct (_ && _); [|done].
    destruct (get "cols" message), (get "rows" message); try done.
    by apply well_formed_on_pty. }
  destruct (is_str "ping" messageType); [|done].
  by apply well_formed_on_socket.
Qed.

Lemma on_pty_data_well_formed (h : nat) (data : string) (st : state) :
  well_formed st -> well_formed (on_pty_data h data st).
Proof.
  unfold on_pty_data. destruct (ptys st !! h) as [p|]; [|done].
  generalize (onData p). intros listeners. revert st.
  induction listeners as [|sock listeners IH]; intros st Hwf; [done|].
  cbn [fold_left]. by apply IH, well_formed_outputHandler.
Qed.

Lemma on_pty_exit_well_formed (h : nat) (exitCode : Z) (st : state) :
  well_formed st -> well_formed (on_pty_exit h exitCode st).
Proof.
  unfold on_pty_exit. destruct (ptys st !! h) as [p|]; [|done].
  generalize (onExit p). intros listeners. revert st.
  induction listeners as [|l listeners IH]; intros st Hwf; [done|].
  cbn [fold_left]. by apply IH, well_formed_exitHandler.
Qed.

Lemma kill_route_well_formed (sid userId : string) (st : state) :
  well_formed st -> well_formed (fst (kill_route sid userId st)).
Proof.
  intros Hwf. unfold kill_route.
  destruct (Db.getTerminalSession sid (db st)) as [session|]; [|done].
  destruct (negb _); [done|].
  destruct (activePtys st !! sid) as [h|]; [|done].
  cbn [fst]. apply well_formed_db.
  apply (well_formed_unregister sid (on_pty h add_kill st)).
  by apply well_formed_on_pty.
Qed.

End WellFormed.


(* ===================================================================== *)
(** * Part III: further properties of the routes                          *)
(* ===================================================================== *)

(** ** The PTY channel: connection set-up *)
Section PtyConnection.
Import JS Terminal.

Lemma alter_new_socket (f : WebSocket -> WebSocket) (l : list WebSocket) (s : WebSocket) :
  alter f (length l) (l ++ [s]) = l ++ [f s].
Proof.
  replace (length l) with (length l + 0)%nat by lia. by rewrite alter_app_r.
Qed.


(** X2: a connection is only ever established for a token of an auth
    session that has not expired, whose user exists and owns the session
    asked for; the connection is then bound to the pseudo terminal
    registered for that session. *)
Theorem accepted_connection_is_authorized
        (sid : string) (tok : option string) (spawn_ok : bool) (st : state)
        (c : connection) :
  snd (on_connection sid tok spawn_ok st) = Some c ->
  exists tk auth user session,
    tok = Some tk
    /\ Db.auth_sessions (db st) !! tk = Some auth
    /\ unixepoch st < Db.expires_at auth
    /\ Db.users (db st) !! Db.a_user_id auth = Some user
    /\ Db.terminal_sessions (db st) !! sid = Some session
    /\ Db.user_id session = Db.u_id user
    /\ sessionId c = sid
    /\ socket c = length (sockets st)
    /\ activePtys (fst (on_connection sid tok spawn_ok st)) !! sid = Some (ptyProcess c).
Proof.
  unfold on_connection.
  set (st0 := set_sockets st (sockets st ++ [WS.fresh])).
  destruct tok as [tk|]; [|done].
  destruct (String.eqb tk ""); [done|].
  unfold validateToken, Db.getAuthSessionByToken.
  change (db st0) with (db st). change (unixepoch st0) with (unixepoch st).
  destruct (Db.auth_sessions (db st) !! tk) as [auth|] eqn:Hauth; [|done].
  destruct (Z.gtb_spec (Db.expires_at auth) (unixepoch st)) as [Hfresh|]; [|done].
  destruct (Db.users (db st) !! Db.a_user_id auth) as [user|] eqn:Huser; [|done].
  unfold Db.getTerminalSession.
  destruct (Db.terminal_sessions (db st) !! sid) as [session|] eqn:Hsession; [|done].
  destruct (String.eqb_spec (Db.user_id session) (Db.u_id user)) as [Howner|]; [|done].
  cbn [negb].
  destruct (activePtys st0 !! sid) as [h|] eqn:Hreg.
  - intros [= <-]. by exists tk, auth, user, session.
  - destruct spawn_ok; [|done]. intros [= <-].
    exists tk, auth, user, session. repeat split; try done.
    cbn. apply lookup_insert_eq.
Qed.

(** X3: the first connection to a session spawns its pseudo terminal: the
    shell runs in the workspace of the session with [HOME] set to it, with
    the configuration directory of the user, the remote marker and the
    local part of the user's mail address as [USER]; every other variable
    of the server, [ANTHROPIC_API_KEY] included, is handed down as it is.
    The pseudo terminal is registered, the session is stored as [running],
    and the socket is greeted and listens to the output. *)
Theorem first_connection_spawns
        (sid tok : string) (st : state) (user : Db.User) (session : Db.TerminalSession) :
  tok <> "" ->
  validateToken tok st = Some user ->
  Db.getTerminalSession sid (db st) = Some session ->
  Db.user_id session = Db.u_id user ->
  activePtys st !! sid = None ->
  let sock := length (sockets st) in
  let h := length (ptys st) in
  let st' := fst (on_connection sid (Some tok) true st) in
  snd (on_connection sid (Some tok) true st)
  = Some {| socket := sock; sessionId := sid; ptyProcess := h |}
  /\ activePtys st' = <[sid := h]> (activePtys st)
  /\ (Db.status <$> Db.getTerminalSession sid (db st')) = Some Db.running
  /\ sockets st' = sockets st ++ [WS.Socket WS.OPEN [Connected sid 80 24] None]
  /\ exists p,
      ptys st' = ptys st ++ [p]
      /\ file p = shell st /\ cols p = 80 /\ rows p = 24
      /\ cwd p = Db.workspace_path session
      /\ env p !! "HOME" = Some (Db.workspace_path session)
      /\ env p !! "CLAUDE_CONFIG_DIR"
         = Some (Path.join [claudeConfigPath st; Db.u_id user])
      /\ env p !! "CLAUDE_CODE_REMOTE" = Some "1"
      /\ env p !! "USER" = head (JS.split "@" (Db.email user))
      /\ (forall k, k ∉ spawn_overrides -> env p !! k = process_env st !! k)
      /\ onData p = [sock] /\ onExit p = [(sid, sock)]
      /\ write_calls p = [] /\ kill_calls p = 0%nat.
Proof.
  intros Htok Huser Hsession Howner Hreg sock h st'. subst st'.
  unfold on_connection.
  rewrite (proj2 (String.eqb_neq tok "") Htok).
  change (validateToken tok (set_sockets st (sockets st ++ [WS.fresh])))
    with (validateToken tok st).
  rewrite Huser. cbn [db set_sockets]. rewrite Hsession, Howner, String.eqb_refl.
  cbn [negb activePtys set_sockets]. rewrite Hreg. cbn [fst snd].
  split; [done|]. split; [done|]. split.
  { cbn. unfold Db.getTerminalSession in *. cbn. by rewrite lookup_alter_eq, Hsession. }
  split.
  { cbn. by rewrite alter_new_socket. }
  eexists. split.
  { cbn. fold h. replace h with (length (ptys st) + 0)%nat at 1 by (subst h; lia).
    rewrite alter_app_r. reflexivity. }
  cbn. unfold spawn_env. cbn [claudeConfigPath process_env set_sockets].
  do 4 (split; [done|]).
  split; [by repeat (rewrite lookup_insert_ne by done); rewrite lookup_insert_eq|].
  split; [by repeat (rewrite lookup_insert_ne by done); rewrite lookup_insert_eq|].
  split; [by repeat (rewrite lookup_insert_ne by done); rewrite lookup_insert_eq|].
  split.
  { pose proof (split_nonempty "@" (Db.email user)) as Hne.
    destruct (JS.split "@" (Db.email user)); [done|]. by rewrite lookup_insert_eq. }
  split; [|done].
  intros k Hk. unfold spawn_overrides in Hk.
  repeat (rewrite lookup_insert_ne
           by (intros <-; apply Hk, list_elem_of_In; cbn; tauto)).
  done.
Qed.

End PtyConnection.


Lemma accepted_connection_is_authorized_witness :
  exists tk auth user session,
    Some "tok" = Some tk
    /\ Db.auth_sessions Examples.term_db !! tk = Some auth
    /\ 2000 < Db.expires_at auth
    /\ Db.users Examples.term_db !! Db.a_user_id auth = Some user
    /\ Db.terminal_sessions Examples.term_db !! "s1" = Some session
    /\ Db.user_id session = Db.u_id user.
Proof.
  destruct (accepted_connection_is_authorized
              "s1" (Some "tok") true Examples.term_init _ eq_refl)
    as (tk & auth & user & session & H1 & H2 & H3 & H4 & H5 & H6 & _).
  by exists tk, auth, user, session.
Defined.

Lemma first_connection_spawns_witness :
  Terminal.activePtys Examples.term_running = {[ "s1" := 0%nat ]}.
Proof.
  destruct (first_connection_spawns "s1" "tok" Examples.term_init _ _
              ltac:(discriminate) eq_refl eq_refl eq_refl eq_refl)
    as (_ & Hreg & _).
  exact Hreg.
Defined.

(** ** The PTY channel: output, frames and the REST routes *)
Section PtyTraffic.
Import JS Terminal.

Lemma outputHandler_frame (sock : nat) (data : string) (st : state) :
  activePtys (outputHandler sock data st) = activePtys st
  /\ ptys (outputHandler sock data st) = ptys st
  /\ db (outputHandler sock data st) = db st.
Proof. unfold outputHandler. by destruct (socket_open sock st). Qed.

Lemma outputHandlers_ptys (listeners : list nat) (data : string) :
  forall st : state,
    ptys (fold_left (fun st sock => outputHandler sock data st) listeners st) = ptys st.
Proof.
  induction listeners as [|sock listeners IH]; intros st; [done|].
  cbn [fold_left]. rewrite IH. apply outputHandler_frame.
Qed.

(** One chunk reaches an open socket that listens once. *)
Lemma on_pty_data_listener (h : nat) (p : IPty) (sock : nat) (s : WebSocket)
      (data : string) (st : state) :
  ptys st !! h = Some p ->
  NoDup (onData p) ->
  sock ∈ onData p ->
  sockets st !! sock = Some s ->
  WS.is_open s = true ->
  sockets (on_pty_data h data st) !! sock
  = Some (WS.Socket WS.OPEN (WS.sent s ++ [Output data]) (WS.closed_with s))
  /\ ptys (on_pty_data h data st) = ptys st.
Proof.
  intros Hp Hnodup Hin Hsock Hopen. unfold on_pty_data. rewrite Hp.
  split; [|apply outputHandlers_ptys].
  apply list_elem_of_split in Hin as (before & after & Hsplit).
  rewrite Hsplit in *. apply NoDup_app in Hnodup as (_ & Hbefore & Hafter).
  apply NoDup_cons in Hafter as [Hafter _].
  rewrite fold_left_app. cbn [fold_left].
  set (st1 := fold_left _ before st).
  assert (sockets st1 !! sock = Some s) as Hsock1.
  { unfold st1. rewrite outputHandlers_other; [done|].
    apply Forall_forall. intros x Hx ->. apply (Hbefore sock Hx). by left. }
  rewrite outputHandlers_other.
  - unfold outputHandler. rewrite (socket_open_spec _ _ _ Hsock1), Hopen.
    cbn [on_socket sockets set_sockets]. rewrite list_lookup_alter_eq, Hsock1.
    cbn. unfold WS.send. rewrite Hopen.
    unfold WS.is_open in Hopen. apply bool_decide_eq_true in Hopen. by rewrite Hopen.
  - apply Forall_forall. by intros x Hx ->.
Qed.

(** X4: the output chunks of a pseudo terminal reach an open socket that
    listens to it in the order the pseudo terminal produced them, each chunk
    as one [output] frame, whatever the other listeners are. *)
Theorem output_order_preserved
        (h : nat) (p : IPty) (sock : nat) (chunks : list string) :
  forall (st : state) (s : WebSocket),
    ptys st !! h = Some p ->
    NoDup (onData p) ->
    sock ∈ onData p ->
    sockets st !! sock = Some s ->
    WS.is_open s = true ->
    sockets (on_pty_output h chunks st) !! sock
    = Some (WS.Socket WS.OPEN (WS.sent s ++ map Output chunks) (WS.closed_with s)).
Proof.
  induction chunks as [|data chunks IH]; intros st s Hp Hnodup Hin Hsock Hopen.
  - cbn. rewrite app_nil_r, Hsock. f_equal.
    unfold WS.is_open in Hopen. apply bool_decide_eq_true in Hopen.
    destruct s; cbn in *; by subst.
  - unfold on_pty_output. cbn [fold_left]. fold (on_pty_output h chunks (on_pty_data h data st)).
    destruct (on_pty_data_listener h p sock s data st Hp Hnodup Hin Hsock Hopen)
      as [Hsock1 Hptys].
    rewrite (IH _ _ (eq_trans (f_equal (fun l => l !! h) Hptys) Hp) Hnodup Hin Hsock1 eq_refl).
    cbn. by rewrite <- app_assoc.
Qed.

(** X5: output that arrives while no listening socket is open is dropped:
    the state is exactly what it was, so nothing is kept for a socket that
    attaches later. *)
Theorem output_without_open_socket_is_dropped
        (h : nat) (p : IPty) (data : string) (st : state) :
  ptys st !! h = Some p ->
  Forall (fun sock => socket_open sock st = false) (onData p) ->
  on_pty_data h data st = st.
Proof.
  intros Hp Hclosed. unfold on_pty_data. rewrite Hp.
  induction Hclosed as [|sock listeners Hsock _ IH]; [done|].
  cbn [fold_left]. unfold outputHandler at 2. by rewrite Hsock.
Qed.

(** X6: killing a session through the REST route, as its owner: the
    registered pseudo terminal receives one [kill], the registry entry is
    removed and the session is stored as [stopped]; the status route then
    answers [stopped] without an active pseudo terminal, and a second kill
    succeeds without changing anything. *)
Theorem kill_stops_the_session
        (sid userId : string) (st : state) (session : Db.TerminalSession)
        (h : nat) (p : IPty) :
  Db.getTerminalSession sid (db st) = Some session ->
  Db.user_id session = userId ->
  activePtys st !! sid = Some h ->
  ptys st !! h = Some p ->
  let st' := fst (kill_route sid userId st) in
  snd (kill_route sid userId st) = KillSuccess
  /\ activePtys st' = delete sid (activePtys st)
  /\ ptys st' !! h = Some (add_kill p)
  /\ kill_calls (add_kill p) = S (kill_calls p)
  /\ snd (status_route sid userId st') = Status sid Db.stopped false
  /\ kill_route sid userId st' = (st', KillSuccess).
Proof.
  intros Hsession Howner Hreg Hp st'. subst st'.
  set (st1 := set_db (set_activePtys (on_pty h add_kill st) (delete sid (activePtys st)))
                (Db.updateTerminalSession sid (status_update Db.stopped) (db st))).
  assert (kill_route sid userId st = (st1, KillSuccess)) as ->.
  { unfold kill_route. by rewrite Hsession, Howner, String.eqb_refl, Hreg. }
  cbn [fst snd].
  assert (Db.getTerminalSession sid (db st1)
          = Some (Db.apply_updates (status_update Db.stopped) session)) as Hsession1.
  { unfold st1, Db.getTerminalSession in *. cbn. by rewrite lookup_alter_eq, Hsession. }
  assert (activePtys st1 !! sid = None) as Hreg1 by apply lookup_delete_eq.
  split; [done|]. split; [done|].
  split; [cbn; by rewrite list_lookup_alter_eq, Hp|]. split; [done|]. split.
  - unfold status_route. rewrite Hsession1. cbn [Db.apply_updates Db.user_id].
    rewrite Howner, String.eqb_refl, Hreg1. cbn [negb snd].
    rewrite bool_decide_eq_false_2; [done|]. by intros [? ?].
  - unfold kill_route. rewrite Hsession1. cbn [Db.apply_updates Db.user_id].
    by rewrite Howner, String.eqb_refl, Hreg1.
Qed.

(** X7: the REST routes do not tell a session of somebody else from one
    that does not exist: asked by anyone but the owner, both answer "not
    found" and change nothing. *)
Theorem foreign_session_is_not_found
        (sid userId : string) (st : state) (session : Db.TerminalSession) :
  Db.getTerminalSession sid (db st) = Some session ->
  Db.user_id session <> userId ->
  kill_route sid userId st = (st, KillNotFound)
  /\ status_route sid userId st = (st, StatusNotFound)
  /\ kill_route sid userId (set_db st (Db.deleteTerminalSession sid (db st)))
     = (set_db st (Db.deleteTerminalSession sid (db st)), KillNotFound).
Proof.
  intros Hsession Howner. unfold kill_route, status_route.
  rewrite Hsession, (proj2 (String.eqb_neq _ _) Howner). cbn [negb].
  split; [done|]. split; [done|].
  unfold Db.getTerminalSession, Db.deleteTerminalSession. cbn.
  by rewrite lookup_delete_eq.
Qed.

(** X8: whatever a frame on a PTY connection holds, handling it never
    registers or unregisters a pseudo terminal, never spawns one, never
    adds or removes a socket or a session row, and never changes the owner,
    the workspace or the status of a session. *)
Theorem frames_never_change_lifecycle
        (JSON_parse : string -> option json) (c : connection) (rawData : string)
        (st : state) (sid : string) :
  let st' := on_message JSON_parse c rawData st in
  activePtys st' = activePtys st
  /\ length (ptys st') = length (ptys st)
  /\ length (sockets st') = length (sockets st)
  /\ Db.users (db st') = Db.users (db st)
  /\ Db.auth_sessions (db st') = Db.auth_sessions (db st)
  /\ ((fun s => (Db.user_id s, Db.workspace_path s, Db.status s))
        <$> Db.getTerminalSession sid (db st'))
     = ((fun s => (Db.user_id s, Db.workspace_path s, Db.status s))
          <$> Db.getTerminalSession sid (db st)).
Proof.
  intros st'. subst st'. unfold on_message.
  destruct (JSON_parse rawData) as [message|]; [|done].
  destruct (prop "type" (Some message)) as [messageType|]; [|done].
  destruct (is_str "input" messageType).
  { destruct (truthy _); [|done]. destruct (get "data" message); [|done].
    cbn. rewrite length_alter. repeat split.
    unfold Db.getTerminalSession. cbn. rewrite lookup_alter.
    case_decide as Heq; [|done]. rewrite <- Heq.
    by destruct (Db.terminal_sessions (db st) !! sessionId c). }
  destruct (is_str "resize" messageType).
  { destruct (_ && _); [|done].
    destruct (get "cols" message), (get "rows" message); try done.
    cbn. by rewrite length_alter. }
  destruct (is_str "ping" messageType); [|done].
  cbn. by rewrite length_alter.
Qed.

(** X9: handles stay valid along every run of the server: from a restart
    on, whatever connections, frames, outputs, exits and REST requests
    follow, every registered handle is a spawned pseudo terminal and every
    data listener is an accepted socket. *)
Theorem handles_stay_valid
        (JSON_parse : string -> option json) (es : list event) :
  forall st : state, well_formed st -> well_formed (run JSON_parse st es).
Proof.
  induction es as [|e es IH]; intros st Hwf; [done|].
  cbn [run fold_left]. apply IH. destruct e; cbn [step].
  - by apply on_connection_well_formed.
  - by apply on_message_well_formed.
  - by apply well_formed_on_socket.
  - by apply on_pty_data_well_formed.
  - by apply on_pty_exit_well_formed.
  - by apply kill_route_well_formed.
  - by rewrite status_route_pure.
Qed.

End PtyTraffic.


Lemma restart_well_formed (st : Terminal.state) : Terminal.well_formed (Terminal.restart st).
Proof. split; [by intros sid h Hh|by intros h p Hp]. Qed.

Lemma handles_stay_valid_witness :
  Terminal.well_formed
    (Terminal.run Examples.parse_input (Terminal.restart Examples.term_running)
       [Terminal.Connect "s1" (Some "tok") true;
        Terminal.PtyData 0 "$ ";
        Terminal.KillRequest "s1" "u1"]).
Proof.
  apply handles_stay_valid, restart_well_formed.
Defined.

Lemma output_order_preserved_witness :
  Terminal.sockets (Terminal.on_pty_output 0 ["a"; "b"; "c"] Examples.term_running)
  !! 0%nat
  = Some (WS.Socket WS.OPEN
            [Terminal.Connected "s1" 80 24; Terminal.Output "a"; Terminal.Output "b";
             Terminal.Output "c"] None).
Proof.
  exact (output_order_preserved 0 _ 0 ["a"; "b"; "c"] Examples.term_running
           (WS.Socket WS.OPEN [Terminal.Connected "s1" 80 24] None)
           eq_refl (NoDup_singleton 0%nat) ltac:(by left) eq_refl eq_refl).
Defined.

Lemma output_without_open_socket_is_dropped_witness :
  Terminal.on_pty_data 0 "lost"
    (Terminal.on_socket_close
       {| Terminal.socket := 0%nat; Terminal.sessionId := "s1";
          Terminal.ptyProcess := 0%nat |} Examples.term_running)
  = Terminal.on_socket_close
      {| Terminal.socket := 0%nat; Terminal.sessionId := "s1";
         Terminal.ptyProcess := 0%nat |} Examples.term_running.
Proof.
  eapply output_without_open_socket_is_dropped; [reflexivity|].
  by repeat constructor.
Defined.

Lemma kill_stops_the_session_witness :
  snd (Terminal.status_route "s1" "u1"
         (fst (Terminal.kill_route "s1" "u1" Examples.term_running)))
  = Terminal.Status "s1" Db.stopped false.
Proof.
  destruct (kill_stops_the_session "s1" "u1" Examples.term_running _ 0%nat _
              eq_refl eq_refl eq_refl eq_refl) as (_ & _ & _ & _ & Hstatus & _).
  exact Hstatus.
Defined.

Lemma foreign_session_is_not_found_witness :
  Terminal.kill_route "s1" "mallory" Examples.term_running
  = (Examples.term_running, Terminal.KillNotFound).
Proof.
  destruct (foreign_session_is_not_found "s1" "mallory" Examples.term_running _
              eq_refl ltac:(discriminate)) as (Hkill & _).
  exact Hkill.
Defined.

(** ** The assistant channel: events, stream and abort *)
Section AssistantStream.
Import JS Chat.

Lemma sendMessage_sends (socket : WebSocket) (m : ChatMessage) :
  sends socket (sendMessage socket m)
        (if WS.is_open socket then [Message m] else []).
Proof.
  unfold sends, sendMessage, WS.send, WS.is_open.
  destruct (bool_decide (WS.readyState_of socket = WS.OPEN)) eqn:Hopen.
  - apply bool_decide_eq_true in Hopen. by rewrite Hopen.
  - rewrite app_nil_r. by destruct socket.
Qed.

Lemma sends_nil (socket : WebSocket) : sends socket socket [].
Proof. unfold sends. rewrite app_nil_r. by destruct socket. Qed.

Lemma sends_trans (s1 s2 s3 : WebSocket) (e1 e2 : list frame) :
  sends s1 s2 e1 -> sends s2 s3 e2 -> sends s1 s3 (e1 ++ e2).
Proof. unfold sends. intros -> ->. cbn. by rewrite app_assoc. Qed.

Lemma sendMessage_normalized (socket : WebSocket) (m : ChatMessage) :
  normalized_type (type m) = true ->
  exists extra, sends socket (sendMessage socket m) extra
                /\ normalizer_output socket extra.
Proof.
  intros Hkind. eexists. split; [apply sendMessage_sends|].
  unfold normalizer_output. destruct (WS.is_open socket).
  - split; [|done]. apply Forall_singleton. by exists m.
  - split; [constructor|done].
Qed.

Lemma sends_is_open (s1 s2 : WebSocket) (e : list frame) :
  sends s1 s2 e -> WS.is_open s2 = WS.is_open s1.
Proof. by intros ->. Qed.

Lemma send_blocks_appends (now : Z) (blocks : list json) :
  forall socket : WebSocket,
  exists extra, sends socket (fst (send_blocks now socket blocks)) extra
                /\ normalizer_output socket extra.
Proof.
  induction blocks as [|block blocks IH]; intros socket.
  { exists []. split; [apply sends_nil|by split]. }
  cbn [send_blocks].
  destruct (prop "type" (Some block)) as [ty|].
  2:{ exists []. split; [apply sends_nil|by split]. }
  set (socket1 := if is_str "text" ty then _ else _).
  assert (exists extra, sends socket socket1 extra /\ normalizer_output socket extra)
    as (e1 & Hs1 & Hk1 & Hc1).
  { unfold socket1. destruct (is_str "text" ty); [by apply sendMessage_normalized|].
    destruct (is_str "tool_use" ty); [by apply sendMessage_normalized|].
    exists []. split; [apply sends_nil|by split]. }
  destruct (IH socket1) as (e2 & Hs2 & Hk2 & Hc2).
  exists (e1 ++ e2). split; [by eapply sends_trans|]. split.
  - by apply Forall_app.
  - intros Hclosed. rewrite Hc1 by done. rewrite Hc2; [done|].
    by rewrite (sends_is_open _ _ _ Hs1).
Qed.

Lemma processClaudeEvent_appends (now : Z) (socket : WebSocket) (event : value) :
  exists extra,
    sends socket (fst (processClaudeEvent now socket event)) extra
    /\ normalizer_output socket extra.
Proof.
  assert (exists extra, sends socket socket extra /\ normalizer_output socket extra)
    as Hnone.
  { exists []. split; [apply sends_nil|by split]. }
  unfold processClaudeEvent.
  destruct event as [[]|]; try done;
    repeat match goal with
           | |- context [if ?b then _ else _] => destruct b
           | |- context [match event_content ?e with _ => _ end] =>
               destruct (event_content e) as [[]|]
           end;
    cbn [fst];
    first [done | by apply sendMessage_normalized | apply send_blocks_appends].
Qed.

(** X10: whatever record the assistant prints, normalizing it only appends
    frames to the socket, after those already sent and without touching its
    state; the frames are [assistant], [tool_use], [tool_result] or [error]
    events, never a [user], [status] or [system] event; and if the socket
    is not open nothing is written at all. *)
Theorem normalizer_only_appends (now : Z) (socket : WebSocket) (event : value) :
  exists extra,
    fst (processClaudeEvent now socket event)
    = WS.Socket (WS.readyState_of socket) (WS.sent socket ++ extra)
                (WS.closed_with socket)
    /\ Forall (fun f => exists m, f = Message m /\ normalized_type (type m) = true) extra
    /\ (WS.readyState_of socket <> WS.OPEN -> extra = []).
Proof.
  destruct (processClaudeEvent_appends now socket event) as (extra & Hsends & Hkind & Hclosed).
  exists extra. split; [exact Hsends|]. split; [exact Hkind|].
  intros Hnot. apply Hclosed. unfold WS.is_open. by apply bool_decide_eq_false.
Qed.

End AssistantStream.

(** ** The assistant channel: line buffering *)
Section LineBuffer.
Import JS Chat.

Variable JSON_parse : string -> option json.

(** Splitting [x ++ y]: the complete pieces of [x], then the pieces of what
    [x] left unfinished followed by [y]. *)
Lemma split_app (c : Ascii.ascii) (x y : string) :
  split c (x +:+ y)
  = removelast (split c x) ++ split c (List.last (split c x) "" +:+ y).
Proof.
  induction x as [|a x IH]; [done|].
  change (String a x +:+ y) with (String a (x +:+ y)).
  cbn [split]. rewrite IH. pose proof (split_nonempty c x) as Hne.
  destruct (Ascii.eqb a c) eqn:Hac.
  - destruct (split c x) as [|seg segs]; [done|]. done.
  - destruct (split c x) as [|seg [|seg' segs]]; [done| |done].
    cbn [removelast List.last app].
    change (String a seg +:+ y) with (String a (seg +:+ y)).
    cbn [split]. by rewrite Hac.
Qed.

Lemma removelast_last_app {A} (l1 l2 : list A) (d : A) :
  l2 <> [] ->
  removelast (l1 ++ l2) = l1 ++ removelast l2
  /\ List.last (l1 ++ l2) d = List.last l2 d.
Proof.
  intros Hne. split; [by apply removelast_app|].
  induction l1 as [|x l1 IH]; [done|].
  cbn. rewrite IH. by destruct (l1 ++ l2) eqn:Happ; [destruct l1, l2|].
Qed.

(** A line leaves a socket that is not open as it is. *)
Lemma process_line_closed (now : Z) (socket : WebSocket) (tool : value) (line : string) :
  WS.is_open socket = false ->
  fst (process_line JSON_parse now (socket, tool) line) = socket.
Proof.
  intros Hclosed. unfold process_line. cbn [fst snd].
  destruct (blank line); [done|]. destruct (JSON_parse line) as [event|]; [|done].
  destruct (processClaudeEvent_appends now socket (Some event))
    as (extra & Hsends & _ & Hnone).
  rewrite (Hnone Hclosed) in Hsends. unfold sends in Hsends. rewrite app_nil_r in Hsends.
  destruct (processClaudeEvent now socket (Some event)) as [socket' [[]|]];
    cbn [fst] in *; subst socket';
    repeat match goal with |- context [if ?b then _ else _] => destruct b end;
    by destruct socket.
Qed.

Lemma process_lines_closed (now : Z) (lines : list string) :
  forall (socket : WebSocket) (tool : value),
    WS.is_open socket = false ->
    fst (fold_left (process_line JSON_parse now) lines (socket, tool)) = socket.
Proof.
  induction lines as [|line lines IH]; intros socket tool Hclosed; [done|].
  cbn [fold_left].
  pose proof (process_line_closed now socket tool line Hclosed) as Hline.
  destruct (process_line JSON_parse now (socket, tool) line) as [socket' tool'].
  cbn [fst] in Hline. subst socket'. by apply IH.
Qed.

(** X11: the [stdout] handler does not depend on how the output of the
    child is cut into chunks: receiving [a] and then [b] leaves the same
    state (frames sent, buffered partial line, tool id) as receiving them
    in one piece.  A line cut in two by a chunk boundary is parsed once,
    whole. *)
Theorem stdout_chunking_is_irrelevant (h : nat) (a b : string) (st : state) :
  on_stdout JSON_parse h (a +:+ b) st
  = on_stdout JSON_parse h b (on_stdout JSON_parse h a st).
Proof.
  unfold on_stdout at 1 3.
  destruct (children st !! h) as [cp|] eqn:Hcp.
  2:{ unfold on_stdout. by rewrite Hcp. }
  set (lines1 := split newline (cp_buffer cp +:+ a)).
  destruct (fold_left (process_line JSON_parse (Date_now st)) (removelast lines1)
                      (socket_at (cp_socket cp) st, cp_currentToolId cp))
    as [socket1 tool1] eqn:Hfold1.
  set (st1 := update_child h _ _).
  unfold on_stdout.
  assert (children st1 !! h = Some (set_buffer (List.last lines1 "") tool1 cp)) as ->.
  { unfold st1. cbn. by rewrite list_lookup_alter_eq, Hcp. }
  cbn [cp_buffer cp_socket cp_currentToolId set_buffer].
  change (Date_now st1) with (Date_now st).
  rewrite <- append_assoc, (split_app newline (cp_buffer cp +:+ a) b). fold lines1.
  set (lines2 := split newline (List.last lines1 "" +:+ b)).
  assert (lines2 <> []) as Hne2 by apply split_nonempty.
  destruct (removelast_last_app (removelast lines1) lines2 "" Hne2) as [-> ->].
  rewrite fold_left_app, Hfold1.
  assert (fold_left (process_line JSON_parse (Date_now st)) (removelast lines2)
                    (socket_at (cp_socket cp) st1, tool1)
          = fold_left (process_line JSON_parse (Date_now st)) (removelast lines2)
                      (socket1, tool1)) as ->.
  { f_equal. f_equal. unfold socket_at, st1. cbn.
    rewrite lookup_alter_eq.
    destruct (sockets st !! cp_socket cp) as [s|] eqn:Hs; [done|]. cbn.
    pose proof (process_lines_closed (Date_now st) (removelast lines1)
                  (WS.Socket WS.CLOSED [] None) (cp_currentToolId cp) eq_refl) as Hclosed.
    unfold socket_at in Hfold1. rewrite Hs in Hfold1. cbn in Hfold1.
    by rewrite Hfold1 in Hclosed. }
  destruct (fold_left _ (removelast lines2) (socket1, tool1)) as [socket2 tool2].
  unfold update_child, put_socket, set_children, set_sockets, st1. cbn.
  f_equal.
  - rewrite list_alter_alter_eq. apply list_alter_ext; [|done]. by intros [].
  - rewrite alter_alter_eq. by apply alter_ext.
Qed.

End LineBuffer.

(** ** The assistant channel: abort, close and spawn failures *)
Section AssistantLifecycle.
Import JS Chat.

Variable JSON_parse : string -> option json.

(** [abortCurrentProcess] is safe to repeat: without a registered child it
    does nothing, and a second abort changes nothing after the first.  It
    never spawns or forgets a child, removes the entry of its own session
    only, and every entry of another session stays. *)
Lemma abortCurrentProcess_twice (sid : string) (st : state) :
  abortCurrentProcess sid (abortCurrentProcess sid st) = abortCurrentProcess sid st
  /\ (activeProcesses st !! sid = None -> abortCurrentProcess sid st = st)
  /\ activeProcesses (abortCurrentProcess sid st) !! sid = None
  /\ (forall other, other <> sid ->
        activeProcesses (abortCurrentProcess sid st) !! other
        = activeProcesses st !! other)
  /\ length (children (abortCurrentProcess sid st)) = length (children st)
  /\ sockets (abortCurrentProcess sid st) = sockets st.
Proof.
  assert (activeProcesses (abortCurrentProcess sid st) !! sid = None) as Hgone.
  { unfold abortCurrentProcess. destruct (activeProcesses st !! sid) eqn:Hreg; [|done].
    apply lookup_delete_eq. }
  split.
  { unfold abortCurrentProcess at 1. by rewrite Hgone. }
  split.
  { intros Hnone. unfold abortCurrentProcess. by rewrite Hnone. }
  split; [exact Hgone|].
  unfold abortCurrentProcess. destruct (activeProcesses st !! sid) eqn:Hreg; [|done].
  cbn. split; [|split; [apply length_alter|done]].
  intros other Hother. by apply lookup_delete_ne.
Qed.

(** X12: after an abort the session takes a new message at once: the next
    [user] message spawns a fresh child with no signal pending, the registry
    points at it, and the aborted child keeps the [SIGTERM] it was sent. *)
Theorem message_after_abort_starts_fresh
        (c : connection) (content : json) (st st' : state)
        (h : nat) (cp : ChildProcess) :
  activeProcesses st !! sessionId c = Some h ->
  children st !! h = Some cp ->
  handleUserMessage c content (abortCurrentProcess (sessionId c) st) = (st', Normal tt) ->
  activeProcesses st' !! sessionId c = Some (length (children st))
  /\ children st' !! h = Some (kill "SIGTERM" cp)
  /\ exists fresh,
      children st' !! length (children st) = Some fresh
      /\ cp_signals fresh = [] /\ cp_closed fresh = false
      /\ cp_args fresh = spawn_args content
      /\ length (children st') = S (length (children st)).
Proof.
  intros Hreg Hcp Hrun.
  destruct (abortCurrentProcess_registered _ _ _ _ Hreg Hcp) as [_ Hkilled].
  pose proof (abortCurrentProcess_twice (sessionId c) st) as (_ & _ & _ & _ & Hlen & _).
  apply handleUserMessage_spawns in Hrun as [Hchildren Hactive].
  rewrite Hactive, Hchildren, Hlen. split; [apply lookup_insert_eq|]. split.
  - rewrite lookup_app_l; [done|]. rewrite Hlen. by eapply lookup_lt_Some.
  - eexists. split.
    { rewrite lookup_app_r by lia. by rewrite Hlen, Nat.sub_diag. }
    rewrite length_app, Hlen. cbn. repeat split. lia.
Qed.


(** X14: only a [user] frame with content can start a process.  Handling a
    frame adds at most one child, and when it adds one the frame parsed to a
    record of type [user] with truthy content; a ping, an abort, an unknown
    or malformed frame never spawns. *)
Theorem only_user_frames_spawn (c : connection) (rawStr : string) (st : state) :
  let st' := on_message JSON_parse c rawStr st in
  (length (children st') = length (children st)
   \/ length (children st') = S (length (children st)))
  /\ (length (children st') <> length (children st) ->
      exists message content,
        JSON_parse rawStr = Some message
        /\ get "type" message = Some (JStr "user")
        /\ get "content" message = Some content
        /\ truthy (Some content) = true).
Proof.
  intros st'. subst st'. unfold on_message.
  assert (forall m st0, length (children (send_to (socket c) m st0)) = length (children st0))
    as Hsend by done.
  destruct (JSON_parse rawStr) as [message|]; [|by split; [left|]].
  unfold dispatch.
  destruct (prop "type" (Some message)) as [messageType|] eqn:Htype; [|by split; [left|]].
  destruct (content_slice _); [|by split; [left|]].
  destruct (is_str "user" messageType && truthy (get "content" message)) eqn:Huser.
  - apply andb_true_iff in Huser as [Hu Ht]. apply is_str_eq in Hu. subst messageType.
    destruct (get "content" message) as [content|] eqn:Hcontent; [|by split; [left|]].
    assert (get "type" message = Some (JStr "user")) as Hty
        by (destruct message; cbn in *; congruence).
    destruct (handleUserMessage c content st) as [st1 [[]|]] eqn:Hrun.
    + apply handleUserMessage_spawns in Hrun as [Hchildren _].
      rewrite Hchildren, length_app. cbn. split; [right; lia|].
      intros _. by exists message, content.
    + unfold handleUserMessage in Hrun.
      destruct (ensureUserConfigDir _ _) as [st2 [dir|]] eqn:Hdir; [done|].
      injection Hrun as <-. unfold ensureUserConfigDir in Hdir.
      destruct (Fs.existsSync _ _); [done|]. destruct (Fs.mkdirSync _ _); [done|].
      injection Hdir as <-. by split; [left|].
  - destruct (is_str "ping" messageType); [by split; [left|]|].
    destruct (is_str "abort" messageType); [|by split; [left|]].
    cbn [fst]. pose proof (abortCurrentProcess_twice (sessionId c) st) as (_ & _ & _ & _ & Hlen & _).
    rewrite Hlen. by split; [left|].
Qed.


End AssistantLifecycle.


(** ** The session routes *)
Section SessionRoutes.
Import Sessions.


Lemma existsSync_rmSync (p : string) (f : Fs.t) : Fs.existsSync p (Fs.rmSync p f) = false.
Proof.
  unfold Fs.existsSync, Fs.rmSync. cbn. apply orb_false_iff. split.
  - apply bool_decide_eq_false. intros Hin. apply elem_of_filter in Hin as [Hout _].
    unfold Fs.within in Hout. by rewrite String.eqb_refl in Hout.
  - apply bool_decide_eq_false. intros [x Hx]. apply map_lookup_filter_Some in Hx as [_ Hout].
    unfold Fs.within in Hout. cbn in Hout. by rewrite String.eqb_refl in Hout.
Qed.


(** X17: the routes on one session answer 404 to anyone but its owner, as
    they do for a session that does not exist, and change nothing: a foreign
    session can be neither read, renamed nor deleted. *)
Theorem foreign_session_routes_answer_404
        (sid userId : string) (projectName : option (option string)) (st : state)
        (session : Db.TerminalSession) :
  Db.getTerminalSession sid (db st) = Some session ->
  Db.user_id session <> userId ->
  get_route sid userId st = ItemReply 404 "Session not found"
  /\ patch_route sid userId projectName st = (st, ItemReply 404 "Session not found")
  /\ delete_route sid userId st = (st, ItemReply 404 "Session not found").
Proof.
  intros Hsession Howner. unfold get_route, patch_route, delete_route.
  by rewrite Hsession, (proj2 (String.eqb_neq _ _) Howner).
Qed.

(** X18: renaming a session, as its owner, stores the new name and nothing
    else: the answer is the session with that name, every other column is
    the one it had, and no other row changes.  Without a name in the body
    the session comes back as it is. *)
Theorem rename_changes_the_name_only
        (sid userId : string) (projectName : option (option string)) (st : state)
        (session : Db.TerminalSession) :
  Db.getTerminalSession sid (db st) = Some session ->
  Db.user_id session = userId ->
  let st' := fst (patch_route sid userId projectName st) in
  let renamed :=
    {| Db.id := Db.id session; Db.user_id := Db.user_id session;
       Db.container_id := Db.container_id session;
       Db.workspace_path := Db.workspace_path session;
       Db.project_name := default (Db.project_name session) projectName;
       Db.status := Db.status session; Db.created_at := Db.created_at session;
       Db.last_activity_at := Db.last_activity_at session |} in
  snd (patch_route sid userId projectName st) = Item (Some renamed)
  /\ get_route sid userId st' = Item (Some renamed)
  /\ fs st' = fs st
  /\ (forall other, other <> sid ->
        Db.getTerminalSession other (db st') = Db.getTerminalSession other (db st)).
Proof.
  intros Hsession Howner st' renamed. subst st'. unfold patch_route.
  rewrite Hsession, Howner, String.eqb_refl. cbn [negb fst snd].
  assert (session = {| Db.id := Db.id session; Db.user_id := Db.user_id session;
                       Db.container_id := Db.container_id session;
                       Db.workspace_path := Db.workspace_path session;
                       Db.project_name := Db.project_name session;
                       Db.status := Db.status session;
                       Db.created_at := Db.created_at session;
                       Db.last_activity_at := Db.last_activity_at session |}) as Heta
      by (by destruct session).
  destruct projectName as [n|].
  - assert (Db.getTerminalSession sid
              (Db.updateTerminalSession sid
                 {| Db.upd_container_id := None; Db.upd_status := None;
                    Db.upd_last_activity_at := None; Db.upd_project_name := Some n |}
                 (db st)) = Some renamed) as Hnew.
    { unfold Db.getTerminalSession in *. cbn. by rewrite lookup_alter_eq, Hsession. }
    cbn [db fs]. rewrite Hnew. split; [done|]. split.
    + unfold get_route. cbn [db]. rewrite Hnew. cbn [Db.user_id renamed].
      by rewrite Howner, String.eqb_refl.
    + split; [done|]. intros other Hother. unfold Db.getTerminalSession. cbn.
      by rewrite lookup_alter_ne.
  - rewrite Hsession. subst renamed. cbn [default]. rewrite <- Heta.
    split; [done|]. split; [|done].
    unfold get_route. by rewrite Hsession, Howner, String.eqb_refl.
Qed.

#[local] Instance more_recent_total : Total Db.more_recent.
Proof. intros a b. unfold Db.more_recent. lia. Qed.

#[local] Instance more_recent_trans : Transitive Db.more_recent.
Proof. intros a b c. unfold Db.more_recent. lia. Qed.

Lemma user_sessions_elem (userId : string) (dbs : Db.t) (session : Db.TerminalSession) :
  session ∈ Db.getUserTerminalSessions userId dbs
  <-> (exists sid, Db.terminal_sessions dbs !! sid = Some session)
      /\ Db.user_id session = userId.
Proof.
  unfold Db.getUserTerminalSessions. rewrite merge_sort_Permutation.
  rewrite list_elem_of_filter, list_elem_of_fmap. split.
  - intros [Howner ([sid row] & -> & Hin)]. apply elem_of_map_to_list in Hin.
    split; [by exists sid|done].
  - intros [[sid Hrow] Howner]. split; [done|].
    exists (sid, session). split; [done|]. by apply elem_of_map_to_list.
Qed.

(** X19: with every row stored under its id, the list route returns
    exactly the sessions of the user, each once, and every session comes
    before all those less recently active. *)
Theorem list_is_the_users_sessions_by_activity (userId : string) (st : state) :
  (forall sid row, Db.terminal_sessions (db st) !! sid = Some row -> Db.id row = sid) ->
  StronglySorted Db.more_recent (list_route userId st)
  /\ NoDup (Db.id <$> list_route userId st)
  /\ (forall session,
        session ∈ list_route userId st
        <-> Db.terminal_sessions (db st) !! Db.id session = Some session
            /\ Db.user_id session = userId).
Proof.
  intros Hkeys. unfold list_route.
  split; [apply (StronglySorted_merge_sort _)|]. split.
  - unfold Db.getUserTerminalSessions. rewrite merge_sort_Permutation.
    apply NoDup_fmap_2_strong.
    + intros a b Ha Hb Hid.
      apply list_elem_of_filter in Ha as [_ Ha]. apply list_elem_of_filter in Hb as [_ Hb].
      apply list_elem_of_fmap in Ha as ([ka va] & -> & Ha).
      apply list_elem_of_fmap in Hb as ([kb vb] & -> & Hb).
      apply elem_of_map_to_list in Ha, Hb. cbn in *.
      rewrite (Hkeys _ _ Ha), (Hkeys _ _ Hb) in Hid. subst kb. congruence.
    + apply NoDup_filter, NoDup_fmap_2_strong; [|apply NoDup_map_to_list].
      intros [ka va] [kb vb] Ha Hb Hv. cbn in Hv. subst vb.
      apply elem_of_map_to_list in Ha, Hb.
      by rewrite <- (Hkeys _ _ Ha), <- (Hkeys _ _ Hb).
  - intros session. rewrite user_sessions_elem. split.
    + intros [[sid Hrow] Howner]. split; [|done]. by rewrite (Hkeys _ _ Hrow).
    + intros [Hrow Howner]. split; [by eexists|done].
Qed.

End SessionRoutes.

(** ** Worktrees and workspaces *)
Section WorktreeCommands.
Import Repositories.

Ltac split_match :=
  repeat first
    [ reflexivity
    | match goal with
      | |- context [match ?x with _ => _ end] => is_var x; destruct x
      end ].

Lemma git_effect_add_local (p br cwd : string) (w : world) :
  git_effect (add_local p br) cwd w = with_worktree cwd p w.
Proof. unfold add_local, git_effect, with_worktree. split_match. Qed.

Lemma git_effect_add_remote (p br cwd : string) (w : world) :
  git_effect (add_remote p br) cwd w = with_worktree cwd p w.
Proof. unfold add_remote, git_effect, with_worktree. split_match. Qed.

Lemma git_effect_add_new (p br cwd : string) (w : world) :
  git_effect (add_new p br) cwd w = with_worktree cwd p w.
Proof. unfold add_new, git_effect, with_worktree. split_match. Qed.

Lemma execGit_add_local (p br cwd : string) (w : world) :
  execGit (add_local p br) cwd w
  = if bool_decide (add_local p br ∈ git_fails w) then JS.Throw
    else JS.Normal (with_worktree cwd p w).
Proof. rewrite <- (git_effect_add_local p br). reflexivity. Qed.

Lemma execGit_add_remote (p br cwd : string) (w : world) :
  execGit (add_remote p br) cwd w
  = if bool_decide (add_remote p br ∈ git_fails w) then JS.Throw
    else JS.Normal (with_worktree cwd p w).
Proof. rewrite <- (git_effect_add_remote p br). reflexivity. Qed.

Lemma execGit_add_new (p br cwd : string) (w : world) :
  execGit (add_new p br) cwd w
  = if bool_decide (add_new p br ∈ git_fails w) then JS.Throw
    else JS.Normal (with_worktree cwd p w).
Proof. rewrite <- (git_effect_add_new p br). reflexivity. Qed.

Lemma execGit_verify (br cwd : string) (w : world) :
  execGit (verify_branch br) cwd w
  = if bool_decide (verify_branch br ∈ git_fails w) then JS.Throw else JS.Normal w.
Proof. reflexivity. Qed.

Lemma createWorktree_unfold (repoPath p br : string) (w : world) :
  createWorktree repoPath p br w
  = if bool_decide (verify_branch br ∉ git_fails w)
       && bool_decide (add_local p br ∉ git_fails w)
       || bool_decide (add_remote p br ∉ git_fails w)
       || bool_decide (add_new p br ∉ git_fails w)
    then JS.Normal (with_worktree repoPath p w)
    else JS.Throw.
Proof.
  unfold createWorktree.
  change ["rev-parse"; "--verify"; br] with (verify_branch br).
  change ["worktree"; "add"; p; br] with (add_local p br).
  change ["worktree"; "add"; p; "-b"; br; "origin/" +:+ br] with (add_remote p br).
  change ["worktree"; "add"; "-b"; br; p] with (add_new p br).
  rewrite execGit_verify.
  destruct (decide (verify_branch br ∈ git_fails w)) as [Hv|Hv].
  - rewrite (bool_decide_eq_true_2 _ Hv), (bool_decide_eq_false_2 (_ ∉ _)) by tauto.
    cbn [andb orb]. rewrite execGit_add_remote, execGit_add_new.
    destruct (decide (add_remote p br ∈ git_fails w)) as [Hr|Hr].
    + rewrite (bool_decide_eq_true_2 _ Hr), (bool_decide_eq_false_2 (_ ∉ _)) by tauto.
      cbn [orb]. destruct (decide (add_new p br ∈ git_fails w)) as [Hn|Hn].
      * by rewrite (bool_decide_eq_true_2 _ Hn), (bool_decide_eq_false_2 (_ ∉ _)) by tauto.
      * by rewrite (bool_decide_eq_false_2 _ Hn), (bool_decide_eq_true_2 (_ ∉ _)) by tauto.
    + by rewrite (bool_decide_eq_false_2 _ Hr), (bool_decide_eq_true_2 (_ ∉ _)) by tauto.
  - rewrite (bool_decide_eq_false_2 _ Hv), (bool_decide_eq_true_2 (_ ∉ _)) by tauto.
    rewrite execGit_add_local, execGit_add_remote, execGit_add_new.
    destruct (decide (add_local p br ∈ git_fails w)) as [Hl|Hl].
    + rewrite (bool_decide_eq_true_2 _ Hl), (bool_decide_eq_false_2 (_ ∉ _)) by tauto.
      cbn [andb orb]. destruct (decide (add_remote p br ∈ git_fails w)) as [Hr|Hr].
      * rewrite (bool_decide_eq_true_2 _ Hr), (bool_decide_eq_false_2 (_ ∉ _)) by tauto.
        cbn [orb]. destruct (decide (add_new p br ∈ git_fails w)) as [Hn|Hn].
        -- by rewrite (bool_decide_eq_true_2 _ Hn), (bool_decide_eq_false_2 (_ ∉ _)) by tauto.
        -- by rewrite (bool_decide_eq_false_2 _ Hn), (bool_decide_eq_true_2 (_ ∉ _)) by tauto.
      * by rewrite (bool_decide_eq_false_2 _ Hr), (bool_decide_eq_true_2 (_ ∉ _)) by tauto.
    + by rewrite (bool_decide_eq_false_2 _ Hl), (bool_decide_eq_true_2 (_ ∉ _)) by tauto.
Qed.

(** X20: [createWorktree] has three ways to add the worktree: for the
    local branch, which takes the branch to verify and the add to work,
    from the branch of [origin], and with a new branch.  It fails exactly
    when all three fail, and when it succeeds the outcome is the one
    worktree at the given path, registered with the clone, with no file
    changed and no directory lost.  A git command that fails is taken to
    change nothing and the three ways to have the same effect, so the order
    in which they are tried does not show in the outcome and is not part of
    the statement. *)
Theorem createWorktree_succeeds_with_the_first_way_that_works
        (repoPath worktreePath br : string) (w : world) :
  let ok (args : list string) := args ∉ git_fails w in
  (createWorktree repoPath worktreePath br w = JS.Throw
   <-> ~ (ok (verify_branch br) /\ ok (add_local worktreePath br))
       /\ ~ ok (add_remote worktreePath br)
       /\ ~ ok (add_new worktreePath br))
  /\ (forall w',
         createWorktree repoPath worktreePath br w = JS.Normal w' ->
         worktrees w' = worktrees w ∪ {[(repoPath, worktreePath)]}
         /\ git_fails w' = git_fails w
         /\ Fs.files (fs w') = Fs.files (fs w)
         /\ Fs.dirs (fs w) ⊆ Fs.dirs (fs w')
         /\ (worktreePath ∉ Fs.unwritable (fs w) ->
             Fs.existsSync worktreePath (fs w') = true)).
Proof.
  intros ok. subst ok. cbv beta. rewrite createWorktree_unfold.
  destruct (_ && _ || _ || _) eqn:Hany.
  - split.
    + split; [done|]. intros (Hlocal & Hremote & Hnew).
      apply orb_true_iff in Hany as [Hany|Hany];
        [apply orb_true_iff in Hany as [Hany|Hany]|].
      * apply andb_true_iff in Hany as [Hv Hl].
        apply bool_decide_eq_true in Hv, Hl. tauto.
      * apply bool_decide_eq_true in Hany. tauto.
      * apply bool_decide_eq_true in Hany. tauto.
    + intros w' [= <-]. unfold with_worktree. cbn [worktrees git_fails fs].
      split; [done|]. split; [done|]. unfold Fs.mkdirSync.
      destruct (decide (worktreePath ∈ Fs.unwritable (fs w))) as [Hun|Hun].
      * rewrite (bool_decide_eq_true_2 _ Hun). done.
      * rewrite (bool_decide_eq_false_2 _ Hun). cbn [Fs.files Fs.dirs].
        split; [done|]. split; [set_solver|]. intros _.
        unfold Fs.existsSync. cbn [Fs.dirs]. apply orb_true_iff. left.
        apply bool_decide_eq_true. set_solver.
  - split; [|done]. split; [|done]. intros _.
    apply orb_false_iff in Hany as [Hany Hnew].
    apply orb_false_iff in Hany as [Hlocal Hremote].
    apply bool_decide_eq_false in Hremote, Hnew.
    split; [|tauto]. intros [Hv Hl].
    by rewrite (bool_decide_eq_true_2 _ Hv), (bool_decide_eq_true_2 _ Hl) in Hlocal.
Qed.

Lemma execGit_remove (p cwd : string) (w : world) :
  execGit (remove_forced p) cwd w
  = if bool_decide (remove_forced p ∈ git_fails w) || bool_decide ((cwd, p) ∉ worktrees w)
    then JS.Throw
    else JS.Normal {| fs := Fs.rmSync p (fs w);
                      worktrees := worktrees w ∖ {[(cwd, p)]};
                      git_fails := git_fails w |}.
Proof. reflexivity. Qed.

Lemma removeWorktree_unfold (repoPath p : string) (w : world) :
  removeWorktree repoPath p w
  = if bool_decide (remove_forced p ∈ git_fails w)
       || bool_decide ((repoPath, p) ∉ worktrees w)
    then w
    else {| fs := Fs.rmSync p (fs w);
            worktrees := worktrees w ∖ {[(repoPath, p)]};
            git_fails := git_fails w |}.
Proof.
  unfold removeWorktree. change ["worktree"; "remove"; p; "--force"] with (remove_forced p).
  rewrite execGit_remove. by destruct (_ || _).
Qed.

Lemma existsSync_rmSync_other (p q : string) (f : Fs.t) :
  Fs.within p q = false -> Fs.existsSync q (Fs.rmSync p f) = Fs.existsSync q f.
Proof.
  intros Hout. unfold Fs.existsSync, Fs.rmSync. cbn [Fs.dirs Fs.files]. f_equal.
  - apply bool_decide_ext. rewrite elem_of_filter. tauto.
  - apply bool_decide_ext. unfold is_Some.
    split; intros [x Hx]; exists x.
    + by apply map_lookup_filter_Some in Hx as [Hx _].
    + by apply map_lookup_filter_Some.
Qed.

(** X21: removing the worktree that [createWorktree] made gives back the
    worktrees git had registered, and the path is gone from the disk while
    everything outside it stays; when the remove command fails, or the
    path is no worktree of the clone, [removeWorktree] swallows the failure
    and changes nothing. *)
Theorem removeWorktree_undoes_createWorktree
        (repoPath worktreePath br : string) (w created : world) :
  createWorktree repoPath worktreePath br w = JS.Normal created ->
  (repoPath, worktreePath) ∉ worktrees w ->
  let removed := removeWorktree repoPath worktreePath created in
  (remove_forced worktreePath ∉ git_fails w ->
   worktrees removed = worktrees w
   /\ git_fails removed = git_fails w
   /\ Fs.existsSync worktreePath (fs removed) = false
   /\ (forall q, Fs.within worktreePath q = false ->
                 Fs.existsSync q (fs w) = true -> Fs.existsSync q (fs removed) = true))
  /\ (remove_forced worktreePath ∈ git_fails w -> removed = created)
  /\ removeWorktree repoPath worktreePath w = w.
Proof.
  intros Hcreated Hfresh removed. subst removed.
  rewrite createWorktree_unfold in Hcreated.
  destruct (_ && _ || _ || _); [|done]. injection Hcreated as <-.
  rewrite !removeWorktree_unfold. cbn [git_fails worktrees with_worktree fs].
  split; [|split].
  - intros Hok. rewrite (bool_decide_eq_false_2 _ Hok).
    rewrite (bool_decide_eq_false_2 (_ ∉ _))
      by (intros Hout; apply Hout, elem_of_union_r, elem_of_singleton; reflexivity).
    cbn [orb worktrees git_fails fs]. split.
    { apply set_eq. intros x. rewrite elem_of_difference, elem_of_union, elem_of_singleton.
      split; [tauto|]. intros Hx. split; [by left|]. by intros ->. }
    split; [done|].
    split; [apply existsSync_rmSync|].
    intros q Hout Hq. rewrite existsSync_rmSync_other by done.
    unfold Fs.mkdirSync. destruct (bool_decide _); [done|].
    unfold Fs.existsSync in *. cbn [Fs.dirs Fs.files].
    apply orb_true_iff in Hq as [Hq|Hq]; apply orb_true_iff; [left|by right].
    apply bool_decide_eq_true in Hq. apply bool_decide_eq_true. set_solver.
  - intros Hfail. by rewrite (bool_decide_eq_true_2 _ Hfail).
  - rewrite (bool_decide_eq_true_2 (_ ∉ _) Hfresh). by rewrite orb_true_r.
Qed.






Lemma find_app_none {A : Type} (f : A -> bool) (l : list A) (a : A) :
  List.find f l = None -> f a = true -> List.find f (l ++ [a]) = Some a.
Proof.
  induction l as [|x l IH]; cbn; [by intros _ ->|].
  destruct (f x); [done|]. exact IH.
Qed.

(** X23: a workspace the route created is the one the table then holds for
    its (repository, branch) pair: it sits at the worktree path under the
    user's directory, git has the worktree registered with the user's
    clone, and every further request of the user for the same pair is
    answered with the conflict carrying this workspace and changes
    nothing. *)
Theorem created_workspace_blocks_a_second
        (rid br userId workspaceId : string) (st : state) (workspace : Workspace) :
  snd (create_workspace_route rid (Some br) userId workspaceId st) = Created workspace ->
  let st' := fst (create_workspace_route rid (Some br) userId workspaceId st) in
  workspace = {| w_id := workspaceId; repository_id := rid; branch := br;
                 directory_path := worktree_path userId workspaceId st |}
  /\ workspaces st' = workspaces st ++ [workspace]
  /\ getWorkspaceByBranch rid br st' = Some workspace
  /\ (exists repo,
         getRepository rid st = Some repo /\ r_user_id repo = userId
         /\ (local_path repo, directory_path workspace) ∈ worktrees (disk st'))
  /\ (forall workspaceId',
         create_workspace_route rid (Some br) userId workspaceId' st'
         = (st', Reply 409 "Workspace already exists for this branch" (Some workspace))).
Proof.
  cbv zeta. unfold worktree_path.
  remember (create_workspace_route rid (Some br) userId workspaceId st) as out eqn:Hout.
  intros Hreply. unfold create_workspace_route in Hout.
  destruct (String.eqb br "") eqn:Hbr; [by subst out|].
  destruct (getRepository rid st) as [repo|] eqn:Hrepo; [|by subst out].
  destruct (negb _) eqn:Howner; [by subst out|].
  destruct (getWorkspaceByBranch rid br st) as [existing|] eqn:Hnone; [by subst out|].
  set (p := Path.join _) in *.
  destruct (Fs.mkdirSync _ _) as [f|]; [|by subst out].
  rewrite createWorktree_unfold in Hout. destruct (_ && _ || _ || _); [|by subst out].
  unfold createWorkspace in Hout. destruct (existsb _ _); [by subst out|].
  subst out. cbn [snd fst repositories workspaces set_disk disk workspaceBasePath] in *.
  injection Hreply as <-.
  assert (getWorkspaceByBranch rid br
            {| repositories := repositories st;
               workspaces := workspaces st ++
                 [{| w_id := workspaceId; repository_id := rid; branch := br;
                     directory_path := p |}];
               disk := with_worktree (local_path repo) p (set_fs (disk st) f);
               workspaceBasePath := workspaceBasePath st |}
          = Some {| w_id := workspaceId; repository_id := rid; branch := br;
                    directory_path := p |}) as Hfound.
  { unfold getWorkspaceByBranch. cbn [workspaces]. apply find_app_none; [exact Hnone|].
    cbn [repository_id branch]. by rewrite !String.eqb_refl. }
  split; [done|]. split; [done|]. split; [exact Hfound|]. split.
  - exists repo. split; [done|]. split.
    + apply negb_false_iff, String.eqb_eq in Howner. exact Howner.
    + cbn [directory_path worktrees with_worktree].
      apply elem_of_union_r, elem_of_singleton. reflexivity.
  - intros workspaceId'. unfold create_workspace_route.
    rewrite Hbr. unfold getRepository in *. cbn [repositories]. rewrite Hrepo, Howner.
    by rewrite Hfound.
Qed.

End WorktreeCommands.

(** ** Branches and repository names *)
Section BranchList.
Import Repositories.

Lemma dedupe_spec (l : list Branch) (seen : gset string) :
  NoDup (name <$> dedupe seen l)
  /\ (forall b, b ∈ dedupe seen l ->
                (name b ∉ seen)
                /\ List.find (fun b' => String.eqb (name b') (name b)) l = Some b)
  /\ (forall b, b ∈ l -> name b ∉ seen ->
                exists b', b' ∈ dedupe seen l /\ name b' = name b).
Proof.
  revert seen. induction l as [|x l IH]; intros seen; cbn [dedupe].
  - split; [constructor|]. split; intros b Hb; by apply elem_of_nil in Hb.
  - destruct (IH seen) as (Hnd & Hin & Hall).
    destruct (IH ({[name x]} ∪ seen)) as (Hnd' & Hin' & Hall').
    destruct (decide (name x ∈ seen)) as [Hseen|Hnew].
    + rewrite bool_decide_eq_true_2 by done. split; [done|]. split.
      * intros b Hb. destruct (Hin b Hb) as [Hb1 Hb2]. split; [done|]. cbn [List.find].
        destruct (String.eqb_spec (name x) (name b)) as [Heq|_]; [|done].
        by rewrite Heq in Hseen.
      * intros b Hb Hb'. apply elem_of_cons in Hb as [->|Hb]; [done|]. by apply Hall.
    + rewrite bool_decide_eq_false_2 by done. split; [|split].
      * rewrite fmap_cons. apply NoDup_cons. split; [|done]. intros Hx.
        apply list_elem_of_fmap in Hx as (b & Hname & Hb).
        destruct (Hin' b Hb) as [Hb1 _]. apply Hb1, elem_of_union_l, elem_of_singleton.
        by symmetry.
      * intros b Hb. apply elem_of_cons in Hb as [->|Hb].
        { split; [done|]. cbn [List.find]. by rewrite String.eqb_refl. }
        destruct (Hin' b Hb) as [Hb1 Hb2]. split.
        { intros Hs. by apply Hb1, elem_of_union_r. }
        cbn [List.find]. destruct (String.eqb_spec (name x) (name b)) as [Heq|_]; [|done].
        exfalso. apply Hb1, elem_of_union_l, elem_of_singleton. by symmetry.
      * intros b Hb Hb'. apply elem_of_cons in Hb as [->|Hb].
        { exists x. split; [by left|done]. }
        destruct (decide (name b = name x)) as [Heq|Hne].
        { exists x. split; [by left|done]. }
        destruct (Hall' b Hb) as (b' & Hb'1 & Hb'2).
        { intros Hs. apply elem_of_union in Hs as [Hs|Hs]; [|done].
          by apply elem_of_singleton in Hs. }
        exists b'. split; [by right|done].
Qed.

Lemma includes_strip_prefix (needle pre s t : string) :
  JS.strip_prefix pre s = Some t -> JS.includes needle s = false -> JS.includes needle t = false.
Proof.
  revert s. induction pre as [|a pre IH]; intros s; cbn [JS.strip_prefix].
  - by intros [= <-].
  - destruct s as [|b s]; [done|]. destruct (Ascii.eqb a b); [|done].
    intros Hs Hinc. apply (IH s Hs). cbn [JS.includes] in Hinc.
    by apply orb_false_iff in Hinc as [_ Hinc].
Qed.

Lemma branch_of_line_spec (line : string) (b : Branch) :
  branch_of_line line = Some b ->
  JS.includes "HEAD" (name b) = false
  /\ (isRemote b = true -> current b = false)
  /\ (isRemote b = false -> JS.strip_prefix "origin/" (name b) = None).
Proof.
  unfold branch_of_line. destruct (String.eqb line ""); [done|].
  destruct (JS.includes "HEAD" _) eqn:Hhead; [done|].
  destruct (JS.strip_prefix "origin/" _) as [short|] eqn:Hstrip; intros [= <-]; cbn.
  - split; [by apply (includes_strip_prefix _ _ _ _ Hstrip)|]. done.
  - done.
Qed.

(** X24: [listBranches] lists every name once; the entry of a name is the
    first one the output has for it, so a local branch listed before the
    branch of [origin] with its name wins; no listed name contains
    ["HEAD"], a remote entry is never the current branch, and an entry
    that is not remote does not start with ["origin/"]. *)
Theorem listBranches_first_entry_of_each_name (stdout : string) :
  let parsed := omap branch_of_line (JS.split Chat.newline (trim stdout)) in
  NoDup (name <$> listBranches stdout)
  /\ (forall b,
         b ∈ listBranches stdout
         <-> List.find (fun b' => String.eqb (name b') (name b)) parsed = Some b)
  /\ (forall b,
         b ∈ listBranches stdout ->
         JS.includes "HEAD" (name b) = false
         /\ (isRemote b = true -> current b = false)
         /\ (isRemote b = false -> JS.strip_prefix "origin/" (name b) = None)).
Proof.
  intros parsed. unfold listBranches. fold parsed.
  destruct (dedupe_spec parsed ∅) as (Hnd & Hin & Hall).
  split; [exact Hnd|]. split.
  - intros b. split; [intros Hb; by destruct (Hin b Hb)|].
    intros Hfind. pose proof (find_some _ _ Hfind) as [Hb _].
    apply list_elem_of_In in Hb.
    destruct (Hall b Hb) as (b' & Hb' & Hname); [apply not_elem_of_empty|].
    destruct (Hin b' Hb') as [_ Hfind']. rewrite Hname, Hfind in Hfind'.
    by injection Hfind' as ->.
  - intros b Hb. destruct (Hin b Hb) as [_ Hfind].
    pose proof (find_some _ _ Hfind) as [Hparsed _].
    apply list_elem_of_In, list_elem_of_omap in Hparsed as (line & _ & Hline).
    by apply branch_of_line_spec in Hline.
Qed.

Lemma length_append (a b : string) :
  String.length (a +:+ b) = (String.length a + String.length b)%nat.
Proof.
  induction a as [|x a IH]; [done|].
  change (String x a +:+ b) with (String x (a +:+ b)). cbn [String.length]. by rewrite IH.
Qed.

Lemma strip_git_spec (s stem : string) : strip_git s = Some stem <-> s = stem +:+ ".git".
Proof.
  split.
  - revert stem. induction s as [|a s IH]; intros stem; [done|]. cbn [strip_git].
    destruct (String.eqb_spec (String a s) ".git") as [->|_]; [by intros [= <-]|].
    destruct (strip_git s) as [stem'|]; [|done]. intros [= <-].
    change (String a stem' +:+ ".git") with (String a (stem' +:+ ".git")).
    f_equal. by apply IH.
  - intros ->. induction stem as [|a stem IH]; [done|].
    change (String a stem +:+ ".git") with (String a (stem +:+ ".git")).
    cbn [strip_git].
    destruct (String.eqb_spec (String a (stem +:+ ".git")) ".git") as [Heq|_].
    + injection Heq as _ Heq. apply (f_equal String.length) in Heq.
      rewrite length_append in Heq. cbn in Heq. lia.
    + by rewrite IH.
Qed.

Lemma last_split (c : Ascii.ascii) (s : string) :
  let t := List.last (JS.split c s) "" in
  JS.split c t = [t]
  /\ (JS.split c s = [s] /\ t = s
      \/ exists pre, s = pre +:+ String c t /\ JS.split c s = JS.split c pre ++ [t]).
Proof.
  induction s as [|a s IH]; [by split; [|left]|].
  cbn zeta in *. destruct IH as [Hplain IH].
  remember (List.last (JS.split c s) "") as t eqn:Ht.
  cbn [JS.split]. destruct (Ascii.eqb_spec a c) as [->|Hac].
  - assert (List.last ("" :: JS.split c s) "" = t) as ->.
    { rewrite Ht. pose proof (split_nonempty c s). by destruct (JS.split c s). }
    split; [exact Hplain|]. right. destruct IH as [[Hs Hts]|(pre & Hs & Hsplit)].
    + exists "". rewrite Hts. split; [done|]. by rewrite Hs.
    + exists (String c pre). split.
      * change (String c pre +:+ String c t) with (String c (pre +:+ String c t)).
        by f_equal.
      * cbn [JS.split]. rewrite Ascii.eqb_refl. by rewrite Hsplit.
  - destruct IH as [[Hs Hts]|(pre & Hs & Hsplit)].
    + rewrite Hs. cbn [List.last]. split; [|by left].
      cbn [JS.split]. rewrite (proj2 (Ascii.eqb_neq a c) Hac). by rewrite Hs.
    + pose proof (split_nonempty c pre) as Hne. rewrite Hsplit.
      destruct (JS.split c pre) as [|seg segs] eqn:Hpre; [done|].
      assert (List.last ((String a seg :: segs) ++ [t]) "" = t) as Hlast
        by apply last_last.
      cbn [app] in *. rewrite Hlast. split; [exact Hplain|]. right.
      exists (String a pre). split.
      * change (String a pre +:+ String c t) with (String a (pre +:+ String c t)).
        by f_equal.
      * cbn [JS.split]. rewrite (proj2 (Ascii.eqb_neq a c) Hac), Hpre. done.
Qed.

Lemma split_plain_prefix (c : Ascii.ascii) (a b : string) :
  JS.split c (a +:+ b) = [a +:+ b] -> JS.split c a = [a].
Proof.
  induction a as [|x a IH]; [done|].
  change (String x a +:+ b) with (String x (a +:+ b)). cbn [JS.split].
  destruct (Ascii.eqb x c); [discriminate|].
  destruct (JS.split c (a +:+ b)) as [|seg segs] eqn:Hab; [by apply split_nonempty in Hab|].
  intros [= -> ->]. by rewrite IH.
Qed.

Lemma split_plain_app (c : Ascii.ascii) (a b : string) :
  JS.split c a = [a] -> JS.split c b = [b] -> JS.split c (a +:+ b) = [a +:+ b].
Proof.
  intros Ha Hb. induction a as [|x a IH]; [exact Hb|].
  change (String x a +:+ b) with (String x (a +:+ b)). cbn [JS.split] in *.
  destruct (Ascii.eqb x c); [discriminate|].
  destruct (JS.split c a) as [|seg segs] eqn:Hsa; [by apply split_nonempty in Hsa|].
  injection Ha as -> ->. by rewrite IH.
Qed.

Lemma append_empty_r (a : string) : a +:+ "" = a.
Proof.
  induction a as [|x a IH]; [done|]. change (String x a +:+ "") with (String x (a +:+ "")).
  by f_equal.
Qed.

Lemma extractRepoName_plain (gitUrl : string) :
  Path.split gitUrl = [gitUrl] -> extractRepoName gitUrl = "unknown".
Proof. intros Hs. unfold extractRepoName. by rewrite Hs. Qed.

Lemma extractRepoName_sep (pre t : string) :
  Path.split t = [t] ->
  extractRepoName (pre +:+ "/" +:+ t)
  = if String.eqb t "" then "unknown"
    else match strip_git t with
         | Some stem => if String.eqb stem "" then t else stem
         | None => t
         end.
Proof.
  intros Ht. unfold extractRepoName, Path.split in *.
  change (pre +:+ "/" +:+ t) with (pre +:+ String "/" t).
  rewrite split_app_sep, Ht. pose proof (split_nonempty "/" pre) as Hne.
  destruct (JS.split "/" pre) as [|x l]; [done|].
  assert (List.last ((x :: l) ++ [t]) "" = t) as Hlast by apply last_last.
  destruct l as [|y l]; cbn [app] in *; by rewrite Hlast.
Qed.

(** X25: [extractRepoName] never gives an empty name or one with a
    separator.  Unless it is ["unknown"], the name is what follows the last
    separator of the URL, up to a final [".git"]; so the name of
    [.../repo.git] and of [.../repo] is [repo], and a URL that ends with
    the separator has the name ["unknown"]. *)
Theorem extractRepoName_is_the_last_segment (gitUrl pre stem : string) :
  (extractRepoName gitUrl <> ""
   /\ Path.split (extractRepoName gitUrl) = [extractRepoName gitUrl]
   /\ (extractRepoName gitUrl = "unknown"
       \/ exists before suffix,
            gitUrl = before +:+ "/" +:+ extractRepoName gitUrl +:+ suffix
            /\ (suffix = "" \/ suffix = ".git")))
  /\ (stem <> "" -> Path.split stem = [stem] ->
      extractRepoName (pre +:+ "/" +:+ stem +:+ ".git") = stem
      /\ (strip_git stem = None -> extractRepoName (pre +:+ "/" +:+ stem) = stem))
  /\ extractRepoName (pre +:+ "/") = "unknown".
Proof.
  split; [|split].
  - destruct (last_split "/" gitUrl) as [Hplain [[Hs _]|(before & Hs & _)]].
    { rewrite (extractRepoName_plain _ Hs). split; [done|]. split; [done|]. by left. }
    remember (List.last (JS.split "/" gitUrl) "") as t eqn:Ht. clear Ht. subst gitUrl.
    change (before +:+ String "/" t) with (before +:+ "/" +:+ t).
    rewrite (extractRepoName_sep _ _ Hplain).
    destruct (String.eqb_spec t "") as [->|Hne].
    { split; [done|]. split; [done|]. by left. }
    destruct (strip_git t) as [stem'|] eqn:Hstrip.
    + apply strip_git_spec in Hstrip.
      destruct (String.eqb_spec stem' "") as [->|Hstem].
      * split; [done|]. split; [done|]. right. exists before, "".
        split; [by rewrite append_empty_r|by left].
      * split; [done|]. split.
        { apply (split_plain_prefix "/" stem' ".git"). by rewrite <- Hstrip. }
        right. exists before, ".git". split; [by rewrite Hstrip|by right].
    + split; [done|]. split; [done|]. right. exists before, "".
      split; [by rewrite append_empty_r|by left].
  - intros Hstem Hplain. split.
    + rewrite extractRepoName_sep by (by apply split_plain_app).
      rewrite (proj2 (String.eqb_neq _ "")) by (by apply append_nonempty_r).
      rewrite (proj2 (strip_git_spec _ stem) eq_refl).
      by rewrite (proj2 (String.eqb_neq stem "")).
    + intros Hnone. rewrite extractRepoName_sep by done.
      by rewrite (proj2 (String.eqb_neq stem "")), Hnone.
  - by rewrite <- (append_empty_r (pre +:+ "/")), append_assoc, extractRepoName_sep.
Qed.

End BranchList.

(** ** The login route *)
Section LoginFlow.
Import JS Login.

Lemma later_refl (lp : LoginPty) : later lp lp.
Proof. unfold later. repeat split; auto. Qed.

Lemma later_trans (a b c : LoginPty) : later a b -> later b c -> later a c.
Proof.
  unfold later. intros (H1 & H2 & H3 & H4 & H5 & H6) (K1 & K2 & K3 & K4 & K5 & K6).
  repeat split; [congruence|congruence|congruence|auto|auto|lia].
Qed.

Lemma later_resolve (r : reply) (lp : LoginPty) : later lp (resolve r lp).
Proof.
  unfold resolve. destruct (settled lp) eqn:Hs; [apply later_refl|].
  unfold later. cbn. rewrite Hs. repeat split; auto; done.
Qed.

Lemma later_kill (lp : LoginPty) : later lp (kill lp).
Proof. unfold later. cbn. repeat split; auto. Qed.

Lemma later_set_resolved (lp : LoginPty) : later lp (set_resolved lp).
Proof. unfold later. cbn. repeat split; auto. Qed.

Lemma later_set_output (o : string) (lp : LoginPty) : later lp (set_output lp o).
Proof. unfold later. cbn. repeat split; auto. Qed.

Lemma update_login_later (h : nat) (f : LoginPty -> LoginPty) (st : state) :
  (forall lp, later lp (f lp)) ->
  forall i lp, logins st !! i = Some lp ->
               exists lp', logins (update_login h f st) !! i = Some lp' /\ later lp lp'.
Proof.
  intros Hf i lp Hlp. unfold update_login. cbn [logins set_logins].
  destruct (decide (h = i)) as [->|Hne].
  - rewrite list_lookup_alter_eq, Hlp. eexists. split; [reflexivity|apply Hf].
  - rewrite list_lookup_alter_ne by done. exists lp. split; [done|apply later_refl].
Qed.

Lemma step_later (e : event) (st : state) (i : nat) (lp : LoginPty) :
  logins st !! i = Some lp ->
  exists lp', logins (step st e) !! i = Some lp' /\ later lp lp'.
Proof.
  intros Hlp. destruct e as [userId|h data|h exitCode|h]; cbn [step].
  - unfold login_route.
    destruct (Chat.ensureUserConfigDir userId (chat st)) as [c [configDir|]];
      cbn [fst]; [|exists lp; split; [done|apply later_refl]].
    cbn [logins set_pendingLogins set_logins pendingLogins set_chat].
    destruct (pendingLogins st !! userId) as [existingLogin|];
      cbn [logins set_pendingLogins set_logins update_login set_chat].
    + destruct (update_login_later existingLogin kill st later_kill i lp Hlp)
        as (lp' & Hlp' & Hlater).
      exists lp'. split; [|done]. by apply lookup_app_l_Some.
    + exists lp. split; [by apply lookup_app_l_Some|apply later_refl].
  - unfold on_data. apply update_login_later; [|done]. intros lp0.
    eapply later_trans; [apply (later_set_output (output lp0 +:+ data))|].
    destruct (urlMatch _); [|apply later_refl].
    destruct (resolved _); [apply later_refl|].
    eapply later_trans; [apply later_set_resolved|apply later_resolve].
  - unfold on_exit. destruct (logins st !! h) as [lp0|]; [|exists lp; split; [done|apply later_refl]].
    apply (update_login_later h _ (set_pendingLogins st _)); [|done]. intros lp1.
    destruct (resolved _); [apply later_refl|].
    destruct (exitCode =? 0)%Z; [apply later_resolve|].
    destruct (urlMatch _); apply later_resolve.
  - unfold on_timeout. apply update_login_later; [|done]. intros lp0.
    destruct (resolved lp0); [apply later_refl|].
    eapply later_trans; [apply later_set_resolved|].
    destruct (urlMatch _); [apply later_resolve|].
    eapply later_trans; [apply later_kill|apply later_resolve].
Qed.

(** X26: whatever happens next (output, the exit, the timer, further login
    requests of any user), a login PTY stays the one it was started as, and
    the answer its request was given stays the answer: the promise is
    settled once. *)
Theorem login_answer_is_final (es : list event) (st : state) (h : nat) (lp : LoginPty) :
  logins st !! h = Some lp ->
  exists lp', logins (run st es) !! h = Some lp' /\ later lp lp'.
Proof.
  revert st lp. induction es as [|e es IH]; intros st lp Hlp.
  - exists lp. split; [done|apply later_refl].
  - destruct (step_later e st h lp Hlp) as (lp1 & Hlp1 & Hlater1).
    destruct (IH (step st e) lp1 Hlp1) as (lp' & Hlp' & Hlater').
    exists lp'. split; [exact Hlp'|]. by eapply later_trans.
Qed.

Lemma urlMatch_shape (s url : string) :
  urlMatch s = Some url -> exists rest, url = oauth_prefix +:+ url_tail rest.
Proof.
  induction s as [|a s IH]; cbn [urlMatch].
  - discriminate.
  - destruct (strip_prefix oauth_prefix (String a s)) as [rest|]; [|exact IH].
    intros [= <-]. by exists rest.
Qed.

Lemma url_tail_clean (s : string) :
  forallb (fun c => negb (url_stop c)) (String.list_ascii_of_string (url_tail s)) = true.
Proof.
  induction s as [|a s IH]; [done|]. cbn [url_tail].
  destruct (url_stop a) eqn:Ha; [done|]. cbn. by rewrite Ha, IH.
Qed.

(** X27: the first output in which the OAuth URL shows settles the request
    with that URL: the prefix, followed by characters none of which is
    white space, [ESC] or [BEL].  The PTY is not killed, and the timer
    then finds the request resolved and does nothing, so the login can be
    completed in the PTY. *)
Theorem login_url_is_reported_when_seen
        (h : nat) (data url : string) (st : state) (lp : LoginPty) :
  logins st !! h = Some lp ->
  resolved lp = false ->
  settled lp = None ->
  urlMatch (output lp +:+ data) = Some url ->
  let st' := on_data h data st in
  (exists lp',
      logins st' !! h = Some lp'
      /\ settled lp' = Some (LoginUrl url "Open this URL to authenticate with Claude")
      /\ output lp' = output lp +:+ data
      /\ lp_kills lp' = lp_kills lp)
  /\ pendingLogins st' = pendingLogins st
  /\ on_timeout h st' = st'
  /\ (exists tail,
         url = oauth_prefix +:+ tail
         /\ forallb (fun c => negb (url_stop c)) (String.list_ascii_of_string tail) = true).
Proof.
  intros Hlp Hres Hset Hurl st'. subst st'. unfold on_data, update_login.
  cbn [logins set_logins pendingLogins]. split; [|split; [done|split]].
  - rewrite list_lookup_alter_eq, Hlp. cbn [fmap option_fmap option_map output set_output].
    rewrite Hurl. cbn [resolved set_output]. rewrite Hres. eexists. split; [reflexivity|].
    unfold resolve. cbn [settled set_resolved set_output]. rewrite Hset. by cbn.
  - unfold on_timeout, update_login. cbn [logins set_logins]. destruct st as [c pend l].
    unfold set_logins. cbn [chat pendingLogins logins] in *. f_equal.
    apply list_eq. intros i. destruct (decide (h = i)) as [<-|Hne].
    + rewrite !list_lookup_alter_eq, Hlp.
      cbn [fmap option_fmap option_map output set_output].
      rewrite Hurl. cbn [resolved set_output]. rewrite Hres.
      unfold resolve. cbn [settled set_resolved set_output]. rewrite Hset. by cbn.
    + by rewrite list_lookup_alter_ne.
  - apply urlMatch_shape in Hurl as (rest & ->). exists (url_tail rest).
    split; [done|apply url_tail_clean].
Qed.

Lemma login_route_accepted (userId : string) (st st' : state) (h : nat) :
  login_route userId st = (st', Normal h) ->
  let configDir := Chat.getUserClaudeConfigDir (Chat.process_env (chat st)) userId in
  h = length (logins st)
  /\ pendingLogins st' !! userId = Some h
  /\ (forall other, other <> userId -> pendingLogins st' !! other = pendingLogins st !! other)
  /\ (exists lp,
         logins st' !! h = Some lp
         /\ lp_userId lp = userId /\ lp_cwd lp = configDir
         /\ settled lp = None /\ resolved lp = false /\ lp_kills lp = 0%nat
         /\ lp_env lp !! "ANTHROPIC_API_KEY" = None
         /\ lp_env lp !! "HOME" = Some configDir
         /\ lp_env lp !! "CLAUDE_CONFIG_DIR" = Some configDir
         /\ (forall k v,
                k <> "HOME" -> k <> "CLAUDE_CONFIG_DIR" ->
                lp_env lp !! k = Some v
                <-> Chat.process_env (chat st) !! k = Some v
                    /\ k <> "ANTHROPIC_API_KEY" /\ v <> ""))
  /\ (forall h0 lp0,
         pendingLogins st !! userId = Some h0 -> logins st !! h0 = Some lp0 ->
         logins st' !! h0 = Some (kill lp0))
  /\ (forall i lp0,
         pendingLogins st !! userId <> Some i -> logins st !! i = Some lp0 ->
         logins st' !! i = Some lp0).
Proof.
  unfold login_route.
  destruct (Chat.ensureUserConfigDir userId (chat st)) as [c [dir|]] eqn:Hdir; [|done].
  apply ensureUserConfigDir_frame in Hdir as (-> & Henv & _).
  set (configDir := Chat.getUserClaudeConfigDir _ _).
  set (lp := {| lp_userId := userId; lp_cwd := configDir; lp_env := _; output := _;
                resolved := _; settled := _; lp_kills := _ |}).
  assert (lp_env lp !! "ANTHROPIC_API_KEY" = None
          /\ lp_env lp !! "HOME" = Some configDir
          /\ lp_env lp !! "CLAUDE_CONFIG_DIR" = Some configDir
          /\ (forall k v,
                 k <> "HOME" -> k <> "CLAUDE_CONFIG_DIR" ->
                 lp_env lp !! k = Some v
                 <-> Chat.process_env (chat st) !! k = Some v
                     /\ k <> "ANTHROPIC_API_KEY" /\ v <> "")) as Henvs.
  { subst lp. cbn [lp_env]. unfold loginEnv.
    destruct (pendingLogins (set_chat st c) !! userId);
      cbn [chat set_pendingLogins update_login set_logins set_chat]; rewrite Henv.
    all: split; [rewrite !lookup_insert_ne by done; by apply map_lookup_filter_None_2; right;
                   intros v _ [Hk _]|].
    all: split; [rewrite lookup_insert_ne by done; apply lookup_insert_eq|].
    all: split; [apply lookup_insert_eq|].
    all: intros k v Hhome Hconf; rewrite !lookup_insert_ne by done;
      rewrite map_lookup_filter_Some; cbn [fst snd]; tauto. }
  cbn [pendingLogins set_chat].
  destruct (pendingLogins st !! userId) as [h0|] eqn:Hpending;
    cbn [logins pendingLogins set_pendingLogins update_login set_logins set_chat chat] in *;
    intros [= <- <-];
    cbn [logins pendingLogins set_pendingLogins update_login set_logins set_chat chat].
  - rewrite length_alter. split; [done|]. split; [apply lookup_insert_eq|]. split.
    { intros other Hother. rewrite lookup_insert_ne by done. by rewrite lookup_delete_ne. }
    split.
    { exists lp. split; [|by repeat (split; [done|])].
      rewrite <- (length_alter kill (logins st) h0). apply list_lookup_middle. done. }
    split.
    + intros h1 lp0 [= <-] Hlp0. apply lookup_app_l_Some.
      by rewrite list_lookup_alter_eq, Hlp0.
    + intros i lp0 Hi Hlp0. apply lookup_app_l_Some.
      rewrite list_lookup_alter_ne by congruence. done.
  - split; [done|]. split; [apply lookup_insert_eq|]. split.
    { intros other Hother. by rewrite lookup_insert_ne. }
    split.
    { exists lp. split; [|by repeat (split; [done|])]. by apply list_lookup_middle. }
    split; [done|].
    intros i lp0 _ Hlp0. by apply lookup_app_l_Some.
Qed.


(** X29: the exit handler of a login PTY removes the entry of its user,
    whichever PTY the entry names.  So when a pending login is replaced and
    the PTY that was killed then exits, the user has no entry although the
    new login is under way; the request after that finds nothing to kill,
    and the PTY of the second login lives on beside the third. *)
Theorem exit_of_a_replaced_login_unregisters_its_successor
        (userId : string) (st st1 : state) (h0 h1 : nat) (lp0 : LoginPty)
        (exitCode : Z) :
  pendingLogins st !! userId = Some h0 ->
  logins st !! h0 = Some lp0 ->
  lp_userId lp0 = userId ->
  login_route userId st = (st1, Normal h1) ->
  let st2 := on_exit h0 exitCode st1 in
  pendingLogins st1 !! userId = Some h1
  /\ pendingLogins st2 !! userId = None
  /\ (exists lp1,
         logins st2 !! h1 = Some lp1
         /\ lp_userId lp1 = userId /\ lp_kills lp1 = 0%nat /\ settled lp1 = None
         /\ forall st3 h2,
              login_route userId st2 = (st3, Normal h2) ->
              h2 <> h1 /\ logins st3 !! h1 = Some lp1).
Proof.
  intros Hpending Hlp0 Howner Hroute st2.
  destruct (login_route_accepted userId st st1 h1 Hroute)
    as (Hh1 & Hreg & _ & (lp1 & Hlp1 & Hu1 & _ & Hs1 & _ & Hk1 & _) & Hkilled & _).
  pose proof (Hkilled h0 lp0 Hpending Hlp0) as Hlp0'.
  assert (h0 <> h1) as Hne.
  { apply lookup_lt_Some in Hlp0. lia. }
  subst st2. unfold on_exit. rewrite Hlp0'. cbn [lp_userId kill]. rewrite Howner.
  unfold update_login. cbn [logins pendingLogins set_logins set_pendingLogins].
  split; [done|]. split; [apply lookup_delete_eq|].
  exists lp1. rewrite list_lookup_alter_ne by done. split; [done|].
  split; [done|]. split; [done|]. split; [done|].
  intros st3 h2 Hroute3.
  destruct (login_route_accepted userId _ st3 h2 Hroute3)
    as (Hh2 & _ & _ & _ & _ & Hkept).
  cbn [logins pendingLogins set_logins set_pendingLogins] in Hh2, Hkept.
  rewrite length_alter in Hh2. split.
  - apply lookup_lt_Some in Hlp1. lia.
  - apply Hkept; [by rewrite lookup_delete_eq|]. by rewrite list_lookup_alter_ne.
Qed.

End LoginFlow.

(** ** A new connection of the assistant channel *)
Section ChatConnection.
Import JS ChatRoute.



End ChatConnection.

(** ** The properties at the example data *)

Lemma message_after_abort_starts_fresh_witness :
  Chat.activeProcesses
    (fst (Chat.handleUserMessage Examples.chat_conn (JS.JStr "and add a test")
            (Chat.abortCurrentProcess "s1" Examples.chat_running)))
  !! "s1" = Some 1%nat.
Proof.
  refine (proj1 (message_after_abort_starts_fresh
                   Examples.chat_conn (JS.JStr "and add a test") Examples.chat_running
                   _ 0%nat _ _ _ _)); vm_compute; reflexivity.
Defined.




Lemma foreign_session_routes_answer_404_witness :
  Sessions.get_route "s1" "mallory" Examples.sessions_init
  = Sessions.ItemReply 404 "Session not found".
Proof.
  refine (proj1 (foreign_session_routes_answer_404
                   "s1" "mallory" None Examples.sessions_init _ eq_refl _)).
  discriminate.
Defined.

Lemma rename_changes_the_name_only_witness :
  Sessions.fs (fst (Sessions.patch_route "s1" "u1" (Some (Some "notes"))
                      Examples.sessions_init))
  = Sessions.fs Examples.sessions_init.
Proof.
  refine (proj1 (proj2 (proj2 (rename_changes_the_name_only
                                 "s1" "u1" (Some (Some "notes")) Examples.sessions_init
                                 _ eq_refl eq_refl)))).
Defined.

Lemma list_is_the_users_sessions_by_activity_witness :
  NoDup (Db.id <$> Sessions.list_route "u1" Examples.sessions_init).
Proof.
  refine (proj1 (proj2 (list_is_the_users_sessions_by_activity
                          "u1" Examples.sessions_init _))).
  intros sid row Hrow. unfold Examples.sessions_init, Examples.term_db in Hrow.
  cbn [Sessions.db Db.terminal_sessions] in Hrow.
  apply lookup_singleton_Some in Hrow as [<- <-]. reflexivity.
Defined.

Lemma removeWorktree_undoes_createWorktree_witness :
  Repositories.removeWorktree "/data/workspaces/u1/repos/r1"
    "/data/workspaces/u1/workspaces/w2" (Repositories.disk Examples.repo_init)
  = Repositories.disk Examples.repo_init.
Proof.
  assert (Repositories.createWorktree
            "/data/workspaces/u1/repos/r1" "/data/workspaces/u1/workspaces/w2" "dev"
            (Repositories.disk Examples.repo_init)
          = JS.Normal (Repositories.with_worktree
                         "/data/workspaces/u1/repos/r1" "/data/workspaces/u1/workspaces/w2"
                         (Repositories.disk Examples.repo_init))) as Hcreated
    by (vm_compute; reflexivity).
  assert (("/data/workspaces/u1/repos/r1", "/data/workspaces/u1/workspaces/w2")
          ∉ Repositories.worktrees (Repositories.disk Examples.repo_init)) as Hfresh
    by (vm_compute; discriminate).
  exact (proj2 (proj2 (removeWorktree_undoes_createWorktree _ _ _ _ _ Hcreated Hfresh))).
Defined.


Lemma created_workspace_blocks_a_second_witness :
  snd (Repositories.create_workspace_route "r1" (Some "dev") "u1" "w3"
         (fst (Repositories.create_workspace_route "r1" (Some "dev") "u1" "w2"
                 Examples.repo_init)))
  = Repositories.Reply 409 "Workspace already exists for this branch"
      (Some {| Repositories.w_id := "w2"; Repositories.repository_id := "r1";
               Repositories.branch := "dev";
               Repositories.directory_path := "/data/workspaces/u1/workspaces/w2" |}).
Proof.
  destruct (created_workspace_blocks_a_second
              "r1" "dev" "u1" "w2" Examples.repo_init
              {| Repositories.w_id := "w2"; Repositories.repository_id := "r1";
                 Repositories.branch := "dev";
                 Repositories.directory_path := "/data/workspaces/u1/workspaces/w2" |}
              ltac:(vm_compute; reflexivity))
    as (_ & _ & _ & _ & Hsecond).
  by rewrite Hsecond.
Defined.

Lemma login_answer_is_final_witness :
  exists lp,
    Login.logins
      (Login.run Examples.login_pending
         [Login.PtyData 0 "Visit https://claude.ai/oauth/authorize?code=true now";
          Login.Timeout 0; Login.PtyExit 0 1; Login.Request "u1"])
    !! 0%nat = Some lp
    /\ Login.later
         {| Login.lp_userId := "u1"; Login.lp_cwd := "/home/claudelet/.claudelet-users/u1";
            Login.lp_env :=
              Login.loginEnv (Chat.process_env Examples.chat_init)
                             "/home/claudelet/.claudelet-users/u1";
            Login.output := ""; Login.resolved := false; Login.settled := None;
            Login.lp_kills := 0 |} lp.
Proof.
  apply (login_answer_is_final _ Examples.login_pending 0). reflexivity.
Defined.

Lemma login_url_is_reported_when_seen_witness :
  Login.on_timeout 0
    (Login.on_data 0 "Visit https://claude.ai/oauth/authorize?code=true now"
       Examples.login_pending)
  = Login.on_data 0 "Visit https://claude.ai/oauth/authorize?code=true now"
      Examples.login_pending.
Proof.
  refine (proj1 (proj2 (proj2 (login_url_is_reported_when_seen
                                 0 "Visit https://claude.ai/oauth/authorize?code=true now"
                                 "https://claude.ai/oauth/authorize?code=true"
                                 Examples.login_pending _ _ _ _ _))));
    vm_compute; reflexivity.
Defined.


Lemma exit_of_a_replaced_login_unregisters_its_successor_witness :
  Login.pendingLogins
    (Login.on_exit 0 1 (fst (Login.login_route "u1" Examples.login_pending)))
  !! "u1" = None.
Proof.
  refine (proj1 (proj2 (exit_of_a_replaced_login_unregisters_its_successor
                          "u1" Examples.login_pending _ 0 1 _ 1%Z _ _ _ _)));
    vm_compute; reflexivity.
Defined.
